(** * slscale / msscale: rescaling of miniSEED integer samples

    A shallow embedding of [slscale.c] (the SeedLink to DataLink variant) and
    of [msscale.c] (the file variant): the in-place sample transform, the
    regrouping and packing of the result through libmseed, the two record
    handlers, the two driver loops, the two option loops and the start-up
    of slscale.

    The three libraries the programs link against (libmseed, libslink,
    libdali) are not part of the repository.  What they compute is taken as
    an interface ([Libmseed], and [Libc] for [atoi] and [atof]); what they
    answer at run time (allocation, writes, the network) is scripted in the
    [World]. *)

From Stdlib Require Import ZArith Lia Bool Ascii String.
From Stdlib Require Import Floats.SpecFloat.
From stdpp Require Import base list.

Local Open Scope Z_scope.

(** ** C doubles: IEEE 754 binary64, round to nearest even *)

Definition double : Type := spec_float.

Definition dprec : Z := 53.
Definition demax : Z := 1024.

(** [(double) v] for an integer [v]. *)
Definition double_of_int (v : Z) : double := binary_normalize dprec demax v 0 false.

Definition dmul : double -> double -> double := SFmul dprec demax.
Definition dadd : double -> double -> double := SFadd dprec demax.

(** [x == 0.0]: true for both zeros, false for a NaN. *)
Definition is_zero (x : double) : bool := SFeqb x (S754_zero false).

(** [rint(x)] in the default rounding mode.  A finite [m * 2^e] with [e < 0]
    has its mantissa shifted right by [-e] bits, the round and sticky bits
    deciding between the two neighbouring integers, ties going to the even
    one; the sign is kept when the result is zero. *)
Definition rint (x : double) : double :=
  match x with
  | S754_finite s m (Zneg q) =>
      let mrs := fst (shr (shr_record_of_loc (Zpos m) loc_Exact) (Zneg q) (Zpos q)) in
      match round_nearest_even (shr_m mrs) (loc_of_shr_record mrs) with
      | Z0 => S754_zero s
      | n => binary_normalize dprec demax (cond_Zopp s n) 0 s
      end
  | _ => x
  end.

Definition INT_MIN : Z := -2147483648.
Definition INT_MAX : Z := 2147483647.

(** The value of a double with its fraction discarded (towards zero);
    nothing for an infinity or a NaN. *)
Definition trunc_double (x : double) : option Z :=
  match x with
  | S754_zero _ => Some 0
  | S754_finite s m e => Some (cond_Zopp s (Z.shiftl (Zpos m) e))
  | _ => None
  end.

(** What the target makes of a conversion that C leaves undefined. *)
Class CTarget := {
  (* the int a double converts to when its truncation is not an int *)
  int_of_unrepresentable : double -> Z
}.

(** [(int) x]. *)
Definition int_of_double `{CTarget} (x : double) : Z :=
  match trunc_double x with
  | Some t => if (INT_MIN <=? t) && (t <=? INT_MAX) then t else int_of_unrepresentable x
  | None => int_of_unrepresentable x
  end.

(** [(int) l] for a [long] [l]: the low 32 bits, two's complement. *)
Definition int_of_long (l : Z) : Z := (l + 2147483648) mod 4294967296 - 2147483648.

(** ** Records, configuration and the outside world *)

(** The fields of libmseed's [MSRecord] the programs read or write.
    [datasamples] is the sample buffer seen as the code sees it, through
    [(int * ) msr->datasamples]: a sequence of 32-bit words. *)
Record MSRecord := mkMSRecord {
  channel : list ascii;      (* char channel[11] *)
  starttime : Z;             (* hptime_t *)
  samprate : double;
  samplecnt : Z;             (* int64_t: the count in the header *)
  sampletype : ascii;        (* 'a', 'i', 'f' or 'd' *)
  numsamples : Z;            (* int64_t: the samples unpacked into the buffer *)
  datasamples : list Z
}.

Definition set_channel (c : list ascii) (r : MSRecord) : MSRecord :=
  mkMSRecord c (starttime r) (samprate r) (samplecnt r) (sampletype r)
             (numsamples r) (datasamples r).

Definition set_datasamples (d : list Z) (r : MSRecord) : MSRecord :=
  mkMSRecord (channel r) (starttime r) (samprate r) (samplecnt r) (sampletype r)
             (numsamples r) d.

(** A raw record as handed around with its length: [char *record, int reclen]. *)
Definition block : Type := list Byte.byte.

(** The file-scope variables set from the command line.  [orient] is a
    [char *]: [None] is the null pointer. *)
Record Config := mkConfig {
  verbose : Z;
  orient : option string;
  alpha : double;
  beta : double;
  datalink : option string;
  writeack : Z;
  statefile : option string;
  stateint : Z
}.

(** [*orient]: the first character, the terminating NUL for an empty string. *)
Definition deref_string (s : string) : ascii :=
  match s with
  | String c _ => c
  | EmptyString => Ascii.zero
  end.

(** What [msr_unpack(record, reclen, &msr, ...)] does to [msr]. *)
Inductive unpack_result :=
  | Unpacked (r : MSRecord)    (* MS_NOERROR: msr points to the record *)
  | Rejected                   (* an error before the record is allocated: msr untouched *)
  | Garbled (r : MSRecord).    (* an error later on: msr points to what was filled in *)

Definition unpack_ok (u : unpack_result) : bool :=
  match u with Unpacked _ => true | _ => false end.

Definition unpack_into (u : unpack_result) (msr : option MSRecord) : option MSRecord :=
  match u with
  | Unpacked r => Some r
  | Rejected => msr
  | Garbled r => Some r
  end.

Definition DE_STEIM2 : Z := 11.

(** The part of libmseed that is a function of its arguments. *)
Class Libmseed := {
  MSTraceGroup : Type;
  (* the empty group mst_initgroup(NULL) returns when it can allocate *)
  mst_newgroup : MSTraceGroup;
  (* the group after mst_addmsrtogroup(mstg, msr, 0, -1, -1) *)
  mst_addmsrtogroup : MSTraceGroup -> MSRecord -> MSTraceGroup;
  (* mst_packgroup(mstg, handler, NULL, reclen, encoding, 1, &psamples, 1, 0, NULL):
     the records handed to the handler, in order, the value returned and
     the count stored in psamples *)
  mst_packgroup : MSTraceGroup -> Z -> Z -> list block * Z * Z;
  (* msr_unpack(record, reclen, &msr, dataflag, verbose) *)
  msr_unpack : block -> bool -> unpack_result;
  msr_srcname : MSRecord -> string;
  msr_endtime : MSRecord -> Z
}.

(** SeedLink packet types ([libslink.h]). *)
Inductive sl_type :=
  SLDATA | SLDET | SLCAL | SLTIM | SLMSG | SLBLK | SLNUM | SLINF | SLINFT | SLKEEP.

Definition is_SLDATA (t : sl_type) : bool :=
  match t with SLDATA => true | _ => false end.

(** A packet [sl_collect] hands out. *)
Record SLpacket := mkSLpacket {
  msrecord : block;
  sl_packettype : sl_type
}.

(** One evaluation of [dl_write(...) < 0] and, when the write is refused,
    what the round that follows meets: whether libdali left the socket open
    ([dlconn->link != -1]), whether [dl_connect] succeeds, and whether a
    termination signal is delivered before [slconn->terminate] is read. *)
Inductive Attempt :=
  | Accepted
  | Refused (link_open connect_ok signal : bool).

(** Calls that leave the program, in the order they are made. *)
Inductive event :=
  | EvLog (level : Z) (fmt : string)              (* ms_log, sl_log *)
  | EvMsrPrint (msr : option MSRecord) (details : bool)
  | EvInitGroup (ok : bool)
  | EvAddMsr (r : MSRecord)
  | EvPrintTraceList
  | EvPackGroup (reclen encoding : Z)
  | EvFreeGroup
  | EvFwrite (record : block) (ok : bool)         (* fwrite(record, reclen, 1, stdout) *)
  | EvDlWrite (record : block) (streamid : string) (starttime endtime : Z) (ack : Z)
              (ok : bool)
  | EvDlDisconnect
  | EvDlConnect (ok : bool)
  | EvSleep (seconds : Z)
  | EvSaveState
  | EvSlDisconnect.

(** The state outside the record being processed.  [heap], [disk] and [net]
    script what the environment will answer: the outcome of the allocations
    to come, of the writes to standard output to come, and of the DataLink
    rounds to come. *)
Record World := mkWorld {
  trace : list event;
  terminate : bool;               (* slconn->terminate *)
  dl_link : bool;                 (* dlconn->link != -1 *)
  handler_msr : option MSRecord;  (* the static msr of slscale's record_handler *)
  heap : list bool;
  disk : list bool;
  net : list Attempt
}.

Definition emit (e : event) (w : World) : World :=
  mkWorld (trace w ++ [e]) (terminate w) (dl_link w) (handler_msr w) (heap w) (disk w) (net w).
Definition set_terminate (b : bool) (w : World) : World :=
  mkWorld (trace w) b (dl_link w) (handler_msr w) (heap w) (disk w) (net w).
Definition set_dl_link (b : bool) (w : World) : World :=
  mkWorld (trace w) (terminate w) b (handler_msr w) (heap w) (disk w) (net w).
Definition set_handler_msr (m : option MSRecord) (w : World) : World :=
  mkWorld (trace w) (terminate w) (dl_link w) m (heap w) (disk w) (net w).
Definition set_heap (h : list bool) (w : World) : World :=
  mkWorld (trace w) (terminate w) (dl_link w) (handler_msr w) h (disk w) (net w).
Definition set_disk (d : list bool) (w : World) : World :=
  mkWorld (trace w) (terminate w) (dl_link w) (handler_msr w) (heap w) d (net w).
Definition set_net (n : list Attempt) (w : World) : World :=
  mkWorld (trace w) (terminate w) (dl_link w) (handler_msr w) (heap w) (disk w) n.

(** ** Computations in the world *)

(** A call returns, dereferences a bad pointer, or needs an answer the
    script does not hold. *)
Inductive outcome (A : Type) :=
  | Done (a : A)
  | Fault
  | Starved.
Arguments Done {A} a.
Arguments Fault {A}.
Arguments Starved {A}.

Definition M (A : Type) : Type := World -> outcome A * World.

Definition ret {A} (a : A) : M A := fun w => (Done a, w).

Definition bind {A B} (m : M A) (k : A -> M B) : M B :=
  fun w =>
    match m w with
    | (Done a, w') => k a w'
    | (Fault, w') => (Fault, w')
    | (Starved, w') => (Starved, w')
    end.

Declare Scope world_scope.
Delimit Scope world_scope with world.
Notation "x <- c1 ;; c2" := (bind c1 (fun x => c2))
  (at level 100, c1 at next level, right associativity) : world_scope.
Notation "c1 ;; c2" := (bind c1 (fun _ => c2))
  (at level 100, right associativity) : world_scope.
Local Open Scope world_scope.

Definition act (e : event) : M unit := fun w => (Done tt, emit e w).

Definition when (b : bool) (m : M unit) : M unit := if b then m else ret tt.

Fixpoint for_each {A} (f : A -> M unit) (l : list A) : M unit :=
  match l with
  | [] => ret tt
  | x :: l' => f x ;; for_each f l'
  end.

Definition ms_log (level : Z) (fmt : string) : M unit := act (EvLog level fmt).

Definition sl_log (level verb : Z) (fmt : string) : M unit := act (EvLog level fmt).

(** A call of [ms_log] whose format holds a [%s] for which no argument is
    passed: the formatting reads a pointer that was never given, which is
    undefined; the call does not return and nothing is logged. *)
Definition ms_log_unmatched (level : Z) (fmt : string) : M unit := fun w => (Fault, w).

Definition msr_print (msr : option MSRecord) (details : bool) : M unit :=
  act (EvMsrPrint msr details).

(** [fwrite(record, reclen, 1, stdout) == 1] *)
Definition fwrite (record : block) : M bool :=
  fun w =>
    match disk w with
    | [] => (Starved, w)
    | ok :: d => (Done ok, emit (EvFwrite record ok) (set_disk d w))
    end.

(** [sl_terminate(slconn)], all the signal handler does. *)
Definition term_handler (w : World) : World := set_terminate true w.

(** ** The transform and the repacking, shared by both programs

    [scale_record] is the same text in [slscale.c] and in [msscale.c]; the
    two differ in the [record_handler] the packer is given. *)

Section Scaling.
Context `{CTarget} `{Libmseed}.
Variable cfg : Config.
Variable record_handler : block -> M unit.

(** [(int) rint(alpha + beta * ((double) v))], the product rounded before
    the sum. *)
Definition scale_sample (v : Z) : Z :=
  int_of_double (rint (dadd (alpha cfg) (dmul (beta cfg) (double_of_int v)))).

(** [for (n = 0; n < msr->numsamples; n++) buf[n] = ...], with [todo]
    rounds to go from index [n].  The flag is cleared when an index falls
    outside the buffer; [n], an [int], stays below the length of the
    buffer. *)
Fixpoint scale_loop (todo n : nat) (buf : list Z) : bool * list Z :=
  match todo with
  | O => (true, buf)
  | S todo' =>
      match buf !! n with
      | Some v => scale_loop todo' (S n) (<[n := scale_sample v]> buf)
      | None => (false, buf)
      end
  end.

Definition mst_initgroup : M (option MSTraceGroup) :=
  fun w =>
    match heap w with
    | [] => (Starved, w)
    | ok :: h =>
        (Done (if ok then Some mst_newgroup else None), emit (EvInitGroup ok) (set_heap h w))
    end.

(** Lines 170 to 179 of [scale_record]: group the record, pack the group,
    release it. *)
Definition repack (r : MSRecord) : M Z :=
  mstg <- mst_initgroup ;;
  match mstg with
  | None => ret (-1)
  | Some g =>
      act (EvAddMsr r) ;;
      act EvPrintTraceList ;;
      act (EvPackGroup 512 DE_STEIM2) ;;
      let '(records, precords, psamples) :=
        mst_packgroup (mst_addmsrtogroup g r) 512 DE_STEIM2 in
      for_each record_handler records ;;
      act EvFreeGroup ;;
      ret (int_of_long psamples)
  end.

(** [scale_record(msr)]: the value returned and the record [msr] points
    to afterwards. *)
Definition scale_record (msr : option MSRecord) (w : World)
  : outcome Z * option MSRecord * World :=
  match msr with
  | None => (Fault, None, w)
  | Some r =>
      if samplecnt r <? 1 then (Done 0, Some r, w)
      else if negb (Ascii.eqb (sampletype r) "i") then (Done 0, Some r, w)
      else if is_zero (samprate r) then (Done 0, Some r, w)
      else
        let r1 :=
          match orient cfg with
          | Some o => set_channel (<[2%nat := deref_string o]> (channel r)) r
          | None => r
          end in
        let '(inside, buf) := scale_loop (Z.to_nat (numsamples r1)) 0 (datasamples r1) in
        let r2 := set_datasamples buf r1 in
        if inside then
          let '(res, w') := repack r2 w in (res, Some r2, w')
        else (Fault, Some r2, w)
  end.

Definition call_scale_record (msr : option MSRecord) : M (Z * option MSRecord) :=
  fun w =>
    match scale_record msr w with
    | (Done rv, msr', w') => (Done (rv, msr'), w')
    | (Fault, _, w') => (Fault, w')
    | (Starved, _, w') => (Starved, w')
    end.
End Scaling.

(** ** Reading the options

    Both programs read their options with [getopt_long] in a [while] over a
    [switch].  What [getopt_long] returns, call after call, is the input: the
    option character with [optarg]. *)

(** The two conversions of the C library the option loops call. *)
Class Libc := {
  atoi : string -> Z;
  atof : string -> double
}.

(** A run of the option loop: through to [EOF], or left by [exit]. *)
Inductive parsed (S : Type) :=
  | Go (s : S)
  | Exit (status : Z).
Arguments Go {S} s.
Arguments Exit {S} status.

Definition set_verbose (v : Z) (c : Config) : Config :=
  mkConfig v (orient c) (alpha c) (beta c) (datalink c) (writeack c) (statefile c) (stateint c).
Definition set_orient (o : option string) (c : Config) : Config :=
  mkConfig (verbose c) o (alpha c) (beta c) (datalink c) (writeack c) (statefile c) (stateint c).
Definition set_alpha (a : double) (c : Config) : Config :=
  mkConfig (verbose c) (orient c) a (beta c) (datalink c) (writeack c) (statefile c) (stateint c).
Definition set_beta (b : double) (c : Config) : Config :=
  mkConfig (verbose c) (orient c) (alpha c) b (datalink c) (writeack c) (statefile c) (stateint c).
Definition set_datalink (d : option string) (c : Config) : Config :=
  mkConfig (verbose c) (orient c) (alpha c) (beta c) d (writeack c) (statefile c) (stateint c).
Definition set_writeack (a : Z) (c : Config) : Config :=
  mkConfig (verbose c) (orient c) (alpha c) (beta c) (datalink c) a (statefile c) (stateint c).
Definition set_statefile (f : option string) (c : Config) : Config :=
  mkConfig (verbose c) (orient c) (alpha c) (beta c) (datalink c) (writeack c) f (stateint c).
Definition set_stateint (i : Z) (c : Config) : Config :=
  mkConfig (verbose c) (orient c) (alpha c) (beta c) (datalink c) (writeack c) (statefile c) i.

(** ** msscale: records from files to standard output *)

Module msscale.

(** What [ms_readmsr] returns. *)
Inductive ms_rc := MS_NOERROR | MS_ENDOFFILE | MS_GENERROR.

(** An input as [ms_readmsr] delivers it: the records it yields with
    [MS_NOERROR], then the code that ends the reading. *)
Record File := mkFile {
  records : list MSRecord;
  ending : ms_rc
}.

Section Program.
Context `{CTarget} `{Libmseed}.
Variable cfg : Config.

Definition record_handler (record : block) : M unit :=
  ok <- fwrite record ;;
  if ok then ret tt else ms_log 2 "error writing mseed record to stdout".

(** The inner [while] of [main]: the value of [rc] when it is left. *)
Fixpoint read_loop (recs : list MSRecord) (ending : ms_rc) : M ms_rc :=
  match recs with
  | [] => ret ending
  | r :: recs' =>
      when (1 <? verbose cfg) (msr_print (Some r) (2 <? verbose cfg)) ;;
      res <- call_scale_record cfg record_handler (Some r) ;;
      if fst res <? 0 then ret MS_NOERROR else read_loop recs' ending
  end.

Definition read_file (f : File) : M unit :=
  when (negb (verbose cfg =? 0)) (ms_log 0 "process miniseed data from %s") ;;
  rc <- read_loop (records f) (ending f) ;;
  match rc with
  | MS_ENDOFFILE => ret tt
  | _ => ms_log 2 "error reading stdin: %s"
  end.

(** [main] once the options are read: [files] are the inputs, standard
    input alone when no file is named. *)
Definition main (files : list File) : M Z :=
  when (negb (verbose cfg =? 0)) (ms_log 0 "%s") ;;
  (* ms_log (0, "scale [%s] alpha=%g beta=%g\n", alpha, beta) *)
  when (negb (verbose cfg =? 0)) (ms_log_unmatched 0 "scale [%s] alpha=%g beta=%g") ;;
  for_each read_file files ;;
  when (negb (verbose cfg =? 0)) (ms_log 0 "terminated") ;;
  ret 0.
End Program.

(** The file-scope variables as they are initialised: [verbose = 0],
    [orient = "T"], [alpha = 0.0], [beta = 1.0].  msscale has no DataLink
    destination and no state file. *)
Definition defaults : Config :=
  mkConfig 0 (Some "T"%string) (S754_zero false)
           (S754_finite false 4503599627370496 (-52)) None 0 None 0.

Section Options.
Context `{Libc}.

(** The [switch] of [main] on one value of [getopt_long]. *)
Definition option_case (rc : ascii) (optarg : string) (c : Config) : parsed Config :=
  if Ascii.eqb rc "?" then Exit (-1)
  else if Ascii.eqb rc "h" then Exit 0
  else if Ascii.eqb rc "v" then Go (set_verbose (verbose c + 1) c)
  else if Ascii.eqb rc "A" then Go (set_alpha (atof optarg) c)
  else if Ascii.eqb rc "B" then Go (set_beta (atof optarg) c)
  else if Ascii.eqb rc "O" then Go (set_orient (Some optarg) c)
  else Go c.

(** [while ((rc = getopt_long(...)) != EOF) switch (rc) { ... }] *)
Fixpoint read_options (opts : list (ascii * string)) (c : Config) : parsed Config :=
  match opts with
  | [] => Go c
  | (rc, optarg) :: opts' =>
      match option_case rc optarg c with
      | Go c' => read_options opts' c'
      | Exit status => Exit status
      end
  end.
End Options.

End msscale.

(** ** slscale: packets from a SeedLink server to a DataLink server *)

Module slscale.

(** How an iteration of the collecting loop is left, with [msr] and
    [packetcnt] as it leaves them. *)
Inductive step :=
  | Continue (msr : option MSRecord) (packetcnt : Z)
  | Break (msr : option MSRecord) (packetcnt : Z).

(** What [sl_collect] delivers until it returns 0, whether a termination
    signal is handled while it waits for the last time, and whether the
    SeedLink socket is still open then ([slconn->link != -1]). *)
Record Stream := mkStream {
  packets : list SLpacket;
  interrupted : bool;
  sl_link_open : bool
}.

Section Program.
Context `{CTarget} `{Libmseed}.
Variable cfg : Config.

Definition dl_disconnect : M unit :=
  fun w => (Done tt, emit EvDlDisconnect (set_dl_link false w)).

Definition dl_connect (ok : bool) : M unit :=
  fun w => (Done tt, emit (EvDlConnect ok) (set_dl_link ok w)).

Definition sleep (seconds : Z) : M unit := act (EvSleep seconds).

(** The body of the [while (dl_write(...) < 0)] loop after a refused write,
    and the test that ends it: the value of [slconn->terminate]. *)
Definition reconnect (link_open connect_ok signal : bool) : M bool :=
  when (negb (verbose cfg =? 0)) (ms_log 1 "re-connecting to datalink server") ;;
  (fun w => (Done tt, set_dl_link link_open w)) ;;
  when link_open dl_disconnect ;;
  dl_connect connect_ok ;;
  when (negb connect_ok)
    (ms_log 2 "error re-connecting to datalink server, sleeping 10 seconds" ;; sleep 10) ;;
  (fun w => (Done tt, if signal then term_handler w else w)) ;;
  (fun w => (Done (terminate w), w)).

(** [while (dl_write(dlconn, record, reclen, streamid, msr->starttime,
    endtime, writeack) < 0) { ... }] against the rounds [script] holds. *)
Fixpoint dl_write_loop (script : list Attempt) (record : block) (streamid : string)
    (start endtime : Z) : M unit :=
  match script with
  | [] => fun w => (Starved, set_net [] w)
  | Accepted :: script' =>
      fun w =>
        (Done tt,
         emit (EvDlWrite record streamid start endtime (writeack cfg) true) (set_net script' w))
  | Refused link_open connect_ok signal :: script' =>
      (fun w =>
         (Done tt,
          emit (EvDlWrite record streamid start endtime (writeack cfg) false)
               (set_net script' w))) ;;
      stop <- reconnect link_open connect_ok signal ;;
      if stop then ret tt else dl_write_loop script' record streamid start endtime
  end.

Definition record_handler (record : block) : M unit :=
  fun w0 =>
    (when (0 <? verbose cfg) (msr_print (handler_msr w0) (2 <? verbose cfg)) ;;
     match datalink cfg with
     | None =>
         ok <- fwrite record ;;
         if ok then ret tt else ms_log 2 "error writing mseed record to stdout"
     | Some _ =>
         let u := msr_unpack record false in
         (fun w => (Done tt, set_handler_msr (unpack_into u (handler_msr w)) w)) ;;
         match u with
         | Unpacked r =>
             let streamid := (msr_srcname r ++ "/MSEED")%string in
             let endtime := msr_endtime r in
             fun w => dl_write_loop (net w) record streamid (starttime r) endtime w
         | _ => ms_log 2 "error unpacking mseed record: %s"
         end
     end) w0.

Definition sl_savestate : M unit := act EvSaveState.

(** One iteration of [while (sl_collect(slconn, &slpack))]. *)
Definition collect_step (slpack : SLpacket) (msr : option MSRecord) (packetcnt : Z) : M step :=
  let u := msr_unpack (msrecord slpack) true in
  when (negb (unpack_ok u)) (sl_log 2 0 "error parsing record") ;;
  let msr := unpack_into u msr in
  when (1 <? verbose cfg) (msr_print msr (2 <? verbose cfg)) ;;
  res <- (if is_SLDATA (sl_packettype slpack)
          then call_scale_record cfg record_handler msr
          else ret (0, msr)) ;;
  if is_SLDATA (sl_packettype slpack) && (fst res <? 0)
  then (* msr_free(&msr); break; *) ret (Break None packetcnt)
  else
    (* msr_free(&msr); *)
    match statefile cfg with
    | Some _ =>
        if stateint cfg =? 0 then ret (Continue None packetcnt)
        else if stateint cfg <=? packetcnt + 1
             then sl_savestate ;; ret (Continue None 0)
             else ret (Continue None (packetcnt + 1))
    | None => ret (Continue None packetcnt)
    end.

Fixpoint collect_loop (pkts : list SLpacket) (msr : option MSRecord) (packetcnt : Z) : M step :=
  match pkts with
  | [] => ret (Continue msr packetcnt)
  | slpack :: pkts' =>
      s <- collect_step slpack msr packetcnt ;;
      match s with
      | Continue msr' packetcnt' => collect_loop pkts' msr' packetcnt'
      | Break _ _ => ret s
      end
  end.

(** The lines of [main] after the loop. *)
Definition closing (sl_open : bool) : M Z :=
  when (negb (verbose cfg =? 0)) (ms_log 0 "stopping") ;;
  (fun w =>
     match statefile cfg with
     | Some _ => if terminate w then sl_savestate w else (Done tt, w)
     | None => (Done tt, w)
     end) ;;
  when sl_open (act EvSlDisconnect) ;;
  (fun w =>
     match datalink cfg with
     | Some _ => if dl_link w then dl_disconnect w else (Done tt, w)
     | None => (Done tt, w)
     end) ;;
  when (negb (verbose cfg =? 0)) (ms_log 0 "terminated") ;;
  ret 0.

(** [main] from the collecting loop on. *)
Definition main (s : Stream) : M Z :=
  left <- collect_loop (packets s) None 0 ;;
  (fun w =>
     (Done tt,
      match left with
      | Continue _ _ => if interrupted s then term_handler w else w
      | Break _ _ => w
      end)) ;;
  closing (sl_link_open s).
End Program.

(** The variables the options of slscale reach: the file-scope ones the
    processing reads ([globals]), the other file-scope ones, and three
    fields of [slconn]. *)
Record Settings := mkSettings {
  globals : Config;
  id : string;
  seedlink : string;
  multiselect : option string;
  selectors : string;
  streamfile : option string;
  netdly : Z;
  netto : Z;
  keepalive : Z
}.

Definition set_globals (c : Config) (s : Settings) : Settings :=
  mkSettings c (id s) (seedlink s) (multiselect s) (selectors s) (streamfile s)
             (netdly s) (netto s) (keepalive s).

(** The variables as they are initialised; [slconn] comes from
    [sl_newslcd()] with its own delay, timeout and heartbeat. *)
Definition defaults (delay timeout heartbeat : Z) : Settings :=
  mkSettings
    (mkConfig 0 (Some "T"%string) (S754_zero false)
              (S754_finite false 5629499534213120 (-49)) None 0 None 300)
    "slscale" ":18000" None "?TH" None delay timeout heartbeat.

Section Options.
Context `{Libc}.

(** The [switch] of [main] on one value of [getopt_long]. *)
Definition option_case (rc : ascii) (optarg : string) (s : Settings) : parsed Settings :=
  let c := globals s in
  if Ascii.eqb rc "?" then Exit (-1)
  else if Ascii.eqb rc "h" then Exit 0
  else if Ascii.eqb rc "v" then Go (set_globals (set_verbose (verbose c + 1) c) s)
  else if Ascii.eqb rc "w" then Go (set_globals (set_writeack (writeack c + 1) c) s)
  else if Ascii.eqb rc "i" then
    Go (mkSettings c optarg (seedlink s) (multiselect s) (selectors s) (streamfile s)
                   (netdly s) (netto s) (keepalive s))
  else if Ascii.eqb rc "d" then
    Go (mkSettings c (id s) (seedlink s) (multiselect s) (selectors s) (streamfile s)
                   (atoi optarg) (netto s) (keepalive s))
  else if Ascii.eqb rc "t" then
    Go (mkSettings c (id s) (seedlink s) (multiselect s) (selectors s) (streamfile s)
                   (netdly s) (atoi optarg) (keepalive s))
  else if Ascii.eqb rc "k" then
    Go (mkSettings c (id s) (seedlink s) (multiselect s) (selectors s) (streamfile s)
                   (netdly s) (netto s) (atoi optarg))
  else if Ascii.eqb rc "l" then
    Go (mkSettings c (id s) (seedlink s) (multiselect s) (selectors s) (Some optarg)
                   (netdly s) (netto s) (keepalive s))
  else if Ascii.eqb rc "s" then
    Go (mkSettings c (id s) (seedlink s) (multiselect s) optarg (streamfile s)
                   (netdly s) (netto s) (keepalive s))
  else if Ascii.eqb rc "S" then
    Go (mkSettings c (id s) (seedlink s) (Some optarg) (selectors s) (streamfile s)
                   (netdly s) (netto s) (keepalive s))
  else if Ascii.eqb rc "x" then Go (set_globals (set_statefile (Some optarg) c) s)
  else if Ascii.eqb rc "u" then Go (set_globals (set_stateint (atoi optarg) c) s)
  else if Ascii.eqb rc "A" then Go (set_globals (set_alpha (atof optarg) c) s)
  else if Ascii.eqb rc "B" then Go (set_globals (set_beta (atof optarg) c) s)
  else if Ascii.eqb rc "O" then Go (set_globals (set_orient (Some optarg) c) s)
  else Go s.

(** [while ((rc = getopt_long(...)) != EOF) switch (rc) { ... }] *)
Fixpoint read_options (opts : list (ascii * string)) (s : Settings) : parsed Settings :=
  match opts with
  | [] => Go s
  | (rc, optarg) :: opts' =>
      match option_case rc optarg s with
      | Go s' => read_options opts' s'
      | Exit status => Exit status
      end
  end.
End Options.

(** "who to connect to": the first argument left after the options replaces
    the SeedLink address, the second is the DataLink address. *)
Definition positional (args : list string) (s : Settings) : Settings :=
  let seedlink' := match args with a :: _ => a | [] => seedlink s end in
  let datalink' := match args with _ :: b :: _ => Some b | _ => datalink (globals s) end in
  mkSettings (set_datalink datalink' (globals s)) (id s) seedlink' (multiselect s)
             (selectors s) (streamfile s) (netdly s) (netto s) (keepalive s).





End slscale.

(** ** Vocabulary of the statements *)

(** A record the transform goes through with: none of the three guards of
    [scale_record] sends it back. *)
Definition eligible (r : MSRecord) : bool :=
  negb (samplecnt r <? 1) && Ascii.eqb (sampletype r) "i" && negb (is_zero (samprate r)).

(** The buffer holds a C [int] in every slot. *)
Definition int_samples (r : MSRecord) : Prop :=
  Forall (fun v => INT_MIN <= v <= INT_MAX) (datasamples r).

(** The record after the orientation character is written. *)
Definition reoriented (cfg : Config) (r : MSRecord) : MSRecord :=
  match orient cfg with
  | Some o => set_channel (<[2%nat := deref_string o]> (channel r)) r
  | None => r
  end.

(** The double 1.0. *)
Definition one : double := S754_finite false 4503599627370496 (-52).

(** The double 0.5. *)
Definition half : double := S754_finite false 4503599627370496 (-53).

(** [p] followed by [k] zero bits. *)
Definition shl (p : positive) (k : nat) : positive := Nat.iter k xO p.

(** The double whose value is the integer [cond_Zopp s (Zpos p)]. *)
Definition int_double (s : bool) (p : positive) : double :=
  S754_finite s (shl p (Z.to_nat (53 - Zpos (digits2_pos p)))) (Zpos (digits2_pos p) - 53).

(** How many events of a kind a trace holds. *)
Definition count (kind : event -> bool) (evs : list event) : nat :=
  length (List.filter kind evs).

Definition is_save (e : event) : bool :=
  match e with EvSaveState => true | _ => false end.

(** How many times the state file has been written. *)
Definition saves (w : World) : nat := count is_save (trace w).

Definition is_pack (e : event) : bool :=
  match e with EvPackGroup _ _ => true | _ => false end.

(** How many times a trace group has been packed. *)
Definition packs (w : World) : nat := count is_pack (trace w).

(** A write the DataLink server accepted. *)
Definition is_delivery (e : event) : bool :=
  match e with EvDlWrite _ _ _ _ _ true => true | _ => false end.

(** Something reached standard output, or was meant to. *)
Definition is_fwrite (e : event) : bool :=
  match e with EvFwrite _ _ => true | _ => false end.

(** A refused round during which no termination signal arrives. *)
Definition quiet (a : Attempt) : Prop :=
  match a with Refused _ _ false => True | _ => False end.

(** What one evaluation of the loop condition, and the round after a
    refusal, send out. *)
Definition round_events (cfg : Config) (record : block) (streamid : string)
    (start endtime : Z) (a : Attempt) : list event :=
  match a with
  | Accepted => [EvDlWrite record streamid start endtime (writeack cfg) true]
  | Refused link_open connect_ok _ =>
      [EvDlWrite record streamid start endtime (writeack cfg) false]
      ++ (if verbose cfg =? 0 then [] else [EvLog 1 "re-connecting to datalink server"])
      ++ (if link_open then [EvDlDisconnect] else [])
      ++ [EvDlConnect connect_ok]
      ++ (if connect_ok then []
          else [EvLog 2 "error re-connecting to datalink server, sleeping 10 seconds";
                EvSleep 10])
  end.

(** What a sequence of such evaluations sends out. *)
Definition rounds_of (cfg : Config) (record : block) (streamid : string)
    (start endtime : Z) (script : list Attempt) : list event :=
  concat (map (round_events cfg record streamid start endtime) script).

(** The records the packer makes of a fresh group holding [r]. *)
Definition packed_records `{Libmseed} (r : MSRecord) : list block :=
  (mst_packgroup (mst_addmsrtogroup mst_newgroup r) 512 DE_STEIM2).1.1.

(** The count the packer reports for a fresh group holding [r]. *)
Definition packed_samples `{Libmseed} (r : MSRecord) : Z :=
  (mst_packgroup (mst_addmsrtogroup mst_newgroup r) 512 DE_STEIM2).2.

(** A computation that sends out no event of a kind. *)
Definition silent {A} (kind : event -> bool) (m : M A) : Prop :=
  forall w, count kind (trace (m w).2) = count kind (trace w).

(** How many of the packets are data packets. *)
Definition data_packets (pkts : list SLpacket) : nat :=
  length (List.filter (fun p => is_SLDATA (sl_packettype p)) pkts).

(** The record an eligible record becomes when its buffer holds
    [numsamples] samples. *)
Definition transformed `{CTarget} (cfg : Config) (r : MSRecord) : MSRecord :=
  set_datasamples (map (scale_sample cfg) (datasamples r)) (reoriented cfg r).

(** What writing [records] to standard output sends out when the writes
    are answered by [answers]: a failed write is followed by its complaint. *)
Definition fwrite_events (records : list block) (answers : list bool) : list event :=
  concat (zip_with
            (fun record ok =>
               EvFwrite record ok
               :: (if ok then [] else [EvLog 2 "error writing mseed record to stdout"]))
            records answers).

(** The records that reached standard output, in order. *)
Definition stdout_of (evs : list event) : list block :=
  concat (map (fun e => match e with EvFwrite record true => [record] | _ => [] end) evs).

(** What msscale makes of a record: the allocation it asks for and the
    records it packs, none of either for a record that is not eligible. *)
Definition output_of `{CTarget} `{Libmseed} (cfg : Config) (r : MSRecord) : list block :=
  if eligible r then packed_records (transformed cfg r) else [].

(** A record the reading loop of msscale gets through: not eligible, or
    with a buffer of [numsamples] samples and a packed count that is an
    [int]. *)
Definition passable `{CTarget} `{Libmseed} (cfg : Config) (r : MSRecord) : Prop :=
  eligible r = true ->
  numsamples r = Z.of_nat (length (datasamples r))
  /\ 0 <= packed_samples (transformed cfg r) <= INT_MAX.

(** A data packet whose record goes through the guards of [scale_record]. *)
Definition scalable `{Libmseed} (slpack : SLpacket) : bool :=
  is_SLDATA (sl_packettype slpack)
  && match unpack_into (msr_unpack (msrecord slpack) true) None with
     | Some r => eligible r
     | None => false
     end.

(** An event a record handler can send out. *)
Definition from_handler (e : event) : bool :=
  match e with
  | EvLog _ _ | EvMsrPrint _ _ | EvFwrite _ _ | EvDlWrite _ _ _ _ _ _
  | EvDlDisconnect | EvDlConnect _ | EvSleep _ => true
  | _ => false
  end.

Definition is_dl_write (e : event) : bool :=
  match e with EvDlWrite _ _ _ _ _ _ => true | _ => false end.

Definition is_accepted (a : Attempt) : bool :=
  match a with Accepted => true | Refused _ _ _ => false end.

(** How often an option character occurs among the values of
    [getopt_long]. *)
Definition occurrences (c : ascii) (opts : list (ascii * string)) : Z :=
  Z.of_nat (length (List.filter (fun o => Ascii.eqb (fst o) c) opts)).

(** The argument of the last occurrence of an option character. *)
Definition last_argument (c : ascii) (opts : list (ascii * string)) : option string :=
  fold_left (fun acc o => if Ascii.eqb (fst o) c then Some (snd o) else acc) opts None.

(** Neither ['?'] nor ['h'] among the values of [getopt_long]. *)
Definition no_exit (opts : list (ascii * string)) : bool :=
  forallb (fun o => negb (Ascii.eqb (fst o) "?") && negb (Ascii.eqb (fst o) "h")) opts.

(** The records [msr_print] was called on, in order. *)
Definition printed (evs : list event) : list (option MSRecord) :=
  concat (map (fun e => match e with EvMsrPrint msr _ => [msr] | _ => [] end) evs).

(** The records a trace holds, as [pick] reads them off its events. *)
Definition picked (pick : event -> list block) (evs : list event) : list block :=
  concat (map pick evs).

(** A record standard output took. *)
Definition written (e : event) : list block :=
  match e with EvFwrite record true => [record] | _ => [] end.


(** The record [msr] points to when the collecting loop, entered with a
    null [msr], has unpacked a packet. *)
Definition packet_record `{Libmseed} (slpack : SLpacket) : option MSRecord :=
  unpack_into (msr_unpack (msrecord slpack) true) None.

(** What slscale makes of a packet: of a data packet what [scale_record]
    packs, of any other packet nothing. *)
Definition packet_output `{CTarget} `{Libmseed} (cfg : Config) (slpack : SLpacket)
  : list block :=
  if is_SLDATA (sl_packettype slpack) then
    match packet_record slpack with
    | Some r => output_of cfg r
    | None => []
    end
  else [].

(** A packet the collecting loop gets through: not a data packet, or one
    that leaves a record in [msr], and that record passable. *)
Definition collectable `{CTarget} `{Libmseed} (cfg : Config) (slpack : SLpacket) : Prop :=
  is_SLDATA (sl_packettype slpack) = true ->
  exists r, packet_record slpack = Some r /\ passable cfg r.

(** ** A target and a codec to run the programs on *)

Module demo.

(** The conversion as [cvttsd2si] does it on x86-64. *)
Definition target : CTarget := {| int_of_unrepresentable := fun _ => INT_MIN |}.

Definition byte_of_sample (v : Z) : Byte.byte :=
  match Byte.of_N (Z.to_N (v mod 256)) with
  | Some b => b
  | None => Byte.x00
  end.

Definition sample_of_byte (b : Byte.byte) : Z := Z.of_N (Byte.to_N b).

(** One output record per input record, a byte per sample. *)
Definition encode (r : MSRecord) : block := map byte_of_sample (datasamples r).

Definition header : list ascii :=
  ["H"; "H"; "Z"; zero; zero; zero; zero; zero; zero; zero; zero]%char.

Definition decode (b : block) (dataflag : bool) : unpack_result :=
  match b with
  | [] => Rejected
  | _ =>
      Unpacked (mkMSRecord header 0 one (Z.of_nat (length b)) "i"
                           (if dataflag then Z.of_nat (length b) else 0)
                           (if dataflag then map sample_of_byte b else []))
  end.

Definition codec : Libmseed := {|
  MSTraceGroup := list MSRecord;
  mst_newgroup := [];
  mst_addmsrtogroup := fun g r => g ++ [r];
  mst_packgroup := fun g _ _ =>
    (map encode g, Z.of_nat (length g),
     fold_right Z.add 0 (map (fun r => Z.of_nat (length (datasamples r))) g));
  msr_unpack := decode;
  msr_srcname := fun _ => "NZ_WEL_10_HHZ"%string;
  msr_endtime := fun r => starttime r + numsamples r
|}.

(** The same codec with an [msr_unpack] that can fail late: a block that
    starts with [0xff] has its header and samples filled in and an error
    returned. *)
Definition decode_fragile (b : block) (dataflag : bool) : unpack_result :=
  match b with
  | Byte.xff :: b' =>
      match decode b' dataflag with
      | Unpacked r => Garbled r
      | u => u
      end
  | _ => decode b dataflag
  end.

Definition fragile : Libmseed := {|
  MSTraceGroup := list MSRecord;
  mst_newgroup := [];
  mst_addmsrtogroup := fun g r => g ++ [r];
  mst_packgroup := fun g _ _ =>
    (map encode g, Z.of_nat (length g),
     fold_right Z.add 0 (map (fun r => Z.of_nat (length (datasamples r))) g));
  msr_unpack := decode_fragile;
  msr_srcname := fun _ => "NZ_WEL_10_HHZ"%string;
  msr_endtime := fun r => starttime r + numsamples r
|}.

Definition ten : double := double_of_int 10.
Definition two : double := double_of_int 2.
Definition config (a b : double) (dl sf : option string) (si : Z) : Config :=
  mkConfig 0 (Some "T"%string) a b dl 0 sf si.

Definition int_record (samples : list Z) : MSRecord :=
  mkMSRecord header 0 one (Z.of_nat (length samples)) "i" (Z.of_nat (length samples)) samples.

(** A record of floats: the buffer holds their bit patterns. *)
Definition float_record : MSRecord :=
  mkMSRecord header 0 one 3 "f" 3 [1065353216; 1073741824; 1077936128].

Definition world (h d : list bool) (n : list Attempt) : World :=
  mkWorld [] false true None h d n.

Definition data_packet (samples : list Z) : SLpacket :=
  mkSLpacket (map byte_of_sample samples) SLDATA.

Definition info_packet : SLpacket := mkSLpacket [Byte.x01] SLINF.

(** A data packet the fragile [msr_unpack] fails on after it has filled in
    the record. *)
Definition garbled_packet (samples : list Z) : SLpacket :=
  mkSLpacket (Byte.xff :: map byte_of_sample samples) SLDATA.

(** A data packet [msr_unpack] rejects outright. *)
Definition bad_packet : SLpacket := mkSLpacket [] SLDATA.

(** The conversions of the C library on whole numbers written in decimal. *)
Fixpoint decimal (s : string) (acc : Z) : Z :=
  match s with
  | String c s' =>
      let n := Z.of_N (N_of_ascii c) - 48 in
      if (0 <=? n) && (n <=? 9) then decimal s' (10 * acc + n) else acc
  | EmptyString => acc
  end.

Definition libc : Libc := {|
  atoi := fun s =>
    match s with
    | String "-" s' => - decimal s' 0
    | _ => decimal s 0
    end;
  atof := fun s =>
    double_of_int
      match s with
      | String "-" s' => - decimal s' 0
      | _ => decimal s 0
      end
|}.

(** What [getopt_long] returns for an option with and without argument. *)
Definition opt (c : ascii) (arg : string) : ascii * string := (c, arg).
Definition flag (c : ascii) : ascii * string := (c, EmptyString).

End demo.

(** * Properties *)

(** ** Binary64 facts behind the identity rescale *)

Section Binary64.

Lemma iter_pos_nat {A} (f : A -> A) (p : positive) (x : A) :
  SpecFloat.iter_pos f p x = Nat.iter (Pos.to_nat p) f x.
Proof.
  revert x. induction p as [p IH | p IH |]; intros x; cbn [SpecFloat.iter_pos].
  - rewrite !IH, Pos2Nat.inj_xI.
    replace (S (2 * Pos.to_nat p)) with (Pos.to_nat p + S (Pos.to_nat p))%nat by lia.
    rewrite Nat.iter_add, Nat.iter_succ_r. reflexivity.
  - rewrite !IH, Pos2Nat.inj_xO.
    replace (2 * Pos.to_nat p)%nat with (Pos.to_nat p + Pos.to_nat p)%nat by lia.
    rewrite Nat.iter_add. reflexivity.
  - reflexivity.
Qed.

Lemma pos_iter_shl p q : Pos.iter xO p q = shl p (Pos.to_nat q).
Proof. apply Pos2Nat.inj_iter. Qed.

Lemma digits_shl p k : Zpos (digits2_pos (shl p k)) = Zpos (digits2_pos p) + Z.of_nat k.
Proof.
  induction k as [|k IH]; [simpl; lia|].
  unfold shl in *. rewrite Nat.iter_succ. cbn [digits2_pos].
  rewrite Pos2Z.inj_succ, IH. lia.
Qed.

Lemma value_shl p k : Zpos (shl p k) = Zpos p * 2 ^ Z.of_nat k.
Proof.
  induction k as [|k IH]; [simpl; lia|].
  unfold shl in *. rewrite Nat.iter_succ, Pos2Z.inj_xO, IH.
  rewrite Nat2Z.inj_succ, Z.pow_succ_r by lia. lia.
Qed.

(** Shifting out the zero bits that were shifted in loses nothing. *)
Lemma shr_shl p k :
  Nat.iter k shr_1 (Build_shr_record (Zpos (shl p k)) false false)
  = Build_shr_record (Zpos p) false false.
Proof.
  induction k as [|k IH]; [reflexivity|].
  rewrite Nat.iter_succ_r. exact IH.
Qed.

Lemma digits2_pos_bounds p :
  2 ^ (Zpos (digits2_pos p) - 1) <= Zpos p < 2 ^ Zpos (digits2_pos p).
Proof.
  induction p as [p IH | p IH |]; cbn [digits2_pos]; [| |simpl; lia];
    rewrite Pos2Z.inj_succ;
    replace (Z.succ (Zpos (digits2_pos p)) - 1) with (Z.succ (Zpos (digits2_pos p) - 1)) by lia;
    rewrite !Z.pow_succ_r by lia; lia.
Qed.

Lemma digits2_pos_le p n : 0 <= n -> Zpos p < 2 ^ n -> Zpos (digits2_pos p) <= n.
Proof.
  intros Hn Hp. destruct (Z_le_gt_dec (Zpos (digits2_pos p)) n) as [|Hgt]; [assumption|].
  pose proof (digits2_pos_bounds p) as [Hlo _].
  assert (2 ^ n <= 2 ^ (Zpos (digits2_pos p) - 1)) by (apply Z.pow_le_mono_r; lia).
  lia.
Qed.

(** A mantissa already in canonical position is rounded to itself. *)
Lemma binary_round_aux_canonical s m e :
  canonical_mantissa dprec demax m e = true -> e <= demax - dprec ->
  binary_round_aux dprec demax s (Zpos m) e loc_Exact = S754_finite s m e.
Proof.
  unfold canonical_mantissa. intros Hc He. apply Z.eqb_eq in Hc.
  unfold binary_round_aux, shr_fexp. cbn [Zdigits2 shr_record_of_loc].
  rewrite Hc, Z.sub_diag. cbn [shr shr_m loc_of_shr_record round_nearest_even Zdigits2].
  rewrite Hc, Z.sub_diag. cbn [shr shr_m].
  apply Z.leb_le in He. rewrite He. reflexivity.
Qed.

(** Integers of at most 53 bits convert exactly. *)
Lemma double_of_pos s p :
  Zpos (digits2_pos p) <= 53 -> binary_round dprec demax s p 0 = int_double s p.
Proof.
  intros Hd. unfold binary_round, shl_align, int_double.
  assert (Hf : fexp dprec demax (Zpos (digits2_pos p) + 0) = Zpos (digits2_pos p) - 53).
  { unfold fexp, emin, dprec, demax. lia. }
  rewrite Hf.
  assert (Hc : forall k, Z.of_nat k = 53 - Zpos (digits2_pos p) ->
               canonical_mantissa dprec demax (shl p k) (Zpos (digits2_pos p) - 53) = true).
  { intros k Hk. unfold canonical_mantissa. rewrite digits_shl. apply Z.eqb_eq.
    unfold fexp, emin, dprec, demax. lia. }
  remember (Zpos (digits2_pos p)) as d eqn:Ed.
  destruct (d - 53 - 0) as [|q|q] eqn:E; [| lia |].
  - assert (E53 : d = 53) by lia. specialize (Hc 0%nat). rewrite E53 in *.
    change (shl p (Z.to_nat (53 - 53))) with p. change (53 - 53) with 0 in *.
    apply binary_round_aux_canonical; [apply Hc; reflexivity | unfold demax, dprec; lia].
  - rewrite pos_iter_shl.
    replace (Z.to_nat (53 - d)) with (Pos.to_nat q) by lia.
    apply binary_round_aux_canonical; [apply Hc; lia | unfold demax, dprec; lia].
Qed.



Lemma rint_int_double s p :
  Zpos (digits2_pos p) <= 53 -> rint (int_double s p) = int_double s p.
Proof.
  intros Hd. rewrite <- (double_of_pos s p Hd) at 2. unfold int_double, rint.
  destruct (Zpos (digits2_pos p) - 53) as [|q|q] eqn:E.
  - symmetry. rewrite double_of_pos by assumption. unfold int_double. rewrite E. reflexivity.
  - lia.
  - cbn [shr shr_record_of_loc fst]. rewrite iter_pos_nat.
    replace (Z.to_nat (53 - Zpos (digits2_pos p))) with (Pos.to_nat q) by lia.
    rewrite shr_shl. cbn [shr_m loc_of_shr_record round_nearest_even].
    destruct s; reflexivity.
Qed.

Lemma trunc_int_double s p :
  Zpos (digits2_pos p) <= 53 -> trunc_double (int_double s p) = Some (cond_Zopp s (Zpos p)).
Proof.
  intros Hd. unfold int_double, trunc_double. f_equal. f_equal.
  rewrite value_shl, Z2Nat.id by lia.
  rewrite <- Z.shiftr_opp_r, Z.shiftr_div_pow2 by lia.
  replace (- (Zpos (digits2_pos p) - 53)) with (53 - Zpos (digits2_pos p)) by lia.
  apply Z.div_mul. apply Z.pow_nonzero; lia.
Qed.

(** One right shift of a non-negative mantissa, in numbers. *)
Lemma shr_1_spec m r s :
  0 <= m -> shr_1 (Build_shr_record m r s) = Build_shr_record (m / 2) (Z.odd m) (r || s).
Proof.
  intros Hm. destruct m as [|[p|p|]|p]; try lia; cbn [shr_1 Z.odd]; f_equal.
  - rewrite Pos2Z.inj_xI. apply Z.div_unique with 1; lia.
  - rewrite Pos2Z.inj_xO. apply Z.div_unique with 0; lia.
Qed.

(** After [k] shifts: what is left, the bit shifted out last, and whether
    anything was shifted out before it. *)
Lemma shr_iter_spec m k :
  0 <= m ->
  exists M r s low,
    Nat.iter (S k) shr_1 (Build_shr_record m false false) = Build_shr_record M r s
    /\ 0 <= M /\ 0 <= low < 2 ^ Z.of_nat k
    /\ m = M * 2 ^ Z.of_nat (S k) + (if r then 2 ^ Z.of_nat k else 0) + low
    /\ (s = false <-> low = 0).
Proof.
  intros Hm. induction k as [|k (M & r & s & low & Hit & HM & Hlow & Hval & Hs)].
  - exists (m / 2), (Z.odd m), false, 0. cbn [Nat.iter]. rewrite shr_1_spec by assumption.
    split; [reflexivity|]. split; [apply Z.div_pos; lia|]. split; [cbn; lia|].
    split; [|tauto]. change (2 ^ Z.of_nat 0) with 1. change (2 ^ Z.of_nat 1) with 2.
    pose proof (Z.div_mod m 2 ltac:(lia)) as Hdm. rewrite Zmod_odd in Hdm.
    destruct (Z.odd m); lia.
  - exists (M / 2), (Z.odd M), (r || s), ((if r then 2 ^ Z.of_nat k else 0) + low).
    rewrite Nat.iter_succ, Hit, shr_1_spec by assumption.
    assert (Hp : 0 < 2 ^ Z.of_nat k) by (apply Z.pow_pos_nonneg; lia).
    assert (H2 : 2 ^ Z.of_nat (S k) = 2 * 2 ^ Z.of_nat k)
      by (rewrite Nat2Z.inj_succ, Z.pow_succ_r; lia).
    assert (H3 : 2 ^ Z.of_nat (S (S k)) = 2 * 2 ^ Z.of_nat (S k))
      by (rewrite (Nat2Z.inj_succ (S k)), Z.pow_succ_r; lia).
    split; [reflexivity|]. split; [apply Z.div_pos; lia|].
    pose proof (Z.div_mod M 2 ltac:(lia)) as Hdm. rewrite Zmod_odd in Hdm.
    rewrite H3, H2 in *.
    split; [destruct r; lia|]. split.
    + destruct (Z.odd M), r; nia.
    + destruct r, s; cbn [orb]; split; intros Hx; try discriminate Hx; try lia;
        try reflexivity.
Qed.

Lemma round_nearest_even_spec m q :
  exists n,
    round_nearest_even
      (shr_m (fst (shr (shr_record_of_loc (Zpos m) loc_Exact) (Zneg q) (Zpos q))))
      (loc_of_shr_record (fst (shr (shr_record_of_loc (Zpos m) loc_Exact) (Zneg q) (Zpos q))))
    = n
    /\ 0 <= n <= Zpos m / 2 + 1
    /\ Z.abs (n * 2 ^ Zpos q - Zpos m) <= 2 ^ (Zpos q - 1)
    /\ (Z.abs (n * 2 ^ Zpos q - Zpos m) = 2 ^ (Zpos q - 1) -> Z.even n = true).
Proof.
  cbn [shr shr_record_of_loc fst]. rewrite iter_pos_nat.
  destruct (Pos2Nat.is_succ q) as [k Hk]. rewrite Hk.
  destruct (shr_iter_spec (Zpos m) k ltac:(lia)) as (M & r & s & low & -> & HM & Hlow & Hval & Hs).
  assert (Hq : Zpos q = Z.of_nat (S k)) by lia.
  rewrite Hq. replace (Z.of_nat (S k) - 1) with (Z.of_nat k) by lia.
  assert (Hp : 0 < 2 ^ Z.of_nat k) by (apply Z.pow_pos_nonneg; lia).
  assert (H2 : 2 ^ Z.of_nat (S k) = 2 * 2 ^ Z.of_nat k)
    by (rewrite Nat2Z.inj_succ, Z.pow_succ_r; lia).
  rewrite H2 in *. cbn [shr_m loc_of_shr_record].
  assert (Hhalf : M <= Zpos m / 2).
  { apply Z.div_le_lower_bound; [lia|]. destruct r; nia. }
  assert (Hup : r = true \/ s = true -> M + 1 <= Zpos m / 2 + 1) by lia.
  eexists. split; [reflexivity|].
  destruct r, s; cbn [round_nearest_even].
  - assert (low <> 0) by (intros E; apply Hs in E; discriminate).
    split; [lia|]. split; [nia|]. intros Habs. exfalso. nia.
  - assert (low = 0) by (apply Hs; reflexivity). subst low.
    destruct (Z.even M) eqn:Ev.
    + split; [lia|]. split; [nia|]. intros _. exact Ev.
    + split; [lia|]. split; [nia|]. intros _. rewrite Z.even_add, Ev. reflexivity.
  - assert (low <> 0) by (intros E; apply Hs in E; discriminate).
    split; [lia|]. split; [nia|]. intros Habs. exfalso. nia.
  - assert (low = 0) by (apply Hs; reflexivity). subst low.
    split; [lia|]. split; [nia|]. intros Habs. exfalso. nia.
Qed.

(** [rint] of a finite double that is not yet an integer: the nearest
    integer, the even one of the two when they are equally near. *)
Lemma rint_nearest_even s m q :
  Zpos (digits2_pos m) <= 53 ->
  exists n,
    trunc_double (rint (S754_finite s m (Zneg q))) = Some (cond_Zopp s n)
    /\ 0 <= n
    /\ Z.abs (n * 2 ^ Zpos q - Zpos m) <= 2 ^ (Zpos q - 1)
    /\ (Z.abs (n * 2 ^ Zpos q - Zpos m) = 2 ^ (Zpos q - 1) -> Z.even n = true).
Proof.
  intros Hd. destruct (round_nearest_even_spec m q) as (n & Hn & Hr & Hnear & Htie).
  exists n. split; [|split; [lia|split; assumption]].
  unfold rint. rewrite Hn. destruct n as [|p|p]; [destruct s; reflexivity| |lia].
  assert (Hp : Zpos (digits2_pos p) <= 53).
  { apply digits2_pos_le; [lia|].
    pose proof (digits2_pos_bounds m) as [_ Hm].
    assert (Zpos m < 2 ^ 53).
    { eapply Z.lt_le_trans; [exact Hm|]. apply Z.pow_le_mono_r; lia. }
    assert (Zpos m / 2 < 2 ^ 52) by (apply Z.div_lt_upper_bound; lia).
    lia. }
  destruct s; unfold cond_Zopp, Z.opp, binary_normalize;
    rewrite double_of_pos by assumption; apply trunc_int_double; assumption.
Qed.

Context `{CTarget}.



End Binary64.

(** ** The sample loop *)

Section Transform.
Context `{CTarget} `{Libmseed}.
Variable cfg : Config.

Lemma scale_loop_length todo n buf :
  length (scale_loop cfg todo n buf).2 = length buf.
Proof.
  revert n buf. induction todo as [|todo IH]; intros n buf; cbn [scale_loop]; [reflexivity|].
  destruct (buf !! n) as [v|]; [|reflexivity].
  rewrite IH. apply length_insert.
Qed.

Lemma scale_loop_inside todo n buf :
  (n + todo <= length buf)%nat -> (scale_loop cfg todo n buf).1 = true.
Proof.
  revert n buf. induction todo as [|todo IH]; intros n buf Hlen; cbn [scale_loop]; [reflexivity|].
  destruct (lookup_lt_is_Some_2 buf n ltac:(lia)) as [v ->].
  apply IH. rewrite length_insert. lia.
Qed.

Lemma scale_loop_outside todo n buf :
  (length buf < n + todo)%nat -> (n <= length buf)%nat -> (scale_loop cfg todo n buf).1 = false.
Proof.
  revert n buf. induction todo as [|todo IH]; intros n buf Hlen Hn; cbn [scale_loop]; [lia|].
  destruct (buf !! n) as [v|] eqn:E; [|reflexivity].
  apply lookup_lt_Some in E.
  apply IH; rewrite length_insert; lia.
Qed.

(** Slot [i] is rewritten when the loop passes over it, and only then;
    what it receives depends on what it held, not on [i]. *)
Lemma scale_loop_lookup todo n buf i :
  (n + todo <= length buf)%nat ->
  (scale_loop cfg todo n buf).2 !! i =
    if decide (n <= i < n + todo)%nat then scale_sample cfg <$> buf !! i else buf !! i.
Proof.
  revert n buf. induction todo as [|todo IH]; intros n buf Hlen; cbn [scale_loop].
  - destruct (decide _); [lia | reflexivity].
  - destruct (lookup_lt_is_Some_2 buf n ltac:(lia)) as [v Hv]. rewrite Hv.
    rewrite IH by (rewrite length_insert; lia).
    destruct (decide (i = n)) as [->|Hne].
    + rewrite list_lookup_insert_eq by lia.
      destruct (decide (S n <= n < S n + todo)%nat); [lia|].
      destruct (decide (n <= n < n + S todo)%nat); [|lia].
      rewrite Hv. reflexivity.
    + rewrite list_lookup_insert_ne by congruence.
      destruct (decide (S n <= i < S n + todo)%nat), (decide (n <= i < n + S todo)%nat);
        try lia; reflexivity.
Qed.

Lemma scale_loop_all buf :
  scale_loop cfg (length buf) 0 buf = (true, map (scale_sample cfg) buf).
Proof.
  rewrite (surjective_pairing (scale_loop cfg (length buf) 0 buf)). f_equal.
  - apply scale_loop_inside. lia.
  - apply list_eq. intros i. rewrite scale_loop_lookup by lia.
    rewrite list_lookup_fmap.
    destruct (decide (0 <= i < 0 + length buf)%nat) as [|Hout]; [reflexivity|].
    rewrite lookup_ge_None_2 by lia. reflexivity.
Qed.

(** ** [scale_record] guard by guard *)

Variable record_handler : block -> M unit.

Lemma eligible_guards r :
  eligible r = true <->
  (samplecnt r <? 1) = false /\ Ascii.eqb (sampletype r) "i" = true
  /\ is_zero (samprate r) = false.
Proof.
  unfold eligible. rewrite !andb_true_iff, !negb_true_iff. tauto.
Qed.

Lemma scale_record_ineligible r w :
  eligible r = false -> scale_record cfg record_handler (Some r) w = (Done 0, Some r, w).
Proof.
  unfold eligible, scale_record. intros He.
  destruct (samplecnt r <? 1); [reflexivity|].
  destruct (Ascii.eqb (sampletype r) "i"); [|reflexivity].
  destruct (is_zero (samprate r)); [reflexivity|discriminate He].
Qed.

Lemma scale_record_eligible r w :
  eligible r = true ->
  scale_record cfg record_handler (Some r) w =
    let r1 := reoriented cfg r in
    let '(inside, buf) := scale_loop cfg (Z.to_nat (numsamples r1)) 0 (datasamples r1) in
    let r2 := set_datasamples buf r1 in
    if inside then let '(res, w') := repack record_handler r2 w in (res, Some r2, w')
    else (Fault, Some r2, w).
Proof.
  intros He. apply eligible_guards in He as (H1 & H2 & H3).
  unfold scale_record. rewrite H1, H2, H3. reflexivity.
Qed.

Lemma reoriented_fields r :
  starttime (reoriented cfg r) = starttime r /\ samprate (reoriented cfg r) = samprate r
  /\ samplecnt (reoriented cfg r) = samplecnt r /\ sampletype (reoriented cfg r) = sampletype r
  /\ numsamples (reoriented cfg r) = numsamples r
  /\ datasamples (reoriented cfg r) = datasamples r.
Proof. unfold reoriented. destruct (orient cfg); repeat split. Qed.

(** The record an eligible, well-formed record becomes. *)
Lemma scale_record_transformed r w :
  eligible r = true -> numsamples r = Z.of_nat (length (datasamples r)) ->
  (scale_record cfg record_handler (Some r) w).1.2
  = Some (set_datasamples (map (scale_sample cfg) (datasamples r)) (reoriented cfg r)).
Proof.
  intros He Hwf. rewrite scale_record_eligible by assumption. cbv zeta.
  destruct (reoriented_fields r) as (_ & _ & _ & _ & Hn & Hd).
  rewrite Hn, Hd, Hwf, Nat2Z.id, scale_loop_all.
  destruct (repack record_handler _ w). reflexivity.
Qed.

(** The loop over a buffer of at least [numsamples] samples. *)
Lemma scale_loop_prefix n buf :
  (n <= length buf)%nat ->
  scale_loop cfg n 0 buf = (true, map (scale_sample cfg) (take n buf) ++ drop n buf).
Proof.
  intros Hn. rewrite (surjective_pairing (scale_loop cfg n 0 buf)). f_equal.
  - apply scale_loop_inside. lia.
  - apply list_eq. intros i. rewrite scale_loop_lookup by lia.
    destruct (decide (0 <= i < 0 + n)%nat) as [Hin|Hout].
    + rewrite lookup_app_l by (rewrite length_map, length_take; lia).
      rewrite list_lookup_fmap, lookup_take_lt by lia. reflexivity.
    + rewrite lookup_app_r by (rewrite length_map, length_take; lia).
      rewrite length_map, length_take, lookup_drop. f_equal. lia.
Qed.

Lemma scale_record_within (r : MSRecord) (w : World) :
  eligible r = true ->
  numsamples r <= Z.of_nat (length (datasamples r)) ->
  let n := Z.to_nat (numsamples r) in
  let r' :=
    set_datasamples
      (map (scale_sample cfg) (take n (datasamples r)) ++ drop n (datasamples r))
      (reoriented cfg r) in
  scale_record cfg record_handler (Some r) w =
    (let '(res, w') := repack record_handler r' w in (res, Some r', w')).
Proof.
  intros He Hn n r'.
  rewrite scale_record_eligible by assumption. cbv zeta.
  destruct (reoriented_fields r) as (_ & _ & _ & _ & Hns & Hd).
  rewrite Hns, Hd, scale_loop_prefix by lia. reflexivity.
Qed.

Lemma scale_record_whole (r : MSRecord) (w : World) :
  eligible r = true ->
  numsamples r = Z.of_nat (length (datasamples r)) ->
  scale_record cfg record_handler (Some r) w =
    (let '(res, w') := repack record_handler (transformed cfg r) w in
     (res, Some (transformed cfg r), w')).
Proof.
  intros He Hwf. rewrite scale_record_eligible by assumption. cbv zeta.
  destruct (reoriented_fields r) as (_ & _ & _ & _ & Hns & Hd).
  rewrite Hns, Hd, Hwf, Nat2Z.id, scale_loop_all. reflexivity.
Qed.

End Transform.

(** ** The sample transform *)

Lemma is_zero_spec (x : double) : is_zero x = true <-> exists s, x = S754_zero s.
Proof.
  split.
  - destruct x as [s|s| |s m e]; intros Hz; [eauto | destruct s | | destruct s]; discriminate Hz.
  - intros [s ->]. reflexivity.
Qed.

Section TransformClaims.
Context `{CTarget} `{Libmseed}.
Variable cfg : Config.
Variable record_handler : block -> M unit.

(** C1, as the code has it.  The guards test [samplecnt], the loop runs to
    [numsamples].  Every eligible record whose buffer holds at least
    [numsamples] samples comes out of [scale_record] with each of its first
    [numsamples] samples [v] replaced by
    [(int) rint(alpha + beta * (double) v)], whatever its position, and with
    the slots after them as they were; every sample is replaced when the
    buffer holds [numsamples] samples and no more.  With alpha = 10 and
    beta = 2 the samples 1, 2, 3 then become 12, 14, 16; with alpha = 0.5 and
    beta = 1 the samples 0, 1, 2, 3, -1, -2 become 0, 2, 2, 4, 0, -2.  In
    general [rint] takes a double [m * 2^-q] to an integer [n] at most a half
    away, and to an even one when exactly a half away. *)
Theorem scale_record_rescales_samples (r : MSRecord) (w : World) :
  eligible r = true ->
  numsamples r <= Z.of_nat (length (datasamples r)) ->
  exists r',
    (scale_record cfg record_handler (Some r) w).1.2 = Some r'
    /\ datasamples r' =
         map (fun v => int_of_double (rint (dadd (alpha cfg) (dmul (beta cfg) (double_of_int v)))))
             (take (Z.to_nat (numsamples r)) (datasamples r))
         ++ drop (Z.to_nat (numsamples r)) (datasamples r)
    /\ (forall (n : nat) (v : Z),
          datasamples r !! n = Some v ->
          datasamples r' !! n =
            Some (if Z.of_nat n <? numsamples r
                  then int_of_double
                         (rint (dadd (alpha cfg) (dmul (beta cfg) (double_of_int v))))
                  else v))
    /\ (numsamples r = Z.of_nat (length (datasamples r)) ->
        datasamples r' =
          map (fun v => int_of_double (rint (dadd (alpha cfg) (dmul (beta cfg) (double_of_int v)))))
              (datasamples r))
    /\ (alpha cfg = double_of_int 10 -> beta cfg = double_of_int 2 ->
        datasamples r = [1; 2; 3] -> numsamples r = 3 -> datasamples r' = [12; 14; 16])
    /\ (alpha cfg = half -> beta cfg = one ->
        datasamples r = [0; 1; 2; 3; -1; -2] -> numsamples r = 6 ->
        datasamples r' = [0; 2; 2; 4; 0; -2])
    /\ (forall (s : bool) (m q : positive),
          Zpos (digits2_pos m) <= 53 ->
          exists n : Z,
            trunc_double (rint (S754_finite s m (Zneg q))) = Some (cond_Zopp s n)
            /\ 0 <= n
            /\ Z.abs (n * 2 ^ Zpos q - Zpos m) <= 2 ^ (Zpos q - 1)
            /\ (Z.abs (n * 2 ^ Zpos q - Zpos m) = 2 ^ (Zpos q - 1) -> Z.even n = true)).
Proof.
  intros He Hwf. eexists. split.
  { rewrite scale_record_within by assumption. cbv zeta.
    destruct (repack record_handler _ w). reflexivity. }
  cbn [datasamples set_datasamples]. split; [reflexivity|]. split; [|split; [|split; [|split]]].
  - intros n v Hv. pose proof (lookup_lt_Some _ _ _ Hv) as Hlt.
    destruct (Z.of_nat n <? numsamples r) eqn:Hin.
    + apply Z.ltb_lt in Hin.
      rewrite lookup_app_l by (rewrite length_map, length_take; lia).
      rewrite list_lookup_fmap, lookup_take_lt, Hv by lia. reflexivity.
    + apply Z.ltb_ge in Hin.
      rewrite lookup_app_r by (rewrite length_map, length_take; lia).
      rewrite length_map, length_take, lookup_drop, <- Hv. f_equal. lia.
  - intros Hall. rewrite Hall, Nat2Z.id, take_ge, drop_ge by lia. apply app_nil_r.
  - intros Ha Hb Hd Hn. rewrite Hd, Hn. unfold scale_sample. rewrite Ha, Hb. reflexivity.
  - intros Ha Hb Hd Hn. rewrite Hd, Hn. unfold scale_sample. rewrite Ha, Hb. reflexivity.
  - intros s m q Hd. apply rint_nearest_even. exact Hd.
Qed.

(** C2.  A record with [samplecnt < 1], or a sample type other than ['i'],
    or a sample rate equal to 0.0 makes [scale_record] return 0 and leaves
    the record, buffer and channel included, and the world as they were. *)
Theorem scale_record_skips_ineligible (r : MSRecord) (w : World) :
  samplecnt r < 1 \/ sampletype r <> "i"%char \/ is_zero (samprate r) = true ->
  scale_record cfg record_handler (Some r) w = (Done 0, Some r, w).
Proof.
  intros Hr. apply scale_record_ineligible. unfold eligible.
  destruct Hr as [Hc | [Ht | Hz]].
  - apply Z.ltb_lt in Hc. rewrite Hc. reflexivity.
  - apply Ascii.eqb_neq in Ht. rewrite Ht, andb_false_r. reflexivity.
  - rewrite Hz. apply andb_false_r.
Qed.

(** C7.  Whatever the record and the configuration, [scale_record] leaves
    [samplecnt] and [sampletype] alone, as it does [numsamples], the rate
    and the start time; of the channel only the third character can change,
    and the buffer keeps its length. *)
Theorem scale_record_frame (r : MSRecord) (w : World) :
  exists r',
    (scale_record cfg record_handler (Some r) w).1.2 = Some r'
    /\ samplecnt r' = samplecnt r
    /\ sampletype r' = sampletype r
    /\ numsamples r' = numsamples r
    /\ samprate r' = samprate r
    /\ starttime r' = starttime r
    /\ length (datasamples r') = length (datasamples r)
    /\ length (channel r') = length (channel r)
    /\ (forall i : nat, i <> 2%nat -> channel r' !! i = channel r !! i).
Proof.
  destruct (eligible r) eqn:He.
  - rewrite scale_record_eligible by assumption. cbv zeta.
    destruct (reoriented_fields cfg r) as (Hs & Hr & Hc & Ht & Hn & Hd).
    destruct (scale_loop _ _ _ _) as [inside buf] eqn:El.
    assert (Hlen : length buf = length (datasamples r)).
    { change buf with (inside, buf).2. rewrite <- El, scale_loop_length, Hd. reflexivity. }
    assert (Hch : length (channel (reoriented cfg r)) = length (channel r)
                  /\ forall i : nat, i <> 2%nat ->
                       channel (reoriented cfg r) !! i = channel r !! i).
    { unfold reoriented. destruct (orient cfg); cbn [channel set_channel]; [|auto].
      split; [apply length_insert|]. intros i Hi. apply list_lookup_insert_ne. congruence. }
    exists (set_datasamples buf (reoriented cfg r)). split.
    + destruct inside; [destruct (repack _ _ _)|]; reflexivity.
    + cbn [set_datasamples samplecnt sampletype numsamples samprate starttime
           datasamples channel]. tauto.
  - rewrite scale_record_ineligible by assumption. exists r. repeat split.
Qed.

(** C8.  With an orientation set, an eligible record leaves [scale_record]
    with the third character of its channel equal to the first character of
    the configured string, whatever it was before, and with the terminating
    NUL when the string is empty; the other characters stay. *)
Theorem scale_record_orientation (o : string) (r : MSRecord) (w : World) :
  orient cfg = Some o ->
  eligible r = true ->
  length (channel r) = 11%nat ->
  exists r',
    (scale_record cfg record_handler (Some r) w).1.2 = Some r'
    /\ channel r' !! 2%nat
       = Some match o with
              | String c _ => c
              | EmptyString => Ascii.zero
              end
    /\ (forall (c : ascii) (rest : string), o = String c rest -> channel r' !! 2%nat = Some c)
    /\ (forall i : nat, i <> 2%nat -> channel r' !! i = channel r !! i).
Proof.
  intros Ho He Hlen. rewrite scale_record_eligible by assumption. cbv zeta.
  destruct (scale_loop _ _ _ _) as [inside buf].
  exists (set_datasamples buf (reoriented cfg r)). split.
  - destruct inside; [destruct (repack _ _ _)|]; reflexivity.
  - unfold reoriented. rewrite Ho. cbn [set_datasamples set_channel channel].
    assert (Hthird : <[2%nat := deref_string o]> (channel r) !! 2%nat
                     = Some match o with
                            | String c _ => c
                            | EmptyString => Ascii.zero
                            end).
    { rewrite list_lookup_insert_eq by lia. destruct o; reflexivity. }
    split; [exact Hthird|]. split.
    + intros c rest ->. exact Hthird.
    + intros i Hi. apply list_lookup_insert_ne. congruence.
Qed.


End TransformClaims.

(** ** Repacking *)

Lemma int_of_long_small (l : Z) : INT_MIN <= l <= INT_MAX -> int_of_long l = l.
Proof.
  unfold int_of_long, INT_MIN, INT_MAX. intros Hl.
  rewrite Z.mod_small by lia. lia.
Qed.

Section RepackClaims.
Context `{CTarget} `{Libmseed}.
Variable cfg : Config.
Variable record_handler : block -> M unit.

Lemma repack_refused r w h :
  heap w = false :: h ->
  repack record_handler r w = (Done (-1), emit (EvInitGroup false) (set_heap h w)).
Proof.
  intros Hh. unfold repack, bind, mst_initgroup. rewrite Hh. reflexivity.
Qed.

Lemma repack_starved r w : heap w = [] -> repack record_handler r w = (Starved, w).
Proof.
  intros Hh. unfold repack, bind, mst_initgroup. rewrite Hh. reflexivity.
Qed.

Lemma repack_granted r w h :
  heap w = true :: h ->
  repack record_handler r w =
    (for_each record_handler (packed_records r) ;;
     act EvFreeGroup ;;
     ret (int_of_long (packed_samples r)))%world
      (emit (EvPackGroup 512 DE_STEIM2)
         (emit EvPrintTraceList (emit (EvAddMsr r) (emit (EvInitGroup true) (set_heap h w))))).
Proof.
  intros Hh. unfold repack, bind at 1 2 3 4, mst_initgroup, act, packed_samples, packed_records.
  rewrite Hh.
  destruct (mst_packgroup _ _ _) as [[records precords] count]. reflexivity.
Qed.

(** C4.  Provided the count the packer reports for the record is an [int]
    and not negative: when the allocation of the trace group fails, the
    repacking returns -1 at once; when it succeeds and the handler returns
    for every record packed, the group is released and the count of packed
    samples is returned; and a returned value is -1 exactly when that
    allocation failed.  On an eligible record whose buffer holds
    [numsamples] samples, what [scale_record] returns is what the repacking
    of the transformed record returns. *)
Theorem repack_fails_only_on_allocation (r : MSRecord) (w : World) :
  0 <= packed_samples r <= INT_MAX ->
  (forall h, heap w = false :: h ->
     repack record_handler r w = (Done (-1), emit (EvInitGroup false) (set_heap h w)))
  /\ (forall h w1, heap w = true :: h ->
      for_each record_handler (packed_records r)
        (emit (EvPackGroup 512 DE_STEIM2)
           (emit EvPrintTraceList
              (emit (EvAddMsr r) (emit (EvInitGroup true) (set_heap h w)))))
      = (Done tt, w1) ->
      repack record_handler r w = (Done (packed_samples r), emit EvFreeGroup w1))
  /\ (forall v w', repack record_handler r w = (Done v, w') ->
        (v = -1 <-> exists h, heap w = false :: h)
        /\ (v <> -1 -> v = packed_samples r))
  /\ (eligible r = true -> numsamples r = Z.of_nat (length (datasamples r)) ->
      let r2 := set_datasamples (map (scale_sample cfg) (datasamples r)) (reoriented cfg r) in
      (scale_record cfg record_handler (Some r) w).1.1 = (repack record_handler r2 w).1
      /\ (scale_record cfg record_handler (Some r) w).2 = (repack record_handler r2 w).2).
Proof.
  intros Hcount.
  assert (Hps : int_of_long (packed_samples r) = packed_samples r /\ packed_samples r <> -1).
  { split; [apply int_of_long_small|]; unfold INT_MIN; lia. }
  destruct Hps as [Hsmall Hne].
  split; [|split; [|split]].
  - intros h Hh. apply repack_refused. exact Hh.
  - intros h w1 Hh Hdone. rewrite (repack_granted r w h Hh). unfold bind.
    rewrite Hdone. unfold act, ret. rewrite Hsmall. reflexivity.
  - intros v w' Hrun. destruct (heap w) as [|[|] h] eqn:Hh.
    + rewrite repack_starved in Hrun by assumption. discriminate Hrun.
    + rewrite (repack_granted r w h Hh) in Hrun. unfold bind in Hrun.
      destruct (for_each _ _ _) as [[[]| |] w1]; try discriminate Hrun.
      unfold act, ret in Hrun. injection Hrun as <- _. rewrite Hsmall.
      split; [|reflexivity]. split; [tauto|]. intros [h' [=]].
    + rewrite (repack_refused r w h Hh) in Hrun. injection Hrun as <- _.
      split; [|congruence]. split; eauto.
  - intros He Hwf r2. rewrite scale_record_eligible by assumption. cbv zeta.
    destruct (reoriented_fields cfg r) as (_ & _ & _ & _ & Hn & Hd).
    rewrite Hn, Hd, Hwf, Nat2Z.id, scale_loop_all. fold r2.
    destruct (repack record_handler r2 w). split; reflexivity.
Qed.

End RepackClaims.

(** ** What a computation adds to the trace *)

Lemma count_app kind (a b : list event) :
  count kind (a ++ b) = (count kind a + count kind b)%nat.
Proof. unfold count. rewrite List.filter_app, length_app. reflexivity. Qed.

Lemma count_emit kind e w :
  count kind (trace (emit e w)) = (count kind (trace w) + if kind e then 1 else 0)%nat.
Proof.
  unfold emit. cbn [trace]. rewrite count_app. f_equal.
  unfold count. cbn [List.filter]. destruct (kind e); reflexivity.
Qed.

Lemma bind_done {A B} (m : M A) (k : A -> M B) w v w' :
  bind m k w = (Done v, w') -> exists a w1, m w = (Done a, w1) /\ k a w1 = (Done v, w').
Proof.
  unfold bind. destruct (m w) as [[a| |] w1]; intros Hr; try discriminate Hr. eauto.
Qed.

Section Silence.
Variable kind : event -> bool.

Lemma silent_ret {A} (a : A) : silent kind (ret a).
Proof. intros w. reflexivity. Qed.

Lemma silent_bind {A B} (m : M A) (k : A -> M B) :
  silent kind m -> (forall a, silent kind (k a)) -> silent kind (bind m k).
Proof.
  intros Hm Hk w. unfold bind. specialize (Hm w).
  destruct (m w) as [[a| |] w1]; cbn [snd] in *; [|assumption|assumption].
  rewrite Hk. exact Hm.
Qed.

Lemma silent_act e : kind e = false -> silent kind (act e).
Proof.
  intros He w. unfold act. cbn [snd]. rewrite count_emit, He. lia.
Qed.

Lemma silent_state (f : World -> World) :
  (forall w, trace (f w) = trace w) -> silent kind (fun w => (Done tt, f w)).
Proof. intros Hf w. cbn [snd]. rewrite Hf. reflexivity. Qed.

Lemma silent_when b (m : M unit) : silent kind m -> silent kind (when b m).
Proof. intros Hm. destruct b; [exact Hm | apply silent_ret]. Qed.

Lemma silent_for_each {A} (f : A -> M unit) l :
  (forall x, silent kind (f x)) -> silent kind (for_each f l).
Proof.
  intros Hf. induction l as [|x l IH]; cbn [for_each]; [apply silent_ret|].
  apply silent_bind; auto.
Qed.

Lemma silent_fwrite record :
  (forall ok, kind (EvFwrite record ok) = false) -> silent kind (fwrite record).
Proof.
  intros Hk w. unfold fwrite. destruct (disk w) as [|ok d]; [reflexivity|].
  cbn [snd]. rewrite count_emit, Hk. cbn [trace set_disk]. lia.
Qed.

End Silence.

Create HintDb silence.

#[local] Hint Resolve silent_ret silent_bind silent_act silent_state silent_when
  silent_for_each silent_fwrite : silence.

Ltac emitted :=
  cbn [snd]; rewrite ?count_emit;
  cbn [is_save trace set_heap set_disk set_net set_dl_link set_terminate set_handler_msr];
  lia.

Section SavesUntouched.
Context `{CTarget} `{Libmseed}.
Variable cfg : Config.

Lemma silent_repack handler r :
  (forall record, silent is_save (handler record)) -> silent is_save (repack handler r).
Proof.
  intros Hh. unfold repack. apply silent_bind.
  - intros w. unfold mst_initgroup. destruct (heap w) as [|ok h]; [reflexivity|].
    emitted.
  - intros [g|]; [|apply silent_ret].
    destruct (mst_packgroup _ _ _) as [[records precords] psamples].
    repeat (apply silent_bind; [|intros ?]); auto with silence.
Qed.

Lemma silent_call_scale_record handler msr :
  (forall record, silent is_save (handler record)) ->
  silent is_save (call_scale_record cfg handler msr).
Proof.
  intros Hh w. unfold call_scale_record.
  assert (Hw : count is_save (trace (scale_record cfg handler msr w).2)
               = count is_save (trace w)).
  { unfold scale_record. destruct msr as [r|]; [|reflexivity].
    repeat (match goal with |- context [if ?b then _ else _] => destruct b end;
            try reflexivity).
    destruct (scale_loop _ _ _ _) as [[|] buf]; [|reflexivity].
    pose proof (silent_repack handler
                  (set_datasamples buf
                     match orient cfg with
                     | Some o => set_channel (<[2%nat:=deref_string o]> (channel r)) r
                     | None => r
                     end) Hh w) as Hr.
    destruct (repack _ _ _). exact Hr. }
  destruct (scale_record cfg handler msr w) as [[[rv| |] msr'] w']; exact Hw.
Qed.

Lemma silent_dl_write_loop script record streamid start endtime :
  silent is_save (slscale.dl_write_loop cfg script record streamid start endtime).
Proof.
  induction script as [|[|link_open connect_ok signal] script IH]; cbn [slscale.dl_write_loop].
  - intros w. reflexivity.
  - intros w. emitted.
  - apply silent_bind.
    + intros w. emitted.
    + intros _. apply silent_bind.
      * unfold slscale.reconnect, slscale.dl_disconnect, slscale.dl_connect, slscale.sleep, ms_log.
        repeat (apply silent_bind; [|intros ?]); auto with silence.
        -- apply silent_when. intros w. emitted.
        -- intros w. emitted.
        -- apply silent_state. intros w. destruct signal; reflexivity.
        -- intros w. reflexivity.
      * intros [|]; [apply silent_ret | exact IH].
Qed.

Lemma silent_slscale_handler record : silent is_save (slscale.record_handler cfg record).
Proof.
  intros w. unfold slscale.record_handler.
  change (count is_save (trace w))
    with (count is_save (trace ((ret tt : M unit) w).2)).
  apply (silent_bind is_save
           (when (0 <? verbose cfg) (msr_print (handler_msr w) (2 <? verbose cfg)))).
  - apply silent_when, silent_act. reflexivity.
  - intros _. destruct (datalink cfg).
    + apply silent_bind; [apply silent_state; reflexivity|].
      intros _. destruct (msr_unpack record false); try (apply silent_act; reflexivity).
      intros w1. apply silent_dl_write_loop.
    + apply silent_bind; [auto with silence|].
      intros [|]; [apply silent_ret | apply silent_act; reflexivity].
Qed.

End SavesUntouched.

(** ** The collecting loop of slscale *)

Section CollectingLoop.
Context `{CTarget} `{Libmseed}.
Variable cfg : Config.

Lemma silent_run {A} kind (m : M A) w res w' :
  silent kind m -> m w = (res, w') -> count kind (trace w') = count kind (trace w).
Proof. intros Hm Hrun. specialize (Hm w). rewrite Hrun in Hm. exact Hm. Qed.

Lemma silent_scaling (slpack : SLpacket) (msr : option MSRecord) :
  silent is_save
    (if is_SLDATA (sl_packettype slpack)
     then call_scale_record cfg (slscale.record_handler cfg) msr
     else ret (0, msr)).
Proof.
  destruct (is_SLDATA _); [|apply silent_ret].
  apply silent_call_scale_record. intros record. apply silent_slscale_handler.
Qed.

(** What an iteration has done when it reaches the test on the value of
    [scale_record]. *)
Lemma collect_step_done slpack msr c w s w' :
  slscale.collect_step cfg slpack msr c w = (Done s, w') ->
  exists (res : Z * option MSRecord) w3,
    saves w3 = saves w
    /\ (if is_SLDATA (sl_packettype slpack) && (res.1 <? 0)
        then ret (slscale.Break None c)
        else
          match statefile cfg with
          | Some _ =>
              if stateint cfg =? 0 then ret (slscale.Continue None c)
              else if stateint cfg <=? c + 1
                   then (slscale.sl_savestate ;; ret (slscale.Continue None 0))%world
                   else ret (slscale.Continue None (c + 1))
          | None => ret (slscale.Continue None c)
          end) w3 = (Done s, w').
Proof.
  intros Hrun. unfold slscale.collect_step in Hrun.
  apply bind_done in Hrun as ([] & w1 & H1 & Hrun).
  apply bind_done in Hrun as ([] & w2 & H2 & Hrun).
  apply bind_done in Hrun as (res & w3 & H3 & Hrun).
  exists res, w3. split; [|exact Hrun]. unfold saves.
  rewrite (silent_run _ _ _ _ _ (silent_scaling _ _) H3).
  rewrite (silent_run _ _ _ _ _ (silent_when _ _ _ (silent_act _ _ eq_refl)) H2).
  rewrite (silent_run _ _ _ _ _ (silent_when _ _ _ (silent_act _ _ eq_refl)) H1).
  reflexivity.
Qed.

(** An iteration that is not left by [break] hands on a null [msr]; with a
    state file and an interval of at least one it saves the state when the
    counter reaches the interval, and counts on otherwise. *)
Lemma collect_step_continue sf slpack msr c w m c' w' :
  statefile cfg = Some sf -> 1 <= stateint cfg ->
  slscale.collect_step cfg slpack msr c w = (Done (slscale.Continue m c'), w') ->
  m = None
  /\ ((stateint cfg <= c + 1 /\ c' = 0 /\ saves w' = S (saves w))
      \/ (c + 1 < stateint cfg /\ c' = c + 1 /\ saves w' = saves w)).
Proof.
  intros Hsf Hn Hrun. apply collect_step_done in Hrun as (res & w3 & Hs & Hrun).
  destruct (is_SLDATA _ && (res.1 <? 0)); [discriminate Hrun|].
  rewrite Hsf in Hrun.
  destruct (stateint cfg =? 0) eqn:E0; [apply Z.eqb_eq in E0; lia|].
  destruct (stateint cfg <=? c + 1) eqn:En.
  - apply Z.leb_le in En. unfold bind, slscale.sl_savestate, act, ret in Hrun.
    injection Hrun as <- <- <-. split; [reflexivity|]. left.
    unfold saves in *. rewrite count_emit, Hs. cbn [is_save]. repeat split; [assumption | lia].
  - apply Z.leb_gt in En. unfold ret in Hrun. injection Hrun as <- <- <-.
    split; [reflexivity|]. right. repeat split; assumption.
Qed.

(** Left either way, an iteration hands on a null [msr]: [msr_free(&msr)]
    has been through. *)
Lemma collect_step_frees slpack msr c w s w' :
  slscale.collect_step cfg slpack msr c w = (Done s, w') ->
  exists c', s = slscale.Continue None c' \/ s = slscale.Break None c'.
Proof.
  intros Hrun. apply collect_step_done in Hrun as (res & w3 & _ & Hrun).
  destruct (is_SLDATA _ && (res.1 <? 0)).
  - injection Hrun as <- _. eauto.
  - destruct (statefile cfg); [destruct (stateint cfg =? 0); [|destruct (_ <=? _)]|];
      unfold bind, slscale.sl_savestate, act, ret in Hrun; injection Hrun as <- _; eauto.
Qed.

Lemma collect_loop_null pkts c w m c' w' :
  slscale.collect_loop cfg pkts None c w = (Done (slscale.Continue m c'), w') -> m = None.
Proof.
  revert c w. induction pkts as [|slpack pkts IH]; intros c w Hrun;
    cbn [slscale.collect_loop] in Hrun.
  - injection Hrun as <- _ _. reflexivity.
  - apply bind_done in Hrun as (s & w1 & Hstep & Hrest).
    destruct (collect_step_frees _ _ _ _ _ _ Hstep) as [c1 [-> | ->]].
    + eapply IH. exact Hrest.
    + discriminate Hrest.
Qed.

Lemma collect_loop_app pkts pkts' msr c w :
  slscale.collect_loop cfg (pkts ++ pkts') msr c w =
    (s <- slscale.collect_loop cfg pkts msr c ;;
     match s with
     | slscale.Continue msr' c' => slscale.collect_loop cfg pkts' msr' c'
     | slscale.Break _ _ => ret s
     end)%world w.
Proof.
  revert msr c w. induction pkts as [|slpack pkts IH]; intros msr c w.
  - reflexivity.
  - cbn [app slscale.collect_loop]. unfold bind.
    destruct (slscale.collect_step cfg slpack msr c w) as [[[m1 c1|m1 c1]| |] w1];
      try reflexivity.
    rewrite IH. reflexivity.
Qed.

Lemma collect_loop_saves sf pkts c w m c' w' :
  statefile cfg = Some sf -> 1 <= stateint cfg -> 0 <= c < stateint cfg ->
  slscale.collect_loop cfg pkts None c w = (Done (slscale.Continue m c'), w') ->
  Z.of_nat (saves w') = Z.of_nat (saves w) + (c + Z.of_nat (length pkts)) / stateint cfg
  /\ c' = (c + Z.of_nat (length pkts)) mod stateint cfg.
Proof.
  intros Hsf Hn. revert c w. induction pkts as [|slpack pkts IH]; intros c w Hc Hrun;
    cbn [slscale.collect_loop] in Hrun.
  - injection Hrun as _ <- <-. cbn [length]. rewrite Z.add_0_r.
    rewrite Z.div_small, Z.mod_small by lia. lia.
  - apply bind_done in Hrun as (s & w1 & Hstep & Hrest).
    destruct (collect_step_frees _ _ _ _ _ _ Hstep) as [c1 [-> | ->]];
      [|discriminate Hrest].
    destruct (collect_step_continue sf _ _ _ _ _ _ _ Hsf Hn Hstep)
      as [_ [(Hge & -> & Hs) | (Hlt & -> & Hs)]].
    + destruct (IH 0 w1 ltac:(lia) Hrest) as [IHs IHc]. rewrite Z.add_0_l in IHs, IHc.
      rewrite IHs, IHc, Hs.
      replace (c + Z.of_nat (length (slpack :: pkts)))
        with (Z.of_nat (length pkts) + 1 * stateint cfg) by (cbn [length]; lia).
      rewrite Z.div_add, Z.mod_add by lia. lia.
    + destruct (IH (c + 1) w1 ltac:(lia) Hrest) as [IHs IHc]. rewrite IHs, IHc, Hs.
      replace (c + Z.of_nat (length (slpack :: pkts)))
        with (c + 1 + Z.of_nat (length pkts)) by (cbn [length]; lia).
      lia.
Qed.

Lemma closing_saves sl_open w :
  exists w', slscale.closing cfg sl_open w = (Done 0, w')
    /\ terminate w' = terminate w
    /\ saves w' = (saves w + match statefile cfg with
                             | Some _ => if terminate w then 1 else 0
                             | None => 0
                             end)%nat.
Proof.
  unfold slscale.closing, slscale.sl_savestate, slscale.dl_disconnect, bind, when,
    ms_log, act, ret, saves.
  destruct (negb (verbose cfg =? 0)), (statefile cfg), sl_open, (datalink cfg);
    cbn [terminate dl_link emit set_dl_link];
    destruct (terminate w) eqn:Et, (dl_link w) eqn:El;
    cbn [terminate dl_link emit set_dl_link]; rewrite ?Et, ?El;
    cbn [terminate dl_link emit set_dl_link]; rewrite ?Et, ?El;
    eexists; (split; [reflexivity|]); cbn [terminate emit set_dl_link];
    (split; [assumption|]);
    repeat first [rewrite count_emit | progress cbn [trace set_dl_link]];
    cbn [is_save]; lia.
Qed.

End CollectingLoop.

Lemma count_cons kind e (evs : list event) :
  count kind (e :: evs) = ((if kind e then 1 else 0) + count kind evs)%nat.
Proof.
  unfold count. cbn [List.filter]. destruct (kind e); reflexivity.
Qed.

Lemma count_nil kind : count kind [] = 0%nat.
Proof. reflexivity. Qed.

Section StreamingClaims.
Context `{CTarget} `{Libmseed}.
Variable cfg : Config.

(** C5, as the code has it.  With a state file and an interval N of at
    least one, the collecting loop saves the state once per N packets it has
    been through, whatever their type: after [k] packets none of which
    broke the loop it has saved [k / N] times and the counter stands at
    [k mod N].  [main] then ends with one more save exactly when the
    terminate flag is set. *)
Theorem checkpoint_every_n_packets (sf : string) (s : slscale.Stream) (w w1 : World)
    (m : option MSRecord) (c : Z) :
  statefile cfg = Some sf ->
  1 <= stateint cfg ->
  slscale.collect_loop cfg (slscale.packets s) None 0 w = (Done (slscale.Continue m c), w1) ->
  Z.of_nat (saves w1)
  = Z.of_nat (saves w) + Z.of_nat (length (slscale.packets s)) / stateint cfg
  /\ c = Z.of_nat (length (slscale.packets s)) mod stateint cfg
  /\ exists w2,
       slscale.main cfg s w = (Done 0, w2)
       /\ terminate w2 = terminate w1 || slscale.interrupted s
       /\ saves w2 = (saves w1 + if terminate w2 then 1 else 0)%nat.
Proof.
  intros Hsf Hn Hrun.
  destruct (collect_loop_saves cfg sf _ 0 w m c w1 Hsf Hn ltac:(lia) Hrun) as [Hs Hc].
  rewrite Z.add_0_l in Hs, Hc. split; [exact Hs|]. split; [exact Hc|].
  unfold slscale.main, bind. rewrite Hrun.
  destruct (closing_saves cfg (slscale.sl_link_open s)
              (if slscale.interrupted s then term_handler w1 else w1))
    as (w2 & Hclose & Ht & Hsv).
  exists w2. split; [exact Hclose|]. rewrite Hsf in Hsv. rewrite Hsv, Ht.
  destruct (slscale.interrupted s); cbn [term_handler set_terminate terminate];
    rewrite ?orb_true_r, ?orb_false_r; auto.
Qed.

End StreamingClaims.

(** ** Forwarding to the DataLink server *)

Section Forwarding.
Context `{CTarget} `{Libmseed}.
Variable cfg : Config.
Variable record : block.
Variable streamid : string.
Variable start endtime : Z.

(** One refused write and the round it starts. *)
Lemma refused_round link_open connect_ok signal script w :
  exists w1,
    slscale.dl_write_loop cfg (Refused link_open connect_ok signal :: script)
                          record streamid start endtime w
    = (if terminate w || signal then (Done tt, w1)
       else slscale.dl_write_loop cfg script record streamid start endtime w1)
    /\ trace w1 = trace w ++ round_events cfg record streamid start endtime
                               (Refused link_open connect_ok signal)
    /\ terminate w1 = terminate w || signal
    /\ dl_link w1 = connect_ok
    /\ net w1 = script
    /\ handler_msr w1 = handler_msr w /\ heap w1 = heap w /\ disk w1 = disk w.
Proof.
  cbn [slscale.dl_write_loop round_events].
  unfold slscale.reconnect, slscale.dl_disconnect, slscale.dl_connect, slscale.sleep,
    bind, when, ms_log, act, ret, term_handler.
  destruct (verbose cfg =? 0), link_open, connect_ok, signal, (terminate w) eqn:Et;
    cbn [negb terminate emit set_net set_dl_link set_terminate orb]; rewrite ?Et;
    eexists; (split; [reflexivity|]);
    cbn [trace terminate dl_link net handler_msr heap disk emit set_net set_dl_link
         set_terminate app];
    rewrite <- ?app_assoc; cbn [app]; repeat split; auto.
Qed.

(** Refused rounds without a signal are gone through one after the other. *)
Lemma quiet_rounds pre script w :
  Forall quiet pre -> terminate w = false ->
  exists w1,
    slscale.dl_write_loop cfg (pre ++ script) record streamid start endtime w
    = slscale.dl_write_loop cfg script record streamid start endtime w1
    /\ trace w1 = trace w ++ rounds_of cfg record streamid start endtime pre
    /\ terminate w1 = false
    /\ handler_msr w1 = handler_msr w /\ heap w1 = heap w /\ disk w1 = disk w.
Proof.
  intros Hq. revert w. induction Hq as [|a pre Ha _ IH]; intros w Ht.
  - exists w. cbn [app]. unfold rounds_of. cbn [map concat]. rewrite app_nil_r.
    repeat split; auto.
  - destruct a as [|link_open connect_ok [|]]; try contradiction. cbn [app].
    destruct (refused_round link_open connect_ok false (pre ++ script) w)
      as (w1 & Hrun & Htr & Hterm & _ & _ & Hm & Hh & Hd).
    rewrite Ht in Hrun, Hterm. cbn [orb] in Hrun, Hterm.
    destruct (IH w1 Hterm) as (w2 & Hrun2 & Htr2 & Hterm2 & Hm2 & Hh2 & Hd2).
    exists w2. rewrite Hrun, Hrun2, Htr2, Htr, Hm2, Hh2, Hd2.
    unfold rounds_of. cbn [map concat]. rewrite <- app_assoc. repeat split; assumption.
Qed.

Lemma quiet_rounds_refused pre :
  Forall quiet pre ->
  count is_delivery (rounds_of cfg record streamid start endtime pre) = 0%nat.
Proof.
  intros Hq. induction Hq as [|a pre Ha _ IH]; [reflexivity|].
  destruct a as [|link_open connect_ok [|]]; try contradiction.
  unfold rounds_of in *. cbn [map concat]. rewrite count_app, IH.
  cbn [round_events].
  destruct (verbose cfg =? 0), link_open, connect_ok; reflexivity.
Qed.

End Forwarding.

Section ForwardingClaims.
Context `{CTarget} `{Libmseed}.
Variable cfg : Config.

Lemma rounds_of_one record streamid start endtime a :
  rounds_of cfg record streamid start endtime [a]
  = round_events cfg record streamid start endtime a.
Proof. unfold rounds_of. cbn [map concat]. apply app_nil_r. Qed.

Lemma record_handler_forwards d hdr record w :
  datalink cfg = Some d ->
  msr_unpack record false = Unpacked hdr ->
  slscale.record_handler cfg record w =
    slscale.dl_write_loop cfg (net w) record (msr_srcname hdr ++ "/MSEED")%string
      (starttime hdr) (msr_endtime hdr)
      (set_handler_msr (Some hdr)
         (if 0 <? verbose cfg
          then emit (EvMsrPrint (handler_msr w) (2 <? verbose cfg)) w else w)).
Proof.
  intros Hd Hu. unfold slscale.record_handler. rewrite Hd, Hu.
  unfold bind, when, msr_print, act, ret.
  destruct (0 <? verbose cfg); reflexivity.
Qed.

Lemma refused_round_undelivered record streamid start endtime link_open connect_ok signal :
  count is_delivery
    (round_events cfg record streamid start endtime (Refused link_open connect_ok signal))
  = 0%nat.
Proof.
  cbn [round_events]. destruct (verbose cfg =? 0), link_open, connect_ok; reflexivity.
Qed.

(** C6.  In forwarding mode, with the record's header unpacked, each
    refused [dl_write] is followed by a disconnect if the link is open, a
    reconnect, and a sleep of 10 seconds if the reconnect fails.  The rounds
    go on until a write is accepted, which ends the handler with the record
    delivered once, or until the terminate flag is found set after a round,
    which ends it with no write accepted: the record is given up.  While
    neither happens the handler does not return. *)
Theorem forwarding_retries_until_accepted_or_terminated
    (d : string) (hdr : MSRecord) (record : block) (pre : list Attempt) (w : World) :
  datalink cfg = Some d ->
  msr_unpack record false = Unpacked hdr ->
  Forall quiet pre ->
  let streamid := (msr_srcname hdr ++ "/MSEED")%string in
  let sent := rounds_of cfg record streamid (starttime hdr) (msr_endtime hdr) in
  let before :=
    trace w ++ (if 0 <? verbose cfg
                then [EvMsrPrint (handler_msr w) (2 <? verbose cfg)] else []) in
  (terminate w = false -> forall rest, net w = pre ++ Accepted :: rest ->
     exists w', slscale.record_handler cfg record w = (Done tt, w')
       /\ trace w' = before ++ sent pre ++ sent [Accepted]
       /\ count is_delivery (trace w') = S (count is_delivery (trace w))
       /\ net w' = rest /\ terminate w' = false)
  /\ (terminate w = false -> forall link_open connect_ok rest,
      net w = pre ++ Refused link_open connect_ok true :: rest ->
      exists w', slscale.record_handler cfg record w = (Done tt, w')
        /\ trace w' = before ++ sent pre ++ sent [Refused link_open connect_ok true]
        /\ count is_delivery (trace w') = count is_delivery (trace w)
        /\ net w' = rest /\ terminate w' = true)
  /\ (terminate w = false -> net w = pre ->
      exists w', slscale.record_handler cfg record w = (Starved, w')
        /\ trace w' = before ++ sent pre
        /\ count is_delivery (trace w') = count is_delivery (trace w)
        /\ terminate w' = false)
  /\ (terminate w = true -> forall link_open connect_ok signal rest,
      net w = Refused link_open connect_ok signal :: rest ->
      exists w', slscale.record_handler cfg record w = (Done tt, w')
        /\ trace w' = before ++ sent [Refused link_open connect_ok signal]
        /\ count is_delivery (trace w') = count is_delivery (trace w)
        /\ net w' = rest /\ terminate w' = true).
Proof.
  intros Hd Hu Hq streamid sent before.
  set (w0 := set_handler_msr (Some hdr)
               (if 0 <? verbose cfg
                then emit (EvMsrPrint (handler_msr w) (2 <? verbose cfg)) w else w)).
  assert (Hw0 : trace w0 = before /\ terminate w0 = terminate w).
  { unfold w0, before. destruct (0 <? verbose cfg); cbn; rewrite ?app_nil_r; auto. }
  destruct Hw0 as [Hb Ht0].
  assert (Hcb : count is_delivery before = count is_delivery (trace w)).
  { unfold before. rewrite count_app.
    destruct (0 <? verbose cfg); rewrite ?count_cons, ?count_nil; cbn [is_delivery]; lia. }
  pose proof (quiet_rounds_refused cfg record streamid (starttime hdr) (msr_endtime hdr)
                pre Hq) as Hcp.
  rewrite (record_handler_forwards d hdr record w Hd Hu). fold streamid w0.
  split; [|split; [|split]].
  - intros Ht rest ->.
    destruct (quiet_rounds cfg record streamid (starttime hdr) (msr_endtime hdr)
                pre (Accepted :: rest) w0 Hq ltac:(congruence))
      as (w1 & -> & Htr & Hterm & _).
    cbn [slscale.dl_write_loop]. eexists. split; [reflexivity|].
    cbn [trace net terminate emit set_net]. rewrite Htr, Hb.
    unfold sent. rewrite rounds_of_one. cbn [round_events].
    rewrite <- app_assoc. split; [reflexivity|].
    rewrite !count_app, Hcb, Hcp, count_cons, count_nil. cbn [is_delivery].
    repeat split; [lia | assumption].
  - intros Ht link_open connect_ok rest ->.
    destruct (quiet_rounds cfg record streamid (starttime hdr) (msr_endtime hdr)
                pre (Refused link_open connect_ok true :: rest) w0 Hq ltac:(congruence))
      as (w1 & -> & Htr & Hterm & _).
    destruct (refused_round cfg record streamid (starttime hdr) (msr_endtime hdr)
                link_open connect_ok true rest w1)
      as (w2 & -> & Htr2 & Hterm2 & _ & Hnet & _).
    rewrite orb_true_r in *. exists w2. split; [reflexivity|].
    rewrite Htr2, Htr, Hb.
    unfold sent. rewrite rounds_of_one.
    rewrite <- app_assoc. split; [reflexivity|].
    rewrite !count_app, Hcb, Hcp, refused_round_undelivered.
    repeat split; [lia | assumption | assumption].
  - intros Ht ->.
    destruct (quiet_rounds cfg record streamid (starttime hdr) (msr_endtime hdr)
                pre [] w0 Hq ltac:(congruence))
      as (w1 & Hrun & Htr & Hterm & _).
    rewrite app_nil_r in Hrun. rewrite Hrun. cbn [slscale.dl_write_loop].
    eexists. split; [reflexivity|]. cbn [trace terminate set_net].
    rewrite Htr, Hb. unfold sent. split; [reflexivity|].
    rewrite count_app, Hcb, Hcp. repeat split; [lia | assumption].
  - intros Ht link_open connect_ok signal rest ->.
    destruct (refused_round cfg record streamid (starttime hdr) (msr_endtime hdr)
                link_open connect_ok signal rest w0)
      as (w2 & -> & Htr2 & Hterm2 & _ & Hnet & _).
    rewrite Ht0, Ht in *. cbn [orb] in *. exists w2. split; [reflexivity|].
    rewrite Htr2, Hb.
    unfold sent. rewrite rounds_of_one.
    split; [reflexivity|].
    rewrite !count_app, Hcb, refused_round_undelivered.
    repeat split; [lia | assumption | assumption].
Qed.

End ForwardingClaims.

(** ** Ineligible records in msscale *)

Section BatchClaims.
Context `{CTarget} `{Libmseed}.
Variable cfg : Config.

(** C3, as the code has it.  In msscale a record that is not eligible is
    neither repacked nor written: [scale_record] returns 0 before a trace
    group is asked for, leaving record and world as they were, and the
    reading loop goes on to the next record. *)
Theorem msscale_skips_ineligible_record (r : MSRecord) (recs : list MSRecord)
    (ending : msscale.ms_rc) (w : World) :
  eligible r = false ->
  scale_record cfg msscale.record_handler (Some r) w = (Done 0, Some r, w)
  /\ msscale.read_loop cfg (r :: recs) ending w =
       msscale.read_loop cfg recs ending
         (if 1 <? verbose cfg then emit (EvMsrPrint (Some r) (2 <? verbose cfg)) w else w)
  /\ exists w', msscale.read_loop cfg [r] ending w = (Done ending, w')
       /\ count is_fwrite (trace w') = count is_fwrite (trace w)
       /\ packs w' = packs w
       /\ heap w' = heap w /\ disk w' = disk w.
Proof.
  intros He.
  assert (Hstep : forall recs', msscale.read_loop cfg (r :: recs') ending w =
            msscale.read_loop cfg recs' ending
              (if 1 <? verbose cfg
               then emit (EvMsrPrint (Some r) (2 <? verbose cfg)) w else w)).
  { intros recs'. cbn [msscale.read_loop].
    unfold bind, when, msr_print, act, ret, call_scale_record.
    destruct (1 <? verbose cfg); rewrite scale_record_ineligible by assumption;
      reflexivity. }
  split; [apply scale_record_ineligible; assumption|]. split; [apply Hstep|].
  rewrite Hstep. cbn [msscale.read_loop]. unfold ret, packs. eexists.
  split; [reflexivity|].
  destruct (1 <? verbose cfg); rewrite ?count_emit; cbn [is_fwrite is_pack heap disk emit];
    repeat split; lia.
Qed.

End BatchClaims.

(** ** The statements at work *)

Lemma rescale_scenario_A :
  exists r',
    (@scale_record demo.target demo.codec (demo.config demo.ten demo.two None None 300)
       msscale.record_handler (Some (demo.int_record [1; 2; 3]))
       (demo.world [true] [true] [])).1.2 = Some r'
    /\ datasamples r' = [12; 14; 16].
Proof.
  destruct (@scale_record_rescales_samples demo.target demo.codec
              (demo.config demo.ten demo.two None None 300) msscale.record_handler
              (demo.int_record [1; 2; 3]) (demo.world [true] [true] [])
              eq_refl ltac:(cbn; lia))
    as (r' & Hr & _ & _ & _ & HA & _).
  exists r'. split; [exact Hr|]. apply HA; reflexivity.
Defined.

(** C1 as the specification words it fails: an eligible record with
    [samplecnt] 3 whose buffer 1, 2, 3 has [numsamples] 2 keeps its third
    sample, where the specification has it replaced by 16. *)
Lemma slack_sample_is_not_rescaled :
  eligible (mkMSRecord demo.header 0 one 3 "i" 2 [1; 2; 3]) = true
  /\ exists r',
       (@scale_record demo.target demo.codec (demo.config demo.ten demo.two None None 300)
          msscale.record_handler (Some (mkMSRecord demo.header 0 one 3 "i" 2 [1; 2; 3]))
          (demo.world [true] [true] [])).1.2 = Some r'
       /\ datasamples r' = [12; 14; 3]
       /\ datasamples r'
          <> map (fun v => @int_of_double demo.target
                             (rint (dadd demo.ten (dmul demo.two (double_of_int v)))))
                 [1; 2; 3].
Proof.
  split; [reflexivity|]. eexists. split; [vm_compute; reflexivity|].
  split; [reflexivity|]. vm_compute. discriminate.
Qed.

Lemma float_record_untouched :
  @scale_record demo.target demo.codec (demo.config demo.ten demo.two None None 300)
    msscale.record_handler (Some demo.float_record) (demo.world [true] [true] [])
  = (Done 0, Some demo.float_record, demo.world [true] [true] []).
Proof.
  apply (@scale_record_skips_ineligible demo.target demo.codec).
  right. left. cbn. discriminate.
Defined.

Lemma orientation_written :
  exists r',
    (@scale_record demo.target demo.codec
       (mkConfig 0 (Some "N1"%string) demo.ten demo.two None 0 None 300)
       msscale.record_handler (Some (demo.int_record [1; 2; 3]))
       (demo.world [true] [true] [])).1.2 = Some r'
    /\ channel (demo.int_record [1; 2; 3]) !! 2%nat = Some "Z"%char
    /\ channel r' !! 2%nat = Some "N"%char.
Proof.
  destruct (@scale_record_orientation demo.target demo.codec
              (mkConfig 0 (Some "N1"%string) demo.ten demo.two None 0 None 300)
              msscale.record_handler
              "N1"%string (demo.int_record [1; 2; 3]) (demo.world [true] [true] [])
              eq_refl eq_refl eq_refl)
    as (r' & Hr & _ & Hc & _).
  exists r'. split; [exact Hr|]. split; [reflexivity|].
  exact (Hc "N"%char "1"%string eq_refl).
Defined.


Lemma repack_counts_three_samples :
  exists w',
    @repack demo.codec msscale.record_handler (demo.int_record [1; 2; 3])
      (demo.world [true] [true] []) = (Done 3, w').
Proof.
  destruct (@repack_fails_only_on_allocation demo.target demo.codec
              (demo.config demo.ten demo.two None None 300) msscale.record_handler
              (demo.int_record [1; 2; 3]) (demo.world [true] [true] []))
    as (_ & Hgranted & _).
  - unfold INT_MAX. vm_compute. split; discriminate.
  - eexists. apply (Hgranted []). + reflexivity. + vm_compute. reflexivity.
Defined.

Lemma msscale_skips_float_record :
  @msscale.read_loop demo.target demo.codec (demo.config demo.ten demo.two None None 300)
    [demo.float_record; demo.int_record [1; 2; 3]] msscale.MS_ENDOFFILE
    (demo.world [true] [true] [])
  = @msscale.read_loop demo.target demo.codec (demo.config demo.ten demo.two None None 300)
      [demo.int_record [1; 2; 3]] msscale.MS_ENDOFFILE (demo.world [true] [true] []).
Proof.
  destruct (@msscale_skips_ineligible_record demo.target demo.codec
              (demo.config demo.ten demo.two None None 300) demo.float_record
              [demo.int_record [1; 2; 3]] msscale.MS_ENDOFFILE
              (demo.world [true] [true] []) eq_refl)
    as (_ & Hloop & _).
  exact Hloop.
Defined.

(** C3 as the specification words it fails: a float record read by
    msscale is not repacked and nothing of it reaches standard output. *)
Lemma msscale_emits_nothing_for_float_record :
  exists w',
    @msscale.main demo.target demo.codec (demo.config demo.ten demo.two None None 300)
      [msscale.mkFile [demo.float_record] msscale.MS_ENDOFFILE]
      (demo.world [true] [true] []) = (Done 0, w')
    /\ trace w' = []
    /\ packs w' = 0%nat
    /\ count is_fwrite (trace w') = 0%nat
    /\ datasamples demo.float_record <> [].
Proof.
  eexists. split; [vm_compute; reflexivity|]. repeat split. discriminate.
Qed.

Lemma checkpoint_scenario_E :
  exists w1 w2,
    @slscale.collect_loop demo.target demo.codec
      (demo.config demo.ten demo.two None (Some "state"%string) 2)
      (repeat (demo.data_packet [1; 2; 3]) 5) None 0
      (demo.world (repeat true 5) (repeat true 5) [])
    = (Done (slscale.Continue None 1), w1)
    /\ saves w1 = 2%nat
    /\ @slscale.main demo.target demo.codec
         (demo.config demo.ten demo.two None (Some "state"%string) 2)
         (slscale.mkStream (repeat (demo.data_packet [1; 2; 3]) 5) true false)
         (demo.world (repeat true 5) (repeat true 5) [])
       = (Done 0, w2)
    /\ saves w2 = 3%nat.
Proof.
  assert (Hrun :
    @slscale.collect_loop demo.target demo.codec
      (demo.config demo.ten demo.two None (Some "state"%string) 2)
      (repeat (demo.data_packet [1; 2; 3]) 5) None 0
      (demo.world (repeat true 5) (repeat true 5) [])
    = (Done (slscale.Continue None 1),
       (@slscale.collect_loop demo.target demo.codec
          (demo.config demo.ten demo.two None (Some "state"%string) 2)
          (repeat (demo.data_packet [1; 2; 3]) 5) None 0
          (demo.world (repeat true 5) (repeat true 5) [])).2)).
  { vm_compute. reflexivity. }
  destruct (@checkpoint_every_n_packets demo.target demo.codec
              (demo.config demo.ten demo.two None (Some "state"%string) 2) "state"%string
              (slscale.mkStream (repeat (demo.data_packet [1; 2; 3]) 5) true false)
              _ _ None 1 eq_refl ltac:(cbn; lia) Hrun)
    as (Hs & _ & w2 & Hmain & Ht & Hs2).
  eexists. exists w2. split; [exact Hrun|].
  assert (Hs1 : saves (@slscale.collect_loop demo.target demo.codec
          (demo.config demo.ten demo.two None (Some "state"%string) 2)
          (repeat (demo.data_packet [1; 2; 3]) 5) None 0
          (demo.world (repeat true 5) (repeat true 5) [])).2 = 2%nat).
  { cbn [slscale.packets] in Hs. apply Nat2Z.inj. rewrite Hs. reflexivity. }
  split; [exact Hs1|]. split; [exact Hmain|].
  rewrite Hs2, Hs1, Ht. cbn [slscale.interrupted]. rewrite orb_true_r. reflexivity.
Defined.

(** C5 as the specification words it fails: two packets that are not data
    packets, with an interval of 2, make the loop save the state once. *)
Lemma info_packets_advance_the_counter :
  exists w1,
    @slscale.collect_loop demo.target demo.codec
      (demo.config demo.ten demo.two None (Some "state"%string) 2)
      [demo.info_packet; demo.info_packet] None 0 (demo.world [] [] [])
    = (Done (slscale.Continue None 0), w1)
    /\ saves w1 = 1%nat
    /\ data_packets [demo.info_packet; demo.info_packet] = 0%nat
    /\ Z.of_nat (saves w1)
       <> Z.of_nat (data_packets [demo.info_packet; demo.info_packet]) / 2.
Proof.
  eexists. split; [vm_compute; reflexivity|]. repeat split. vm_compute. discriminate.
Qed.

Lemma record_given_up_on_termination :
  exists w',
    @slscale.record_handler demo.codec
      (demo.config demo.ten demo.two (Some "localhost:16000"%string) None 300)
      (demo.encode (demo.int_record [1; 2; 3]))
      (demo.world [] [] [Refused true false false; Refused false true true; Accepted])
    = (Done tt, w')
    /\ count is_delivery (trace w') = 0%nat
    /\ count (fun e => match e with EvSleep 10 => true | _ => false end) (trace w') = 1%nat
    /\ net w' = [Accepted]
    /\ terminate w' = true.
Proof.
  destruct (@forwarding_retries_until_accepted_or_terminated demo.codec
              (demo.config demo.ten demo.two (Some "localhost:16000"%string) None 300)
              "localhost:16000"%string
              (mkMSRecord demo.header 0 one 3 "i" 0 [])
              (demo.encode (demo.int_record [1; 2; 3]))
              [Refused true false false]
              (demo.world [] [] [Refused true false false; Refused false true true; Accepted])
              eq_refl eq_refl (@List.Forall_cons _ quiet (Refused true false false) [] I (@List.Forall_nil _ quiet)))
    as (_ & Hgiven & _).
  destruct (Hgiven eq_refl false true [Accepted] eq_refl) as (w' & Hrun & Htr & Hc & Hn & Ht).
  exists w'. split; [exact Hrun|]. split; [exact Hc|]. split; [|split; assumption].
  rewrite Htr. reflexivity.
Defined.

(** C10 as the specification words it fails: after an iteration that
    unpacked and packed a record, [msr] is null, not stale; the rejected
    packet that follows makes [scale_record] fault instead of packing the
    earlier record a second time. *)
Lemma stale_record_is_not_rescaled :
  exists w1 w2,
    @slscale.collect_step demo.target demo.codec
      (demo.config demo.ten demo.two None None 300)
      (demo.data_packet [1; 2; 3]) None 0 (demo.world [true; true] [true; true] [])
    = (Done (slscale.Continue None 0), w1)
    /\ packs w1 = 1%nat
    /\ @slscale.collect_loop demo.target demo.codec
         (demo.config demo.ten demo.two None None 300)
         [demo.data_packet [1; 2; 3]; demo.bad_packet] None 0
         (demo.world [true; true] [true; true] [])
       = (Fault, w2)
    /\ packs w2 = 1%nat
    /\ packs w2 <> 2%nat.
Proof.
  eexists. eexists. split; [vm_compute; reflexivity|].
  split; [reflexivity|]. split; [vm_compute; reflexivity|].
  split; [reflexivity|]. vm_compute. discriminate.
Qed.

(** * Further properties *)

(** ** Exact arithmetic on integer doubles *)

Section ExactArithmetic.

Lemma shl_shl p j k : shl (shl p j) k = shl p (j + k).
Proof. unfold shl. rewrite Nat.add_comm, Nat.iter_add. reflexivity. Qed.

Lemma shl_mul p1 p2 k1 k2 : (shl p1 k1 * shl p2 k2)%positive = shl (p1 * p2) (k1 + k2).
Proof.
  apply Pos2Z.inj. rewrite Pos2Z.inj_mul, !value_shl, Pos2Z.inj_mul, Nat2Z.inj_add.
  rewrite Z.pow_add_r by lia. ring.
Qed.

Lemma digits2_pos_ge p n : 0 <= n -> 2 ^ n <= Zpos p -> n + 1 <= Zpos (digits2_pos p).
Proof.
  intros Hn Hp. destruct (Z_le_gt_dec (n + 1) (Zpos (digits2_pos p))) as [|Hgt]; [assumption|].
  pose proof (digits2_pos_bounds p) as [_ Hhi].
  assert (2 ^ Zpos (digits2_pos p) <= 2 ^ n) by (apply Z.pow_le_mono_r; lia).
  lia.
Qed.

Lemma digits2_pos_mul p1 p2 :
  Zpos (digits2_pos p1) + Zpos (digits2_pos p2) - 1 <= Zpos (digits2_pos (p1 * p2)).
Proof.
  pose proof (digits2_pos_bounds p1) as [H1 _]. pose proof (digits2_pos_bounds p2) as [H2 _].
  replace (Zpos (digits2_pos p1) + Zpos (digits2_pos p2) - 1)
    with ((Zpos (digits2_pos p1) - 1 + (Zpos (digits2_pos p2) - 1)) + 1) by lia.
  apply digits2_pos_ge; [lia|].
  rewrite Z.pow_add_r, Pos2Z.inj_mul by lia.
  apply Z.mul_le_mono_nonneg; try assumption; apply Z.pow_nonneg; lia.
Qed.

(** An integer of at most 53 bits carried with [j] extra zero bits, [j] at
    least what the canonical mantissa needs, is rounded to its double. *)
Lemma binary_round_aux_exact s p j :
  Zpos (digits2_pos p) <= 53 ->
  53 - Zpos (digits2_pos p) <= Z.of_nat j ->
  binary_round_aux dprec demax s (Zpos (shl p j)) (- Z.of_nat j) loc_Exact = int_double s p.
Proof.
  intros Hd Hj. unfold int_double.
  remember (Z.to_nat (53 - Zpos (digits2_pos p))) as K eqn:HKdef.
  assert (HK : Z.of_nat K = 53 - Zpos (digits2_pos p)) by lia.
  clear HKdef.
  replace j with (K + (j - K))%nat by lia. rewrite <- shl_shl.
  set (n := (j - K)%nat).
  assert (Hcan : canonical_mantissa dprec demax (shl p K) (Zpos (digits2_pos p) - 53) = true).
  { unfold canonical_mantissa. rewrite digits_shl. apply Z.eqb_eq.
    unfold fexp, emin, dprec, demax. lia. }
  unfold binary_round_aux, shr_fexp. cbn [Zdigits2].
  rewrite !digits_shl.
  replace (fexp dprec demax
             (Zpos (digits2_pos p) + Z.of_nat K + Z.of_nat n + - Z.of_nat (K + n))
           - - Z.of_nat (K + n)) with (Z.of_nat n)
    by (unfold fexp, emin, dprec, demax; lia).
  assert (Hshr : shr (shr_record_of_loc (Zpos (shl (shl p K) n)) loc_Exact)
                     (- Z.of_nat (K + n)) (Z.of_nat n)
                 = (Build_shr_record (Zpos (shl p K)) false false,
                    Zpos (digits2_pos p) - 53)).
  { destruct n as [|n']; cbn [shr_record_of_loc].
    - change (Z.of_nat 0) with 0. unfold shr. change (shl (shl p K) 0) with (shl p K).
      f_equal. lia.
    - change (Z.of_nat (S n')) with (Zpos (Pos.of_succ_nat n')). unfold shr.
      rewrite iter_pos_nat, SuccNat2Pos.id_succ, shr_shl. f_equal. lia. }
  rewrite Hshr. cbn [shr_m loc_of_shr_record round_nearest_even].
  fold (shr_fexp dprec demax (Zpos (shl p K)) (Zpos (digits2_pos p) - 53) loc_Exact).
  pose proof (binary_round_aux_canonical s (shl p K) (Zpos (digits2_pos p) - 53) Hcan
                ltac:(unfold demax, dprec; lia)) as Hb.
  unfold binary_round_aux in Hb.
  unfold shr_fexp at 1 in Hb. cbn [Zdigits2 shr_record_of_loc] in Hb.
  apply Z.eqb_eq in Hcan. rewrite Hcan, Z.sub_diag in Hb.
  cbn [shr shr_m loc_of_shr_record round_nearest_even] in Hb.
  exact Hb.
Qed.

Lemma binary_round_exact s p j :
  Zpos (digits2_pos p) <= 53 ->
  binary_round dprec demax s (shl p j) (- Z.of_nat j) = int_double s p.
Proof.
  intros Hd. unfold binary_round, shl_align. rewrite digits_shl.
  replace (fexp dprec demax (Zpos (digits2_pos p) + Z.of_nat j + - Z.of_nat j))
    with (Zpos (digits2_pos p) - 53) by (unfold fexp, emin, dprec, demax; lia).
  destruct (Zpos (digits2_pos p) - 53 - - Z.of_nat j) as [|q|q] eqn:E.
  - apply binary_round_aux_exact; lia.
  - apply binary_round_aux_exact; lia.
  - rewrite pos_iter_shl, shl_shl.
    replace (j + Pos.to_nat q)%nat with (Z.to_nat (53 - Zpos (digits2_pos p))) by lia.
    apply binary_round_aux_canonical.
    + unfold canonical_mantissa. rewrite digits_shl. apply Z.eqb_eq.
      unfold fexp, emin, dprec, demax. lia.
    + unfold demax, dprec. lia.
Qed.

(** The double of a non-zero integer of at most 53 bits. *)
Lemma double_of_int_exact (s : bool) (p : positive) :
  Zpos (digits2_pos p) <= 53 -> double_of_int (cond_Zopp s (Zpos p)) = int_double s p.
Proof.
  intros Hd. destruct s; cbn [cond_Zopp Z.opp]; unfold double_of_int, binary_normalize;
    apply double_of_pos; assumption.
Qed.

(** The product of two integer doubles is the double of the product, when
    that fits in 53 bits. *)
Lemma dmul_int_double s1 p1 s2 p2 :
  Zpos (digits2_pos (p1 * p2)) <= 53 ->
  dmul (int_double s1 p1) (int_double s2 p2) = int_double (xorb s1 s2) (p1 * p2).
Proof.
  intros Hd. pose proof (digits2_pos_mul p1 p2) as Hm.
  assert (H1 : 1 <= Zpos (digits2_pos p1)) by lia.
  assert (H2 : 1 <= Zpos (digits2_pos p2)) by lia.
  unfold dmul, int_double at 1 2, SFmul. rewrite shl_mul.
  replace (Zpos (digits2_pos p1) - 53 + (Zpos (digits2_pos p2) - 53))
    with (- Z.of_nat (Z.to_nat (53 - Zpos (digits2_pos p1))
                      + Z.to_nat (53 - Zpos (digits2_pos p2)))) by lia.
  apply binary_round_aux_exact; lia.
Qed.

(** The sum of two integer doubles is the double of the sum, when that fits
    in 53 bits. *)
Lemma dadd_int_double s1 p1 s2 p2 :
  Zpos (digits2_pos p1) <= 53 -> Zpos (digits2_pos p2) <= 53 ->
  Z.abs (cond_Zopp s1 (Zpos p1) + cond_Zopp s2 (Zpos p2)) < 2 ^ 53 ->
  dadd (int_double s1 p1) (int_double s2 p2)
  = double_of_int (cond_Zopp s1 (Zpos p1) + cond_Zopp s2 (Zpos p2)).
Proof.
  intros Hd1 Hd2 Hsum. unfold dadd, int_double, SFadd.
  set (k1 := Z.to_nat (53 - Zpos (digits2_pos p1))).
  set (k2 := Z.to_nat (53 - Zpos (digits2_pos p2))).
  replace (Zpos (digits2_pos p1) - 53) with (- Z.of_nat k1) by (unfold k1; lia).
  replace (Zpos (digits2_pos p2) - 53) with (- Z.of_nat k2) by (unfold k2; lia).
  clearbody k1 k2.
  set (J := Nat.max k1 k2).
  replace (Z.min (- Z.of_nat k1) (- Z.of_nat k2)) with (- Z.of_nat J) by (unfold J; lia).
  assert (Hal : forall p k, (k <= J)%nat ->
            fst (shl_align (shl p k) (- Z.of_nat k) (- Z.of_nat J)) = shl p J).
  { intros p k Hk. unfold shl_align.
    destruct (- Z.of_nat J - - Z.of_nat k) as [|q|q] eqn:E; cbn [fst].
    - replace J with k by lia. reflexivity.
    - lia.
    - rewrite pos_iter_shl, shl_shl. f_equal. lia. }
  rewrite !Hal by (unfold J; lia).
  assert (Hv : cond_Zopp s1 (Zpos (shl p1 J)) + cond_Zopp s2 (Zpos (shl p2 J))
               = (cond_Zopp s1 (Zpos p1) + cond_Zopp s2 (Zpos p2)) * 2 ^ Z.of_nat J).
  { rewrite !value_shl. destruct s1, s2; cbn [cond_Zopp]; ring. }
  rewrite Hv. clear Hv Hal.
  assert (Hpow : 0 < 2 ^ Z.of_nat J) by (apply Z.pow_pos_nonneg; lia).
  destruct (cond_Zopp s1 (Zpos p1) + cond_Zopp s2 (Zpos p2)) as [|z|z] eqn:Ez.
  - reflexivity.
  - assert (Hz : Zpos (digits2_pos z) <= 53) by (apply digits2_pos_le; lia).
    rewrite <- value_shl. cbn [binary_normalize double_of_int].
    rewrite binary_round_exact by assumption. symmetry. apply double_of_pos. assumption.
  - assert (Hz : Zpos (digits2_pos z) <= 53) by (apply digits2_pos_le; lia).
    replace (Zneg z * 2 ^ Z.of_nat J) with (Zneg (shl z J))
      by (rewrite <- !Pos2Z.opp_pos, value_shl; ring).
    cbn [binary_normalize double_of_int].
    rewrite binary_round_exact by assumption. symmetry. apply double_of_pos. assumption.
Qed.

End ExactArithmetic.

Section AffineRescale.
Context `{CTarget}.

Lemma signed_int (z : Z) : z <> 0 -> exists s p, z = cond_Zopp s (Zpos p) /\ Zpos p = Z.abs z.
Proof.
  destruct z as [|p|p]; intros Hz; [congruence | exists false, p | exists true, p]; auto.
Qed.

Lemma digits_of_abs p : Zpos p < 2 ^ 53 -> Zpos (digits2_pos p) <= 53.
Proof. intros Hp. apply digits2_pos_le; lia. Qed.

(** The sum and the product the transform computes are exact on integers
    whose product and sum fit in 53 bits. *)
Lemma affine_double_exact (a b v : Z) :
  Z.abs a < 2 ^ 53 -> Z.abs (b * v) < 2 ^ 53 -> Z.abs (a + b * v) < 2 ^ 53 ->
  Z.abs b < 2 ^ 53 -> Z.abs v < 2 ^ 53 ->
  dadd (double_of_int a) (dmul (double_of_int b) (double_of_int v))
  = double_of_int (a + b * v).
Proof.
  intros Ha Hbv Hs Hb Hv.
  assert (Hprod : (b * v = 0 /\ exists s, dmul (double_of_int b) (double_of_int v) = S754_zero s)
                  \/ (b * v <> 0
                      /\ dmul (double_of_int b) (double_of_int v) = double_of_int (b * v))).
  { destruct (Z.eq_dec b 0) as [->|Hb0].
    { left. split; [reflexivity|]. change (double_of_int 0) with (S754_zero false).
      destruct (Z.eq_dec v 0) as [->|Hv0]; [eexists; reflexivity|].
      destruct (signed_int v Hv0) as (s & p & Ev & Hp).
      assert (Hq : Zpos p < 2 ^ 53) by lia. rewrite Ev.
      rewrite double_of_int_exact by (apply digits_of_abs; assumption).
      eexists. reflexivity. }
    destruct (Z.eq_dec v 0) as [->|Hv0].
    { left. split; [lia|].
      destruct (signed_int b Hb0) as (s & p & Eb & Hp).
      assert (Hq : Zpos p < 2 ^ 53) by lia. rewrite Eb.
      rewrite double_of_int_exact by (apply digits_of_abs; assumption).
      eexists. reflexivity. }
    right. split; [lia|].
    destruct (signed_int b Hb0) as (sb & pb & Eb & Hpb).
    destruct (signed_int v Hv0) as (sv & pv & Ev & Hpv).
    assert (Hpp : Zpos (pb * pv) < 2 ^ 53).
    { rewrite Pos2Z.inj_mul, Hpb, Hpv, <- Z.abs_mul. assumption. }
    assert (Hqb : Zpos pb < 2 ^ 53) by lia.
    assert (Hqv : Zpos pv < 2 ^ 53) by lia.
    rewrite Eb, Ev.
    rewrite !double_of_int_exact by (apply digits_of_abs; assumption).
    rewrite dmul_int_double by (apply digits_of_abs; assumption).
    rewrite <- double_of_int_exact by (apply digits_of_abs; assumption).
    f_equal. destruct sb, sv; cbn [cond_Zopp xorb]; lia. }
  destruct Hprod as [[Hz [s Hm]] | [Hnz Hm]]; rewrite Hm.
  - rewrite Hz, Z.add_0_r. destruct (Z.eq_dec a 0) as [->|Ha0].
    + destruct s; reflexivity.
    + destruct (signed_int a Ha0) as (sa & pa & Ea & Hpa).
      assert (Hq : Zpos pa < 2 ^ 53) by lia. rewrite Ea.
      rewrite double_of_int_exact by (apply digits_of_abs; assumption). reflexivity.
  - destruct (Z.eq_dec a 0) as [->|Ha0].
    + rewrite Z.add_0_l. destruct (signed_int (b * v) Hnz) as (sp & pp & Ep & Hpp).
      assert (Hp : Zpos pp < 2 ^ 53) by lia. rewrite Ep.
      rewrite double_of_int_exact by (apply digits_of_abs; assumption). reflexivity.
    + destruct (signed_int a Ha0) as (sa & pa & Ea & Hpa).
      destruct (signed_int (b * v) Hnz) as (sp & pp & Ep & Hpp).
      assert (Hp : Zpos pp < 2 ^ 53) by lia.
      assert (Hq : Zpos pa < 2 ^ 53) by lia.
      rewrite Ea, Ep in *.
      rewrite !double_of_int_exact by (apply digits_of_abs; assumption).
      apply dadd_int_double; try (apply digits_of_abs; assumption). assumption.
Qed.

Lemma rint_double_of_int (z : Z) :
  Z.abs z < 2 ^ 53 ->
  rint (double_of_int z) = double_of_int z
  /\ trunc_double (double_of_int z) = Some z.
Proof.
  intros Hz. destruct (Z.eq_dec z 0) as [->|Hz0]; [split; reflexivity|].
  destruct (signed_int z Hz0) as (s & p & Ez & Hp).
  assert (Hq : Zpos p < 2 ^ 53) by lia. rewrite Ez.
  rewrite double_of_int_exact by (apply digits_of_abs; assumption).
  split; [apply rint_int_double | apply trunc_int_double]; apply digits_of_abs; assumption.
Qed.

Lemma scale_sample_affine (cfg : Config) (a b v : Z) :
  alpha cfg = double_of_int a -> beta cfg = double_of_int b ->
  Z.abs a < 2 ^ 53 -> Z.abs b < 2 ^ 53 -> Z.abs v < 2 ^ 53 ->
  Z.abs (b * v) < 2 ^ 53 -> Z.abs (a + b * v) < 2 ^ 53 ->
  scale_sample cfg v =
    if (INT_MIN <=? a + b * v) && (a + b * v <=? INT_MAX) then a + b * v
    else int_of_unrepresentable (double_of_int (a + b * v)).
Proof.
  intros Ea Eb Ha Hb Hv Hbv Hs. unfold scale_sample. rewrite Ea, Eb.
  rewrite affine_double_exact by assumption.
  destruct (rint_double_of_int (a + b * v) Hs) as [-> Ht].
  unfold int_of_double. rewrite Ht. reflexivity.
Qed.

End AffineRescale.

(** ** More on the transform *)

Section TransformExtras.
Context `{CTarget} `{Libmseed}.
Variable cfg : Config.
Variable record_handler : block -> M unit.

(** X3.  The guards test [samplecnt], the loop runs to [numsamples]: of an
    eligible record exactly the first [numsamples] slots of the buffer are
    rewritten, none when [numsamples] is zero or negative, and the record is
    repacked all the same. *)
Theorem transform_runs_to_numsamples (r : MSRecord) (w : World) :
  eligible r = true ->
  numsamples r <= Z.of_nat (length (datasamples r)) ->
  let n := Z.to_nat (numsamples r) in
  let r' :=
    set_datasamples
      (map (scale_sample cfg) (take n (datasamples r)) ++ drop n (datasamples r))
      (reoriented cfg r) in
  scale_record cfg record_handler (Some r) w =
    (let '(res, w') := repack record_handler r' w in (res, Some r', w'))
  /\ (numsamples r <= 0 -> datasamples r' = datasamples r).
Proof.
  intros He Hn n r'. split.
  - apply scale_record_within; assumption.
  - intros Hz. unfold r', n. cbn [datasamples set_datasamples].
    replace (Z.to_nat (numsamples r)) with 0%nat by lia. reflexivity.
Qed.

Lemma scale_samples_affine (a b : Z) (l : list Z) :
  alpha cfg = double_of_int a ->
  beta cfg = double_of_int b ->
  INT_MIN <= a <= INT_MAX ->
  INT_MIN <= b <= INT_MAX ->
  Forall (fun v => INT_MIN <= v <= INT_MAX /\ INT_MIN <= a + b * v <= INT_MAX) l ->
  map (scale_sample cfg) l = map (fun v => a + b * v) l.
Proof.
  intros Ea Eb Ha Hb Hall.
  induction Hall as [|v l [Hv Hr] _ IH]; [reflexivity|].
  cbn [map]. rewrite IH. f_equal.
  unfold INT_MIN, INT_MAX in *.
  rewrite (scale_sample_affine cfg a b v Ea Eb) by lia.
  unfold INT_MIN, INT_MAX.
  replace (-2147483648 <=? a + b * v) with true by (symmetry; apply Z.leb_le; lia).
  replace (a + b * v <=? 2147483647) with true by (symmetry; apply Z.leb_le; lia).
  reflexivity.
Qed.

(** X1.  With an integer offset [a] and an integer factor [b], an eligible
    record of [int] samples whose rescaled values are [int]s comes out with
    every sample [v] replaced by [a + b * v] exactly: neither the product,
    nor the sum, nor [rint] rounds. *)
Theorem integer_rescale_is_exact (a b : Z) (r : MSRecord) (w : World) :
  alpha cfg = double_of_int a ->
  beta cfg = double_of_int b ->
  INT_MIN <= a <= INT_MAX ->
  INT_MIN <= b <= INT_MAX ->
  eligible r = true ->
  numsamples r = Z.of_nat (length (datasamples r)) ->
  Forall (fun v => INT_MIN <= v <= INT_MAX /\ INT_MIN <= a + b * v <= INT_MAX)
         (datasamples r) ->
  exists r',
    (scale_record cfg record_handler (Some r) w).1.2 = Some r'
    /\ datasamples r' = map (fun v => a + b * v) (datasamples r).
Proof.
  intros Ea Eb Ha Hb He Hwf Hall. eexists.
  split; [apply scale_record_transformed; assumption|].
  cbn [set_datasamples datasamples]. apply scale_samples_affine; assumption.
Qed.

(** X2.  A rescaled value outside [int] is not detected: the slot receives
    what the target makes of the conversion, the other slots are rescaled
    as usual, and the record is repacked as if nothing had happened. *)
Theorem rescale_overflow_is_unchecked (a b v : Z) (n : nat) (r : MSRecord) (w : World) :
  alpha cfg = double_of_int a ->
  beta cfg = double_of_int b ->
  INT_MIN <= a <= INT_MAX ->
  INT_MIN <= b <= INT_MAX ->
  eligible r = true ->
  numsamples r = Z.of_nat (length (datasamples r)) ->
  datasamples r !! n = Some v ->
  INT_MIN <= v <= INT_MAX ->
  Z.abs (b * v) < 2 ^ 52 ->
  a + b * v < INT_MIN \/ INT_MAX < a + b * v ->
  datasamples (transformed cfg r) !! n
  = Some (int_of_unrepresentable (double_of_int (a + b * v)))
  /\ scale_record cfg record_handler (Some r) w =
       (let '(res, w') := repack record_handler (transformed cfg r) w in
        (res, Some (transformed cfg r), w')).
Proof.
  intros Ea Eb Ha Hb He Hwf Hn Hv Hbv Hout. split.
  - unfold transformed. cbn [set_datasamples datasamples].
    rewrite list_lookup_fmap, Hn. cbn [fmap option_fmap option_map]. f_equal.
    unfold INT_MIN, INT_MAX in *.
    rewrite (scale_sample_affine cfg a b v Ea Eb) by lia.
    unfold INT_MIN, INT_MAX. destruct Hout as [Hlo | Hhi].
    + replace (-2147483648 <=? a + b * v) with false by (symmetry; apply Z.leb_gt; lia).
      reflexivity.
    + replace (a + b * v <=? 2147483647) with false by (symmetry; apply Z.leb_gt; lia).
      rewrite andb_false_r. reflexivity.
  - apply scale_record_whole; assumption.
Qed.

End TransformExtras.

(** ** What the record handlers send out *)



Lemma for_each_ext {A} (f g : A -> M unit) (l : list A) w :
  (forall x w, f x w = g x w) -> for_each f l w = for_each g l w.
Proof.
  intros Hfg. revert w. induction l as [|x l IH]; intros w; [reflexivity|].
  cbn [for_each]. unfold bind. rewrite Hfg.
  destruct (g x w) as [[[]| |] w1]; [apply IH | reflexivity | reflexivity].
Qed.

Lemma msscale_writes (records : list block) (answers rest : list bool) (w : World) :
  disk w = answers ++ rest ->
  length answers = length records ->
  for_each msscale.record_handler records w =
    (Done tt,
     mkWorld (trace w ++ fwrite_events records answers) (terminate w) (dl_link w)
             (handler_msr w) (heap w) rest (net w)).
Proof.
  revert answers w. induction records as [|record records IH]; intros answers w Hd Hl.
  - destruct answers; [|discriminate Hl]. cbn [app] in Hd. subst rest.
    cbn [for_each]. unfold ret, fwrite_events. cbn [zip_with concat].
    rewrite app_nil_r. destruct w; reflexivity.
  - destruct answers as [|ok answers]; [discriminate Hl|].
    injection Hl as Hl. cbn [for_each]. unfold bind at 1.
    unfold msscale.record_handler, bind, fwrite. rewrite Hd. cbn [app].
    destruct ok.
    + unfold ret. rewrite (IH answers) by (cbn [disk emit set_disk]; auto).
      cbn [trace emit set_disk terminate dl_link handler_msr heap net].
      unfold fwrite_events. cbn [zip_with concat app]. rewrite <- app_assoc. reflexivity.
    + unfold ms_log, act. rewrite (IH answers) by (cbn [disk emit set_disk]; auto).
      cbn [trace emit set_disk terminate dl_link handler_msr heap net].
      unfold fwrite_events. cbn [zip_with concat app]. rewrite <- !app_assoc. reflexivity.
Qed.

Section BatchExtras.
Context `{CTarget} `{Libmseed}.
Variable cfg : Config.

Lemma msscale_repack (r : MSRecord) (answers rest : list bool) (h : list bool) (w : World) :
  heap w = true :: h ->
  disk w = answers ++ rest ->
  length answers = length (packed_records r) ->
  repack msscale.record_handler r w =
    (Done (int_of_long (packed_samples r)),
     mkWorld (trace w
              ++ [EvInitGroup true; EvAddMsr r; EvPrintTraceList; EvPackGroup 512 DE_STEIM2]
              ++ fwrite_events (packed_records r) answers ++ [EvFreeGroup])
             (terminate w) (dl_link w) (handler_msr w) h rest (net w)).
Proof.
  intros Hh Hd Hl. rewrite (repack_granted _ r w h Hh). unfold bind at 1.
  rewrite (msscale_writes _ answers rest) by (cbn [disk emit set_heap]; auto).
  unfold bind, act, ret. unfold emit at 1.
  cbn [trace emit set_heap terminate dl_link handler_msr heap disk net].
  rewrite <- !app_assoc. reflexivity.
Qed.

(** X4.  msscale, on an eligible record whose buffer holds [numsamples]
    samples: the group is allocated, the record added, listed and packed,
    every record packed is written to standard output in order, and the group
    is released.  A write that fails is followed by a complaint and by the
    next write: the value returned is the packed count all the same. *)
Theorem msscale_write_failures_are_only_logged
    (r : MSRecord) (answers rest h : list bool) (w : World) :
  eligible r = true ->
  numsamples r = Z.of_nat (length (datasamples r)) ->
  0 <= packed_samples (transformed cfg r) <= INT_MAX ->
  heap w = true :: h ->
  disk w = answers ++ rest ->
  length answers = length (packed_records (transformed cfg r)) ->
  scale_record cfg msscale.record_handler (Some r) w =
    (Done (packed_samples (transformed cfg r)), Some (transformed cfg r),
     mkWorld (trace w
              ++ [EvInitGroup true; EvAddMsr (transformed cfg r); EvPrintTraceList;
                  EvPackGroup 512 DE_STEIM2]
              ++ fwrite_events (packed_records (transformed cfg r)) answers
              ++ [EvFreeGroup])
             (terminate w) (dl_link w) (handler_msr w) h rest (net w)).
Proof.
  intros He Hwf Hc Hh Hd Hl. rewrite scale_record_whole by assumption.
  rewrite (msscale_repack _ answers rest h) by assumption.
  rewrite int_of_long_small by (unfold INT_MIN; lia). reflexivity.
Qed.



End BatchExtras.

Section BatchRuns.
Context `{CTarget} `{Libmseed}.
Variable cfg : Config.





(** X6.  msscale, when the trace group cannot be allocated for an eligible
    record: nothing is written for it, the rest of the file is not read
    whatever it holds, the file is reported with "error reading stdin" and
    the run goes on to the next file. *)
Theorem msscale_allocation_failure_abandons_file (r : MSRecord) (recs : list MSRecord)
    (ending : msscale.ms_rc) (h : list bool) (w : World) :
  eligible r = true ->
  numsamples r <= Z.of_nat (length (datasamples r)) ->
  heap w = false :: h ->
  exists w',
    msscale.read_file cfg (msscale.mkFile (r :: recs) ending) w = (Done tt, w')
    /\ trace w' =
         trace w
         ++ (if verbose cfg =? 0 then [] else [EvLog 0 "process miniseed data from %s"])
         ++ (if 1 <? verbose cfg then [EvMsrPrint (Some r) (2 <? verbose cfg)] else [])
         ++ [EvInitGroup false; EvLog 2 "error reading stdin: %s"]
    /\ heap w' = h /\ disk w' = disk w.
Proof.
  intros He Hn Hh.
  unfold msscale.read_file. cbn [msscale.records msscale.ending msscale.read_loop].
  unfold bind, when, ms_log, msr_print, act, ret, call_scale_record.
  destruct (verbose cfg =? 0); cbn [negb]; destruct (1 <? verbose cfg);
    rewrite scale_record_within by assumption;
    (erewrite repack_refused by (cbn [heap emit]; exact Hh));
    cbn [fst Z.ltb Z.compare]; eexists; (split; [reflexivity|]);
    cbn [trace heap disk emit set_heap]; rewrite <- ?app_assoc; auto.
Qed.

End BatchRuns.

(** ** More on the collecting loop of slscale *)

Lemma scale_record_ext `{CTarget} `{Libmseed} (cfg : Config) (f g : block -> M unit)
    (msr : option MSRecord) (w : World) :
  (forall record w, f record w = g record w) ->
  scale_record cfg f msr w = scale_record cfg g msr w.
Proof.
  intros Hfg. unfold scale_record. destruct msr as [r|]; [|reflexivity].
  repeat (match goal with |- context [if ?b then _ else _] => destruct b end;
          try reflexivity).
  destruct (scale_loop _ _ _ _) as [[|] buf]; [|reflexivity].
  unfold repack, bind. destruct (mst_initgroup w) as [[[g0|]| |] w1]; try reflexivity.
  unfold act. destruct (mst_packgroup _ _ _) as [[records precords] psamples].
  rewrite (for_each_ext f g) by exact Hfg. reflexivity.
Qed.

Section HandlerEvents.
Context `{CTarget} `{Libmseed}.
Variable cfg : Config.
Variable kind : event -> bool.
Hypothesis Hkind : forall e, from_handler e = true -> kind e = false.

Lemma unheard_act e : from_handler e = true -> silent kind (act e).
Proof. intros He. apply silent_act, Hkind, He. Qed.

Lemma unheard_emit e w :
  from_handler e = true -> count kind (trace (emit e w)) = count kind (trace w).
Proof. intros He. rewrite count_emit, (Hkind e He). lia. Qed.

Lemma unheard_dl_write_loop script record streamid start endtime :
  silent kind (slscale.dl_write_loop cfg script record streamid start endtime).
Proof.
  induction script as [|[|link_open connect_ok signal] script IH]; cbn [slscale.dl_write_loop].
  - intros w. reflexivity.
  - intros w. cbn [snd]. rewrite unheard_emit by reflexivity. reflexivity.
  - apply silent_bind.
    + intros w. cbn [snd]. rewrite unheard_emit by reflexivity. reflexivity.
    + intros _. apply silent_bind.
      * unfold slscale.reconnect, slscale.dl_disconnect, slscale.dl_connect, slscale.sleep, ms_log.
        repeat (apply silent_bind; [|intros ?]);
          try (apply silent_when); try (apply silent_bind; [|intros ?]);
          try (apply unheard_act; reflexivity).
        -- apply silent_state. reflexivity.
        -- apply silent_state. intros w. destruct signal; reflexivity.
        -- intros w. reflexivity.
      * intros [|]; [apply silent_ret | exact IH].
Qed.

Lemma unheard_slscale_handler record : silent kind (slscale.record_handler cfg record).
Proof.
  intros w. unfold slscale.record_handler.
  change (count kind (trace w)) with (count kind (trace ((ret tt : M unit) w).2)).
  apply (silent_bind kind
           (when (0 <? verbose cfg) (msr_print (handler_msr w) (2 <? verbose cfg)))).
  - apply silent_when, unheard_act. reflexivity.
  - intros _. destruct (datalink cfg).
    + apply silent_bind; [apply silent_state; reflexivity|].
      intros _. destruct (msr_unpack record false); try (apply unheard_act; reflexivity).
      intros w1. apply unheard_dl_write_loop.
    + apply silent_bind; [apply silent_fwrite; intros ok; apply Hkind; reflexivity|].
      intros [|]; [apply silent_ret | apply unheard_act; reflexivity].
Qed.

Lemma unheard_msscale_handler record : silent kind (msscale.record_handler record).
Proof.
  unfold msscale.record_handler.
  apply silent_bind; [apply silent_fwrite; intros ok; apply Hkind; reflexivity|].
  intros [|]; [apply silent_ret | apply unheard_act; reflexivity].
Qed.

End HandlerEvents.

Section PackingCount.
Context `{CTarget} `{Libmseed}.
Variable cfg : Config.
Variable handler : block -> M unit.
Hypothesis Hhandler : forall record, silent is_pack (handler record).

(** A repacking that returns a count has packed once. *)
Lemma repack_packs_once r w rv w' :
  repack handler r w = (Done rv, w') -> 0 <= rv -> packs w' = S (packs w).
Proof.
  intros Hrun Hrv. destruct (heap w) as [|[|] h] eqn:Hh.
  - rewrite repack_starved in Hrun by assumption. discriminate Hrun.
  - rewrite (repack_granted handler r w h Hh) in Hrun.
    apply bind_done in Hrun as ([] & w1 & Heach & Hrun).
    unfold bind, act, ret in Hrun. injection Hrun as _ <-.
    unfold packs. rewrite count_emit.
    rewrite (silent_run _ _ _ _ _ (silent_for_each _ _ _ Hhandler) Heach).
    rewrite !count_emit. cbn [is_pack trace set_heap]. lia.
  - rewrite (repack_refused handler r w h Hh) in Hrun. injection Hrun as <- _. lia.
Qed.

Lemma call_scale_record_packs msr res w w' :
  call_scale_record cfg handler msr w = (Done res, w') -> 0 <= res.1 ->
  packs w' = (packs w + match msr with
                        | Some r => if eligible r then 1 else 0
                        | None => 0
                        end)%nat.
Proof.
  unfold call_scale_record. intros Hrun Hrv. destruct msr as [r|]; [|discriminate Hrun].
  destruct (eligible r) eqn:He.
  - rewrite scale_record_eligible in Hrun by assumption. cbv zeta in Hrun.
    destruct (scale_loop _ _ _ _) as [[|] buf]; [|discriminate Hrun].
    destruct (repack handler _ w) as [[rv| |] w1] eqn:Hr; try discriminate Hrun.
    injection Hrun as <- <-. cbn [fst] in Hrv.
    rewrite (repack_packs_once _ _ _ _ Hr Hrv). lia.
  - rewrite scale_record_ineligible in Hrun by assumption. injection Hrun as _ <-. lia.
Qed.

End PackingCount.

Section StreamingExtras.
Context `{CTarget} `{Libmseed}.
Variable cfg : Config.

Lemma collect_step_packs slpack c w m c' w' :
  slscale.collect_step cfg slpack None c w = (Done (slscale.Continue m c'), w') ->
  packs w' = (packs w + if scalable slpack then 1 else 0)%nat.
Proof.
  intros Hrun. unfold slscale.collect_step in Hrun.
  apply bind_done in Hrun as ([] & w1 & H1 & Hrun).
  apply bind_done in Hrun as ([] & w2 & H2 & Hrun).
  apply bind_done in Hrun as (res & w3 & H3 & Hrun).
  assert (Hw3 : packs w' = packs w3).
  { destruct (is_SLDATA _ && (res.1 <? 0)); [discriminate Hrun|].
    destruct (statefile cfg); [destruct (stateint cfg =? 0); [|destruct (_ <=? _)]|];
      unfold bind, slscale.sl_savestate, act, ret in Hrun; injection Hrun as _ _ <-;
      unfold packs; rewrite ?count_emit; cbn [is_pack]; lia. }
  rewrite Hw3. unfold packs in *.
  rewrite <- (silent_run _ _ _ _ _ (silent_when _ _ _ (silent_act _ _ eq_refl)) H1).
  rewrite <- (silent_run _ _ _ _ _ (silent_when _ _ _ (silent_act _ _ eq_refl)) H2).
  unfold scalable. destruct (is_SLDATA (sl_packettype slpack)) eqn:Hd; cbn [andb] in *.
  - destruct (res.1 <? 0) eqn:Hneg; [discriminate Hrun|]. apply Z.ltb_ge in Hneg.
    pose proof (call_scale_record_packs cfg (slscale.record_handler cfg)
                  (unheard_slscale_handler cfg is_pack ltac:(intros []; cbn; congruence))
                  _ _ _ _ H3 Hneg) as Hp.
    unfold packs in Hp. rewrite Hp.
    destruct (unpack_into _ None) as [r|]; reflexivity.
  - injection H3 as _ <-. lia.
Qed.

(** X7.  The collecting loop of slscale packs once for every data packet
    whose record goes through the guards of [scale_record], and for no other
    packet: after a run of packets none of which broke the loop, the number
    of packings has grown by the number of such packets. *)
Theorem one_packing_per_scalable_packet (pkts : list SLpacket) (c c' : Z)
    (m : option MSRecord) (w w' : World) :
  slscale.collect_loop cfg pkts None c w = (Done (slscale.Continue m c'), w') ->
  packs w' = (packs w + length (List.filter scalable pkts))%nat.
Proof.
  revert c w. induction pkts as [|slpack pkts IH]; intros c w Hrun;
    cbn [slscale.collect_loop] in Hrun.
  - injection Hrun as _ _ <-. cbn. lia.
  - apply bind_done in Hrun as (s & w1 & Hstep & Hrest).
    destruct (collect_step_frees _ _ _ _ _ _ _ Hstep) as [c1 [-> | ->]];
      [|discriminate Hrest].
    rewrite (IH _ _ Hrest), (collect_step_packs _ _ _ _ _ _ Hstep).
    cbn [List.filter]. destruct (scalable slpack); cbn [length]; lia.
Qed.

End StreamingExtras.

Section CheckpointExtras.
Context `{CTarget} `{Libmseed}.
Variable cfg : Config.

Lemma silent_collect_step slpack msr c :
  statefile cfg = None \/ stateint cfg = 0 ->
  silent is_save (slscale.collect_step cfg slpack msr c).
Proof.
  intros Hoff. unfold slscale.collect_step, sl_log, msr_print.
  apply silent_bind; [apply silent_when, silent_act; reflexivity|]. intros _.
  apply silent_bind; [apply silent_when, silent_act; reflexivity|]. intros _.
  apply silent_bind; [apply silent_scaling|]. intros res.
  destruct (is_SLDATA _ && (res.1 <? 0)); [apply silent_ret|].
  destruct Hoff as [-> | Hz]; [apply silent_ret|].
  destruct (statefile cfg); [|apply silent_ret].
  rewrite Hz. apply silent_ret.
Qed.

Lemma silent_collect_loop pkts msr c :
  statefile cfg = None \/ stateint cfg = 0 ->
  silent is_save (slscale.collect_loop cfg pkts msr c).
Proof.
  intros Hoff. revert msr c. induction pkts as [|slpack pkts IH]; intros msr c;
    cbn [slscale.collect_loop]; [apply silent_ret|].
  apply silent_bind; [apply silent_collect_step, Hoff|].
  intros [m1 c1|m1 c1]; [apply IH | apply silent_ret].
Qed.

(** X8.  With no state file, or with an interval of zero, the collecting
    loop of slscale never saves the state.  [main] then saves it at most
    once, in its closing lines, and not at all without a state file. *)
Theorem no_checkpoint_when_switched_off (s : slscale.Stream) (msr : option MSRecord)
    (c : Z) (w : World) :
  statefile cfg = None \/ stateint cfg = 0 ->
  saves (slscale.collect_loop cfg (slscale.packets s) msr c w).2 = saves w
  /\ (saves (slscale.main cfg s w).2 <= saves w + 1)%nat
  /\ (statefile cfg = None -> saves (slscale.main cfg s w).2 = saves w).
Proof.
  intros Hoff. split; [apply silent_collect_loop, Hoff|].
  pose proof (silent_collect_loop (slscale.packets s) None 0 Hoff w) as Hloop.
  unfold slscale.main, bind, saves in *.
  destruct (slscale.collect_loop cfg (slscale.packets s) None 0 w) as [[left| |] w1];
    cbn [snd] in *; [|split; [lia | intros _; exact Hloop]..].
  match goal with
  | |- context [slscale.closing cfg ?o ?w0] =>
      destruct (closing_saves cfg o w0) as (w3 & -> & _ & Hs);
      assert (Hw0 : count is_save (trace w0) = count is_save (trace w1))
        by (destruct left; [destruct (slscale.interrupted s)|]; reflexivity)
  end.
  unfold saves in Hs. cbn [snd]. rewrite Hs, Hw0, Hloop. split.
  - destruct (statefile cfg); [destruct (terminate _)|]; lia.
  - intros ->. lia.
Qed.

Lemma collect_step_eager sf slpack msr c w m c' w' :
  statefile cfg = Some sf -> stateint cfg <> 0 -> stateint cfg <= c + 1 ->
  slscale.collect_step cfg slpack msr c w = (Done (slscale.Continue m c'), w') ->
  c' = 0 /\ saves w' = S (saves w).
Proof.
  intros Hsf Hnz Hle Hrun. apply collect_step_done in Hrun as (res & w3 & Hs & Hrun).
  destruct (is_SLDATA _ && (res.1 <? 0)); [discriminate Hrun|].
  rewrite Hsf in Hrun.
  destruct (stateint cfg =? 0) eqn:E0; [apply Z.eqb_eq in E0; contradiction|].
  destruct (stateint cfg <=? c + 1) eqn:En; [|apply Z.leb_gt in En; lia].
  unfold bind, slscale.sl_savestate, act, ret in Hrun.
  injection Hrun as _ <- <-. split; [reflexivity|].
  unfold saves in *. rewrite count_emit, Hs. cbn [is_save]. lia.
Qed.

(** X9.  With a state file and an interval below one that is not zero, a
    negative one for instance, the collecting loop saves the state after
    every packet: the counter never leaves zero. *)
Theorem negative_interval_saves_every_packet (sf : string) (pkts : list SLpacket)
    (m : option MSRecord) (c : Z) (w w' : World) :
  statefile cfg = Some sf ->
  stateint cfg <> 0 ->
  stateint cfg <= 1 ->
  slscale.collect_loop cfg pkts None 0 w = (Done (slscale.Continue m c), w') ->
  saves w' = (saves w + length pkts)%nat /\ c = 0.
Proof.
  intros Hsf Hnz Hle. revert w. induction pkts as [|slpack pkts IH]; intros w Hrun;
    cbn [slscale.collect_loop] in Hrun.
  - injection Hrun as _ <- <-. cbn [length]. split; [lia | reflexivity].
  - apply bind_done in Hrun as (s & w1 & Hstep & Hrest).
    destruct (collect_step_frees _ _ _ _ _ _ _ Hstep) as [c1 [-> | ->]];
      [|discriminate Hrest].
    destruct (collect_step_eager sf slpack None 0 w None c1 w1 Hsf Hnz ltac:(lia) Hstep)
      as [-> Hs].
    destruct (IH w1 Hrest) as [IHs IHc]. rewrite IHs, Hs. cbn [length]. split; [lia | exact IHc].
Qed.

(** X10.  slscale, when the trace group cannot be allocated for the record
    of a data packet: the collecting loop is left at once, with nothing
    packed or forwarded for that packet and the packets that would follow
    never collected, and [main] goes straight to its closing lines, where the
    state is saved only if the terminate flag was already set. *)
Theorem slscale_allocation_failure_stops_collecting (slpack : SLpacket)
    (pkts : list SLpacket) (r : MSRecord) (h : list bool)
    (interrupted sl_open : bool) (w : World) :
  sl_packettype slpack = SLDATA ->
  msr_unpack (msrecord slpack) true = Unpacked r ->
  eligible r = true ->
  numsamples r <= Z.of_nat (length (datasamples r)) ->
  heap w = false :: h ->
  exists w',
    (forall c, slscale.collect_loop cfg (slpack :: pkts) None c w
               = (Done (slscale.Break None c), w'))
    /\ trace w' =
         trace w
         ++ (if 1 <? verbose cfg then [EvMsrPrint (Some r) (2 <? verbose cfg)] else [])
         ++ [EvInitGroup false]
    /\ heap w' = h
    /\ terminate w' = terminate w
    /\ slscale.main cfg (slscale.mkStream (slpack :: pkts) interrupted sl_open) w
       = slscale.closing cfg sl_open w'.
Proof.
  intros Hdata Hunpack He Hn Hh.
  assert (Hloop : exists w',
    (forall c, slscale.collect_loop cfg (slpack :: pkts) None c w
               = (Done (slscale.Break None c), w'))
    /\ trace w' =
         trace w
         ++ (if 1 <? verbose cfg then [EvMsrPrint (Some r) (2 <? verbose cfg)] else [])
         ++ [EvInitGroup false]
    /\ heap w' = h /\ terminate w' = terminate w).
  { cbn [slscale.collect_loop]. unfold slscale.collect_step. rewrite Hdata, Hunpack.
    cbn [unpack_ok negb unpack_into is_SLDATA].
    unfold bind, when, sl_log, msr_print, act, ret, call_scale_record.
    destruct (1 <? verbose cfg);
      rewrite scale_record_within by assumption;
      (erewrite repack_refused by (cbn [heap emit]; exact Hh));
      cbn [fst Z.ltb Z.compare andb]; eexists; (split; [reflexivity|]);
      cbn [trace heap terminate emit set_heap]; rewrite <- ?app_assoc; auto. }
  destruct Hloop as (w' & Hrun & Ht & Hh' & Hterm).
  exists w'. repeat (split; [assumption|]).
  unfold slscale.main, slscale.packets, slscale.interrupted, slscale.sl_link_open.
  unfold bind at 1. rewrite Hrun. unfold bind at 1. reflexivity.
Qed.

(** X11.  Without a DataLink destination and with [verbose] not above
    zero, the record handler of slscale is the record handler of msscale, and
    [scale_record] does in slscale what it does in msscale. *)
Theorem direct_mode_is_msscale (msr : option MSRecord) (record : block) (w : World) :
  datalink cfg = None ->
  verbose cfg <= 0 ->
  slscale.record_handler cfg record w = msscale.record_handler record w
  /\ scale_record cfg (slscale.record_handler cfg) msr w
     = scale_record cfg msscale.record_handler msr w.
Proof.
  intros Hdl Hv.
  assert (Hsame : forall record w,
             slscale.record_handler cfg record w = msscale.record_handler record w).
  { intros record0 w0. unfold slscale.record_handler, msscale.record_handler.
    rewrite Hdl. replace (0 <? verbose cfg) with false by (symmetry; apply Z.ltb_ge; lia).
    reflexivity. }
  split; [apply Hsame | apply scale_record_ext, Hsame].
Qed.

End CheckpointExtras.

Section ForwardingExtras.
Context `{Libmseed}.
Variable cfg : Config.

Lemma terminated_handler_tries_once (d : string) (record : block) (a : Attempt)
    (script : list Attempt) (w : World) :
  datalink cfg = Some d ->
  terminate w = true ->
  unpack_ok (msr_unpack record false) = true ->
  net w = a :: script ->
  exists w',
    slscale.record_handler cfg record w = (Done tt, w')
    /\ count is_dl_write (trace w') = S (count is_dl_write (trace w))
    /\ count is_delivery (trace w')
       = (count is_delivery (trace w) + if is_accepted a then 1 else 0)%nat
    /\ net w' = script /\ terminate w' = true.
Proof.
  intros Hdl Ht Hu Hnet. unfold slscale.record_handler. rewrite Hdl.
  destruct (msr_unpack record false) as [r| |r]; try discriminate Hu.
  unfold bind at 1.
  set (w0 := (when (0 <? verbose cfg) (msr_print (handler_msr w) (2 <? verbose cfg)) w).2).
  assert (Hw0 : when (0 <? verbose cfg) (msr_print (handler_msr w) (2 <? verbose cfg)) w
                = (Done tt, w0)).
  { unfold w0, when, msr_print, act, ret. destruct (0 <? verbose cfg); reflexivity. }
  assert (Hf : count is_dl_write (trace w0) = count is_dl_write (trace w)
               /\ count is_delivery (trace w0) = count is_delivery (trace w)
               /\ net w0 = net w /\ terminate w0 = terminate w).
  { unfold w0, when, msr_print, act, ret. destruct (0 <? verbose cfg); cbn [snd];
      rewrite ?count_emit; cbn [is_dl_write is_delivery net terminate emit];
      repeat split; lia. }
  destruct Hf as (Hc1 & Hc2 & Hn0 & Ht0). rewrite Hw0. clearbody w0.
  rewrite <- Hc1, <- Hc2. rewrite <- Hn0 in Hnet. rewrite <- Ht0 in Ht. clear Hc1 Hc2 Hn0 Ht0 Hw0.
  unfold bind at 1. cbn [net set_handler_msr]. rewrite Hnet.
  destruct a as [|link_open connect_ok signal]; cbn [slscale.dl_write_loop is_accepted].
  - eexists. split; [reflexivity|]. rewrite !count_emit.
    cbn [is_dl_write is_delivery trace net terminate emit set_net set_handler_msr].
    repeat split; try lia. exact Ht.
  - unfold bind, slscale.reconnect, bind, when, ms_log, slscale.dl_disconnect,
      slscale.dl_connect, slscale.sleep, act, ret, term_handler.
    destruct (negb (verbose cfg =? 0)), link_open, connect_ok, signal; cbn [negb];
      cbn [terminate emit set_net set_handler_msr set_dl_link set_terminate];
      rewrite ?Ht; eexists; (split; [reflexivity|]);
      repeat first [rewrite count_emit
                   | progress cbn [trace net terminate emit set_net set_handler_msr
                                   set_dl_link set_terminate]];
      rewrite ?count_app, ?count_cons, ?count_nil;
      cbn [is_dl_write is_delivery]; repeat split; try lia; try reflexivity; try assumption.
Qed.

(** X12.  Once the terminate flag is set, slscale in forwarding mode offers
    each record still to be handed over to the DataLink server exactly once:
    a record the server refuses then is not offered again, and the next
    record is. *)
Theorem terminated_forwarding_tries_once (d : string) (records : list block)
    (script rest : list Attempt) (w : World) :
  datalink cfg = Some d ->
  terminate w = true ->
  Forall (fun record => unpack_ok (msr_unpack record false) = true) records ->
  net w = script ++ rest ->
  length script = length records ->
  exists w',
    for_each (slscale.record_handler cfg) records w = (Done tt, w')
    /\ count is_dl_write (trace w') = (count is_dl_write (trace w) + length records)%nat
    /\ count is_delivery (trace w')
       = (count is_delivery (trace w) + length (List.filter is_accepted script))%nat
    /\ net w' = rest /\ terminate w' = true.
Proof.
  intros Hdl Ht Hall. revert script w Ht.
  induction Hall as [|record records Hu _ IH]; intros script w Ht Hnet Hlen.
  - destruct script; [|discriminate Hlen]. exists w. cbn [for_each length List.filter].
    unfold ret. repeat split; try lia; assumption.
  - destruct script as [|a script]; [discriminate Hlen|]. injection Hlen as Hlen.
    destruct (terminated_handler_tries_once d record a (script ++ rest) w Hdl Ht Hu Hnet)
      as (w1 & Hstep & Hc1 & Hd1 & Hn1 & Ht1).
    destruct (IH script w1 Ht1 Hn1 Hlen) as (w' & Hrun & Hc & Hdv & Hn & Ht').
    exists w'. cbn [for_each]. unfold bind. rewrite Hstep, Hrun, Hc, Hdv, Hc1, Hd1.
    cbn [List.filter length]. destruct (is_accepted a); cbn [length];
      repeat split; try lia; assumption.
Qed.

Lemma printed_app (a b : list event) : printed (a ++ b) = printed a ++ printed b.
Proof. unfold printed. rewrite map_app, concat_app. reflexivity. Qed.

Lemma handler_prints_static (d : string) (record : block) (script : list Attempt)
    (w : World) :
  0 < verbose cfg ->
  datalink cfg = Some d ->
  unpack_ok (msr_unpack record false) = true ->
  net w = Accepted :: script ->
  exists w',
    slscale.record_handler cfg record w = (Done tt, w')
    /\ printed (trace w') = printed (trace w) ++ [handler_msr w]
    /\ handler_msr w' = unpack_into (msr_unpack record false) None
    /\ net w' = script.
Proof.
  intros Hv Hdl Hu Hnet. unfold slscale.record_handler. rewrite Hdl.
  replace (0 <? verbose cfg) with true by (symmetry; apply Z.ltb_lt; exact Hv).
  destruct (msr_unpack record false) as [r| |r]; try discriminate Hu.
  unfold when, msr_print, bind, act. cbn [net emit set_handler_msr]. rewrite Hnet.
  cbn [slscale.dl_write_loop]. eexists. split; [reflexivity|].
  cbn [trace emit set_net set_handler_msr handler_msr net unpack_into].
  rewrite !printed_app. cbn. rewrite app_nil_r. auto.
Qed.

(** X20.  In forwarding mode with [verbose] above zero, the record handler
    of slscale prints its static record before it unpacks the record it is
    given: what is printed for a record is the record of the call before,
    and for the first record whatever the static pointer held, null at the
    start of the program. *)
Theorem handler_prints_previous_record (d : string) (records : list block)
    (rest : list Attempt) (w : World) :
  0 < verbose cfg ->
  datalink cfg = Some d ->
  Forall (fun record => unpack_ok (msr_unpack record false) = true) records ->
  net w = replicate (length records) Accepted ++ rest ->
  exists w',
    for_each (slscale.record_handler cfg) records w = (Done tt, w')
    /\ printed (trace w')
       = printed (trace w)
         ++ take (length records)
              (handler_msr w
               :: map (fun record => unpack_into (msr_unpack record false) None) records)
    /\ net w' = rest.
Proof.
  intros Hv Hdl Hall. revert w.
  induction Hall as [|record records Hu _ IH]; intros w Hnet.
  - exists w. cbn. rewrite app_nil_r. auto.
  - cbn [length replicate app] in Hnet.
    destruct (handler_prints_static d record _ w Hv Hdl Hu Hnet)
      as (w1 & Hstep & Hp1 & Hm1 & Hn1).
    destruct (IH w1 Hn1) as (w' & Hrun & Hp & Hn).
    exists w'. cbn [for_each]. unfold bind. rewrite Hstep, Hrun, Hp, Hp1, Hm1.
    cbn [length take map]. rewrite <- app_assoc. auto.
Qed.

End ForwardingExtras.

(** ** Where the records of slscale go *)

Lemma picked_app pick (a b : list event) : picked pick (a ++ b) = picked pick a ++ picked pick b.
Proof. unfold picked. rewrite map_app, concat_app. reflexivity. Qed.

Lemma picked_emit pick e w :
  picked pick (trace (emit e w)) = picked pick (trace w) ++ pick e.
Proof.
  unfold emit. cbn [trace]. rewrite picked_app. unfold picked. cbn [map concat].
  rewrite app_nil_r. reflexivity.
Qed.

Section Sink.
Context `{CTarget} `{Libmseed}.
Variable cfg : Config.
Variable pick : event -> list block.
Variable ready : nat -> World -> Prop.
Variable good : block -> Prop.
Hypothesis pick_other :
  forall e, is_fwrite e = false -> is_dl_write e = false -> pick e = [].
Hypothesis ready_emit : forall n e w, ready n w -> ready n (emit e w).
Hypothesis ready_heap : forall n h w, ready n w -> ready n (set_heap h w).
Hypothesis handler_delivers :
  forall record n w,
    good record -> ready (S n) w ->
    exists w',
      slscale.record_handler cfg record w = (Done tt, w')
      /\ picked pick (trace w') = picked pick (trace w) ++ [record]
      /\ ready n w' /\ heap w' = heap w.

Lemma sink_act e n w :
  is_fwrite e = false -> is_dl_write e = false -> ready n w ->
  picked pick (trace (emit e w)) = picked pick (trace w)
  /\ ready n (emit e w) /\ heap (emit e w) = heap w.
Proof.
  intros Hf Hd Hr. rewrite picked_emit, (pick_other e Hf Hd), app_nil_r. auto.
Qed.

Lemma sink_when b e n w :
  is_fwrite e = false -> is_dl_write e = false -> ready n w ->
  exists w1,
    when b (act e) w = (Done tt, w1)
    /\ picked pick (trace w1) = picked pick (trace w)
    /\ ready n w1 /\ heap w1 = heap w.
Proof.
  intros Hf Hd Hr. destruct b; cbn [when]; unfold act, ret; eexists;
    (split; [reflexivity|]); [apply sink_act; assumption | auto].
Qed.

Lemma sink_for_each records n w :
  Forall good records ->
  ready (length records + n) w ->
  exists w',
    for_each (slscale.record_handler cfg) records w = (Done tt, w')
    /\ picked pick (trace w') = picked pick (trace w) ++ records
    /\ ready n w' /\ heap w' = heap w.
Proof.
  intros Hg. revert w. induction Hg as [|record records Hrec _ IH]; intros w Hr.
  - exists w. rewrite app_nil_r. auto.
  - cbn [length Nat.add] in Hr.
    destruct (handler_delivers record _ w Hrec Hr) as (w1 & Hstep & Hp1 & Hr1 & Hh1).
    destruct (IH w1 Hr1) as (w' & Hrun & Hp & Hr' & Hh).
    exists w'. cbn [for_each]. unfold bind. rewrite Hstep, Hrun, Hp, Hp1, Hh, Hh1.
    rewrite <- app_assoc. auto.
Qed.

Lemma sink_repack r h n w :
  heap w = true :: h ->
  Forall good (packed_records r) ->
  ready (length (packed_records r) + n) w ->
  exists w',
    repack (slscale.record_handler cfg) r w = (Done (int_of_long (packed_samples r)), w')
    /\ picked pick (trace w') = picked pick (trace w) ++ packed_records r
    /\ ready n w' /\ heap w' = h.
Proof.
  intros Hh Hg Hr. rewrite (repack_granted _ r w h Hh).
  set (w0 := emit (EvPackGroup 512 DE_STEIM2)
               (emit EvPrintTraceList (emit (EvAddMsr r) (emit (EvInitGroup true)
                                                              (set_heap h w))))).
  assert (Hw0 : picked pick (trace w0) = picked pick (trace w)
               /\ ready (length (packed_records r) + n) w0 /\ heap w0 = h).
  { unfold w0. rewrite !picked_emit, !pick_other, !app_nil_r by reflexivity.
    split; [reflexivity|]. split; [|reflexivity].
    repeat apply ready_emit. apply ready_heap, Hr. }
  destruct Hw0 as (Hp0 & Hr0 & Hh0). clearbody w0.
  destruct (sink_for_each _ n w0 Hg Hr0) as (w1 & Hrun & Hp1 & Hr1 & Hh1).
  unfold bind. rewrite Hrun. unfold act, ret. eexists. split; [reflexivity|].
  rewrite picked_emit, pick_other, app_nil_r, Hp1, Hp0 by reflexivity.
  split; [reflexivity|]. split; [apply ready_emit, Hr1|].
  cbn [heap emit]. congruence.
Qed.

Lemma sink_scale_record r h n w :
  passable cfg r ->
  heap w = replicate (if eligible r then 1 else 0) true ++ h ->
  Forall good (output_of cfg r) ->
  ready (length (output_of cfg r) + n) w ->
  exists res w',
    call_scale_record cfg (slscale.record_handler cfg) (Some r) w = (Done res, w')
    /\ 0 <= res.1
    /\ picked pick (trace w') = picked pick (trace w) ++ output_of cfg r
    /\ ready n w' /\ heap w' = h.
Proof.
  unfold passable, output_of, call_scale_record. intros Hp Hh Hg Hr.
  destruct (eligible r) eqn:He.
  - destruct (Hp eq_refl) as [Hwf Hc].
    rewrite scale_record_whole by assumption.
    destruct (sink_repack (transformed cfg r) h n w Hh Hg Hr) as (w' & -> & Hp' & Hr' & Hh').
    rewrite int_of_long_small by (unfold INT_MIN; lia).
    eexists. exists w'. split; [reflexivity|]. cbn [fst]. split; [lia|]. auto.
  - rewrite scale_record_ineligible by assumption.
    eexists. exists w. split; [reflexivity|]. cbn [fst]. split; [lia|].
    rewrite app_nil_r. auto.
Qed.

Lemma sink_collect_step slpack c h n w :
  collectable cfg slpack ->
  heap w = replicate (if scalable slpack then 1 else 0) true ++ h ->
  Forall good (packet_output cfg slpack) ->
  ready (length (packet_output cfg slpack) + n) w ->
  exists c' w',
    slscale.collect_step cfg slpack None c w = (Done (slscale.Continue None c'), w')
    /\ picked pick (trace w') = picked pick (trace w) ++ packet_output cfg slpack
    /\ ready n w' /\ heap w' = h.
Proof.
  unfold collectable, scalable, packet_output, packet_record. intros Hc Hh Hg Hr.
  unfold slscale.collect_step.
  destruct (sink_when (negb (unpack_ok (msr_unpack (msrecord slpack) true)))
              (EvLog 2 "error parsing record") _ w eq_refl eq_refl Hr)
    as (w1 & E1 & Hp1 & Hr1 & Hh1).
  destruct (sink_when (1 <? verbose cfg)
              (EvMsrPrint (unpack_into (msr_unpack (msrecord slpack) true) None)
                          (2 <? verbose cfg)) _ w1 eq_refl eq_refl Hr1)
    as (w2 & E2 & Hp2 & Hr2 & Hh2).
  unfold sl_log, msr_print, bind. rewrite E1, E2.
  assert (Hmid : exists res w3,
    (if is_SLDATA (sl_packettype slpack)
     then call_scale_record cfg (slscale.record_handler cfg)
            (unpack_into (msr_unpack (msrecord slpack) true) None)
     else ret (0, unpack_into (msr_unpack (msrecord slpack) true) None)) w2
    = (Done res, w3)
    /\ is_SLDATA (sl_packettype slpack) && (res.1 <? 0) = false
    /\ picked pick (trace w3)
       = picked pick (trace w)
         ++ (if is_SLDATA (sl_packettype slpack)
             then match unpack_into (msr_unpack (msrecord slpack) true) None with
                  | Some r => output_of cfg r
                  | None => []
                  end
             else [])
    /\ ready n w3 /\ heap w3 = h).
  { destruct (is_SLDATA (sl_packettype slpack)); cbn [andb] in *.
    - destruct (Hc eq_refl) as (r & Er & Hpass). rewrite Er in *.
      rewrite <- Hh1, <- Hh2 in Hh.
      destruct (sink_scale_record r h n w2 Hpass Hh Hg Hr2)
        as (res & w3 & E3 & Hres & Hp3 & Hr3 & Hh3).
      exists res, w3. split; [exact E3|]. split; [apply Z.ltb_ge, Hres|].
      rewrite Hp3, Hp2, Hp1. auto.
    - eexists. exists w2. split; [reflexivity|]. split; [reflexivity|].
      rewrite app_nil_r, Hp2, Hp1. cbn [replicate app] in Hh.
      split; [reflexivity|]. split; [exact Hr2 | congruence]. }
  destruct Hmid as (res & w3 & -> & -> & Hp3 & Hr3 & Hh3).
  destruct (statefile cfg); [destruct (stateint cfg =? 0); [|destruct (_ <=? _)]|];
    unfold bind, slscale.sl_savestate, act, ret; eexists; eexists;
    (split; [reflexivity|]); rewrite ?picked_emit, ?pick_other, ?app_nil_r by reflexivity;
    (split; [exact Hp3|]); (split; [try apply ready_emit; exact Hr3 | exact Hh3]).
Qed.


End Sink.

Section Destinations.
Context `{CTarget} `{Libmseed}.
Variable cfg : Config.



End Destinations.

(** ** Data packets that do not unpack *)

Section FailedUnpack.
Context `{CTarget} `{Libmseed}.
Variable cfg : Config.

Lemma collect_loop_snoc pkts slpack c w m c' w1 :
  slscale.collect_loop cfg pkts None c w = (Done (slscale.Continue m c'), w1) ->
  slscale.collect_loop cfg (pkts ++ [slpack]) None c w
  = slscale.collect_loop cfg [slpack] None c' w1.
Proof.
  intros Hrun. assert (m = None) as -> by (eapply collect_loop_null; exact Hrun).
  rewrite collect_loop_app. unfold bind at 1. rewrite Hrun. reflexivity.
Qed.

Lemma direct_collect_step slpack c h d w :
  datalink cfg = None ->
  collectable cfg slpack ->
  heap w = replicate (if scalable slpack then 1 else 0) true ++ h ->
  disk w = replicate (length (packet_output cfg slpack)) true ++ d ->
  exists c' w',
    slscale.collect_step cfg slpack None c w = (Done (slscale.Continue None c'), w')
    /\ stdout_of (trace w') = stdout_of (trace w) ++ packet_output cfg slpack
    /\ heap w' = h /\ disk w' = d.
Proof.
  intros Hdl Hc Hh Hd.
  destruct (sink_collect_step cfg written
              (fun n w => disk w = replicate n true ++ d) (fun _ => True)) with
    (slpack := slpack) (c := c) (h := h) (n := 0%nat) (w := w)
    as (c' & w' & Hrun & Hp & Hr & Hh'); try assumption.
  - intros [] Hf Hw; try reflexivity; discriminate Hf.
  - intros n e w0 Hr. exact Hr.
  - intros n h0 w0 Hr. exact Hr.
  - intros record n w0 _ Hr. unfold slscale.record_handler. rewrite Hdl.
    unfold bind, when, msr_print, act, ret, fwrite.
    destruct (0 <? verbose cfg); cbn [disk emit]; rewrite Hr; cbn [replicate app];
      eexists; (split; [reflexivity|]);
      repeat (rewrite picked_emit; cbn [written trace set_disk]);
      rewrite ?app_nil_r; auto.
  - apply Forall_forall. auto.
  - rewrite Nat.add_0_r. exact Hd.
  - exists c', w'. split; [exact Hrun|]. split; [exact Hp|]. split; [exact Hh' | exact Hr].
Qed.

(** C10, as the code has it.  [msr] is null at the head of every
    iteration, the first or a later one, because an iteration ends with
    [msr_free(&msr)]; no record of an earlier iteration is packed a second
    time.  A data packet on which [msr_unpack] fails is not skipped: the
    error is logged and [scale_record] is called on the pointer as
    [msr_unpack] left it.  When the failure came before a record was
    allocated that pointer is null, and [scale_record] dereferences it at
    once.  When it came later the pointer holds the record as far as it was
    filled in, and the packet is processed, after the complaint, exactly as
    a packet that unpacked to that record: it is scaled, packed and written
    if it passes the guards, so that the loop packs once more for it. *)
Theorem failed_unpack_reaches_scale_record (pkts : list SLpacket) (slpack : SLpacket)
    (c c' : Z) (w w1 : World) (m : option MSRecord) :
  sl_packettype slpack = SLDATA ->
  unpack_ok (msr_unpack (msrecord slpack) true) = false ->
  slscale.collect_loop cfg pkts None c w = (Done (slscale.Continue m c'), w1) ->
  m = None
  /\ (msr_unpack (msrecord slpack) true = Rejected
      \/ exists r, msr_unpack (msrecord slpack) true = Garbled r)
  /\ (forall handler w0, scale_record cfg handler None w0 = (Fault, None, w0))
  /\ (msr_unpack (msrecord slpack) true = Rejected ->
      exists w2,
        slscale.collect_loop cfg (pkts ++ [slpack]) None c w = (Fault, w2)
        /\ trace w2 =
             trace w1 ++ [EvLog 2 "error parsing record"]
             ++ (if 1 <? verbose cfg then [EvMsrPrint None (2 <? verbose cfg)] else [])
        /\ packs w2 = packs w1)
  /\ (forall r,
        msr_unpack (msrecord slpack) true = Garbled r ->
        (forall good,
           sl_packettype good = SLDATA ->
           msr_unpack (msrecord good) true = Unpacked r ->
           slscale.collect_loop cfg (pkts ++ [slpack]) None c w
           = slscale.collect_loop cfg [good] None c'
               (emit (EvLog 2 "error parsing record") w1))
        /\ (forall h d,
              datalink cfg = None ->
              passable cfg r ->
              heap w1 = replicate (if eligible r then 1 else 0) true ++ h ->
              disk w1 = replicate (length (output_of cfg r)) true ++ d ->
              exists c2 w2,
                slscale.collect_loop cfg (pkts ++ [slpack]) None c w
                = (Done (slscale.Continue None c2), w2)
                /\ stdout_of (trace w2) = stdout_of (trace w1) ++ output_of cfg r
                /\ packs w2 = (packs w1 + if eligible r then 1 else 0)%nat)
        /\ (forall m2 c2 w2,
              slscale.collect_loop cfg (pkts ++ [slpack]) None c w
              = (Done (slscale.Continue m2 c2), w2) ->
              packs w2 = (packs w1 + if eligible r then 1 else 0)%nat)).
Proof.
  intros Hdata Hfail Hrun.
  assert (m = None) as -> by (eapply collect_loop_null; exact Hrun).
  rewrite (collect_loop_snoc pkts slpack c w None c' w1 Hrun).
  split; [reflexivity|]. split.
  { destruct (msr_unpack (msrecord slpack) true) as [r| |r]; [discriminate Hfail|auto|eauto]. }
  split; [reflexivity|]. split.
  - intros Hrej. cbn [slscale.collect_loop]. unfold slscale.collect_step. rewrite Hdata, Hrej.
    cbn [unpack_ok negb unpack_into is_SLDATA].
    unfold bind, when, sl_log, msr_print, act, call_scale_record, packs.
    destruct (1 <? verbose cfg); cbn [scale_record];
      eexists; (split; [reflexivity|]); cbn [emit trace]; rewrite <- ?app_assoc;
      (split; [reflexivity|]);
      rewrite ?count_app, ?count_cons, ?count_nil; cbn [is_pack]; lia.
  - intros r Hgar.
    assert (Hsc : scalable slpack = eligible r).
    { unfold scalable. rewrite Hdata, Hgar. reflexivity. }
    split; [|split].
    + intros good Hgd Hgu. cbn [slscale.collect_loop]. unfold slscale.collect_step.
      rewrite Hdata, Hgd, Hgar, Hgu. cbn [unpack_ok negb unpack_into is_SLDATA when].
      unfold sl_log, act, ret. unfold bind at 1 3. unfold bind at 3. reflexivity.
    + intros h d Hdl Hpass Hh Hd.
      assert (Hout : packet_output cfg slpack = output_of cfg r).
      { unfold packet_output, packet_record. rewrite Hdata, Hgar. reflexivity. }
      rewrite <- Hsc in Hh. rewrite <- Hout in Hd.
      destruct (direct_collect_step slpack c' h d w1 Hdl) as (c2 & w2 & Hstep & Hs & _);
        [|exact Hh|exact Hd|].
      { intros _. exists r. split; [|exact Hpass].
        unfold packet_record. rewrite Hgar. reflexivity. }
      exists c2, w2. split.
      { cbn [slscale.collect_loop]. unfold bind. rewrite Hstep. reflexivity. }
      rewrite <- Hout, <- Hsc. split; [exact Hs|].
      apply (collect_step_packs cfg slpack c' w1 None c2 w2 Hstep).
    + intros m2 c2 w2 Hloop. cbn [slscale.collect_loop] in Hloop.
      apply bind_done in Hloop as (s & w3 & Hstep & Hrest).
      destruct s as [m3 c3|m3 c3]; [|discriminate Hrest].
      injection Hrest as _ _ <-. rewrite <- Hsc.
      apply (collect_step_packs cfg slpack c' w1 m3 c3 w3 Hstep).
Qed.

End FailedUnpack.

(** ** The options and the start of the programs *)

Lemma occurrences_snoc c opts rc arg :
  occurrences c (opts ++ [(rc, arg)])
  = occurrences c opts + (if Ascii.eqb rc c then 1 else 0).
Proof.
  unfold occurrences. rewrite List.filter_app, length_app. cbn [List.filter fst].
  destruct (Ascii.eqb rc c); cbn [length]; lia.
Qed.

Lemma last_argument_snoc c opts rc arg :
  last_argument c (opts ++ [(rc, arg)])
  = if Ascii.eqb rc c then Some arg else last_argument c opts.
Proof. unfold last_argument. rewrite fold_left_app. reflexivity. Qed.

Lemma no_exit_app a b : no_exit (a ++ b) = no_exit a && no_exit b.
Proof. apply forallb_app. Qed.

Ltac option_cases rc :=
  repeat match goal with
         | |- context [Ascii.eqb rc ?c] =>
             destruct (Ascii.eqb_spec rc c) as [->|?]; [try contradiction|]
         end.

Section SlscaleOptions.
Context `{Libc}.

Lemma slscale_read_options_app a b s :
  slscale.read_options (a ++ b) s
  = match slscale.read_options a s with
    | Go s' => slscale.read_options b s'
    | Exit status => Exit status
    end.
Proof.
  revert s. induction a as [|[rc arg] a IH]; intros s; [reflexivity|].
  cbn [app slscale.read_options]. destruct (slscale.option_case rc arg s); [apply IH | reflexivity].
Qed.

(** What one option does to the variables the processing reads. *)
Lemma slscale_option_case_go rc arg s :
  rc <> "?"%char -> rc <> "h"%char ->
  exists s',
    slscale.option_case rc arg s = Go s'
    /\ verbose (slscale.globals s')
       = verbose (slscale.globals s) + (if Ascii.eqb rc "v" then 1 else 0)
    /\ writeack (slscale.globals s')
       = writeack (slscale.globals s) + (if Ascii.eqb rc "w" then 1 else 0)
    /\ alpha (slscale.globals s')
       = (if Ascii.eqb rc "A" then atof arg else alpha (slscale.globals s))
    /\ beta (slscale.globals s')
       = (if Ascii.eqb rc "B" then atof arg else beta (slscale.globals s))
    /\ orient (slscale.globals s')
       = (if Ascii.eqb rc "O" then Some arg else orient (slscale.globals s))
    /\ statefile (slscale.globals s')
       = (if Ascii.eqb rc "x" then Some arg else statefile (slscale.globals s))
    /\ stateint (slscale.globals s')
       = (if Ascii.eqb rc "u" then atoi arg else stateint (slscale.globals s))
    /\ datalink (slscale.globals s') = datalink (slscale.globals s)
    /\ slscale.seedlink s' = slscale.seedlink s.
Proof.
  intros Hq Hh. unfold slscale.option_case.
  option_cases rc; cbn; eexists; (split; [reflexivity|]); cbn;
    rewrite ?Z.add_0_r; repeat split; reflexivity.
Qed.

Lemma slscale_option_case_exit rc arg s status :
  slscale.option_case rc arg s = Exit status ->
  (rc = "?"%char /\ status = -1) \/ (rc = "h"%char /\ status = 0).
Proof.
  intros Hrun.
  destruct (Ascii.eqb_spec rc "?") as [->|Hq]; [cbn in Hrun; injection Hrun as <-; auto|].
  destruct (Ascii.eqb_spec rc "h") as [->|Hh]; [cbn in Hrun; injection Hrun as <-; auto|].
  destruct (slscale_option_case_go rc arg s Hq Hh) as (s' & E & _).
  rewrite E in Hrun. discriminate Hrun.
Qed.

Lemma slscale_read_options_go opts s s' :
  slscale.read_options opts s = Go s' ->
  no_exit opts = true
  /\ verbose (slscale.globals s') = verbose (slscale.globals s) + occurrences "v" opts
  /\ writeack (slscale.globals s') = writeack (slscale.globals s) + occurrences "w" opts
  /\ alpha (slscale.globals s')
     = match last_argument "A" opts with
       | Some a => atof a
       | None => alpha (slscale.globals s)
       end
  /\ beta (slscale.globals s')
     = match last_argument "B" opts with
       | Some b => atof b
       | None => beta (slscale.globals s)
       end
  /\ orient (slscale.globals s')
     = match last_argument "O" opts with
       | Some o => Some o
       | None => orient (slscale.globals s)
       end
  /\ statefile (slscale.globals s')
     = match last_argument "x" opts with
       | Some f => Some f
       | None => statefile (slscale.globals s)
       end
  /\ stateint (slscale.globals s')
     = match last_argument "u" opts with
       | Some n => atoi n
       | None => stateint (slscale.globals s)
       end
  /\ datalink (slscale.globals s') = datalink (slscale.globals s)
  /\ slscale.seedlink s' = slscale.seedlink s.
Proof.
  revert s'. induction opts as [|[rc arg] opts IH] using rev_ind; intros s' Hrun.
  - injection Hrun as <-. cbn. rewrite !Z.add_0_r. repeat split; reflexivity.
  - rewrite slscale_read_options_app in Hrun.
    destruct (slscale.read_options opts s) as [s1|st] eqn:E1; [|discriminate Hrun].
    cbn [slscale.read_options] in Hrun.
    destruct (slscale.option_case rc arg s1) as [s2|st] eqn:E2; [|discriminate Hrun].
    injection Hrun as <-.
    destruct (IH s1 eq_refl) as (Hne & Hv & Hw & Ha & Hb & Ho & Hx & Hu & Hd & Hs).
    assert (Hrc : rc <> "?"%char /\ rc <> "h"%char).
    { split; intros ->; cbn in E2; discriminate E2. }
    destruct Hrc as [Hq Hh].
    destruct (slscale_option_case_go rc arg s1 Hq Hh)
      as (s2' & E2' & Hv' & Hw' & Ha' & Hb' & Ho' & Hx' & Hu' & Hd' & Hs').
    rewrite E2 in E2'. injection E2' as <-.
    rewrite no_exit_app, Hne, !occurrences_snoc, !last_argument_snoc.
    rewrite Hv', Hw', Ha', Hb', Ho', Hx', Hu', Hd', Hs', Hv, Hw, Ha, Hb, Ho, Hx, Hu, Hd, Hs.
    split.
    { cbn. destruct (Ascii.eqb_spec rc "?"); [contradiction|].
      destruct (Ascii.eqb_spec rc "h"); [contradiction|]. reflexivity. }
    repeat split; try lia;
      match goal with |- context [Ascii.eqb rc ?c] => destruct (Ascii.eqb rc c) end;
      reflexivity.
Qed.

Lemma slscale_read_options_total opts s :
  no_exit opts = true -> exists s', slscale.read_options opts s = Go s'.
Proof.
  revert s. induction opts as [|[rc arg] opts IH]; intros s Hne; [eexists; reflexivity|].
  cbn [no_exit forallb fst] in Hne. apply andb_true_iff in Hne as [Hrc Hne].
  apply andb_true_iff in Hrc as [Hq Hh].
  cbn [slscale.read_options].
  destruct (slscale_option_case_go rc arg s) as (s1 & -> & _).
  - intros ->. discriminate Hq.
  - intros ->. discriminate Hh.
  - apply IH, Hne.
Qed.

(** X13.  slscale reads all its options when none is ['?'] or ['h'], and
    then: the verbosity and the acknowledgement level have grown by the
    number of [-v] and of [-w]; the offset, the factor, the orientation, the
    state file and the interval are those of the last [-A], [-B], [-O], [-x]
    and [-u], and untouched without one; no option sets the DataLink or the
    SeedLink address. *)
Theorem slscale_options_accumulate (opts : list (ascii * string)) (s : slscale.Settings) :
  no_exit opts = true ->
  exists s',
    slscale.read_options opts s = Go s'
    /\ verbose (slscale.globals s') = verbose (slscale.globals s) + occurrences "v" opts
    /\ writeack (slscale.globals s') = writeack (slscale.globals s) + occurrences "w" opts
    /\ alpha (slscale.globals s')
       = match last_argument "A" opts with
         | Some a => atof a
         | None => alpha (slscale.globals s)
         end
    /\ beta (slscale.globals s')
       = match last_argument "B" opts with
         | Some b => atof b
         | None => beta (slscale.globals s)
         end
    /\ orient (slscale.globals s')
       = match last_argument "O" opts with
         | Some o => Some o
         | None => orient (slscale.globals s)
         end
    /\ statefile (slscale.globals s')
       = match last_argument "x" opts with
         | Some f => Some f
         | None => statefile (slscale.globals s)
         end
    /\ stateint (slscale.globals s')
       = match last_argument "u" opts with
         | Some n => atoi n
         | None => stateint (slscale.globals s)
         end
    /\ datalink (slscale.globals s') = datalink (slscale.globals s)
    /\ slscale.seedlink s' = slscale.seedlink s.
Proof.
  intros Hne. destruct (slscale_read_options_total opts s Hne) as (s' & Hrun).
  exists s'. split; [exact Hrun|]. apply (slscale_read_options_go opts s s' Hrun).
Qed.

End SlscaleOptions.

Section BatchOptions.
Context `{Libc}.

Lemma msscale_read_options_app a b c :
  msscale.read_options (a ++ b) c
  = match msscale.read_options a c with
    | Go c' => msscale.read_options b c'
    | Exit status => Exit status
    end.
Proof.
  revert c. induction a as [|[rc arg] a IH]; intros c; [reflexivity|].
  cbn [app msscale.read_options]. destruct (msscale.option_case rc arg c); [apply IH | reflexivity].
Qed.

Lemma msscale_option_case_go rc arg c :
  rc <> "?"%char -> rc <> "h"%char ->
  exists c',
    msscale.option_case rc arg c = Go c'
    /\ verbose c' = verbose c + (if Ascii.eqb rc "v" then 1 else 0)
    /\ alpha c' = (if Ascii.eqb rc "A" then atof arg else alpha c)
    /\ beta c' = (if Ascii.eqb rc "B" then atof arg else beta c)
    /\ orient c' = (if Ascii.eqb rc "O" then Some arg else orient c)
    /\ datalink c' = datalink c.
Proof.
  intros Hq Hh. unfold msscale.option_case.
  option_cases rc; cbn; eexists; (split; [reflexivity|]); cbn;
    rewrite ?Z.add_0_r; repeat split; reflexivity.
Qed.

Lemma msscale_read_options_go opts c c' :
  msscale.read_options opts c = Go c' ->
  no_exit opts = true
  /\ verbose c' = verbose c + occurrences "v" opts
  /\ alpha c' = match last_argument "A" opts with Some a => atof a | None => alpha c end
  /\ beta c' = match last_argument "B" opts with Some b => atof b | None => beta c end
  /\ orient c' = match last_argument "O" opts with Some o => Some o | None => orient c end
  /\ datalink c' = datalink c.
Proof.
  revert c'. induction opts as [|[rc arg] opts IH] using rev_ind; intros c' Hrun.
  - injection Hrun as <-. cbn. rewrite !Z.add_0_r. repeat split; reflexivity.
  - rewrite msscale_read_options_app in Hrun.
    destruct (msscale.read_options opts c) as [c1|st] eqn:E1; [|discriminate Hrun].
    cbn [msscale.read_options] in Hrun.
    destruct (msscale.option_case rc arg c1) as [c2|st] eqn:E2; [|discriminate Hrun].
    injection Hrun as <-.
    destruct (IH c1 eq_refl) as (Hne & Hv & Ha & Hb & Ho & Hd).
    assert (Hrc : rc <> "?"%char /\ rc <> "h"%char).
    { split; intros ->; cbn in E2; discriminate E2. }
    destruct Hrc as [Hq Hh].
    destruct (msscale_option_case_go rc arg c1 Hq Hh)
      as (c2' & E2' & Hv' & Ha' & Hb' & Ho' & Hd').
    rewrite E2 in E2'. injection E2' as <-.
    rewrite no_exit_app, Hne, !occurrences_snoc, !last_argument_snoc.
    rewrite Hv', Ha', Hb', Ho', Hd', Hv, Ha, Hb, Ho, Hd.
    split.
    { cbn. destruct (Ascii.eqb_spec rc "?"); [contradiction|].
      destruct (Ascii.eqb_spec rc "h"); [contradiction|]. reflexivity. }
    repeat split; try lia;
      match goal with |- context [Ascii.eqb rc ?c] => destruct (Ascii.eqb rc c) end;
      reflexivity.
Qed.

Lemma msscale_read_options_total opts c :
  no_exit opts = true -> exists c', msscale.read_options opts c = Go c'.
Proof.
  revert c. induction opts as [|[rc arg] opts IH]; intros c Hne; [eexists; reflexivity|].
  cbn [no_exit forallb fst] in Hne. apply andb_true_iff in Hne as [Hrc Hne].
  apply andb_true_iff in Hrc as [Hq Hh].
  cbn [msscale.read_options].
  destruct (msscale_option_case_go rc arg c) as (c1 & -> & _).
  - intros ->. discriminate Hq.
  - intros ->. discriminate Hh.
  - apply IH, Hne.
Qed.

(** X14.  Both programs leave the option loop at the first ['?'] or ['h']
    that [getopt_long] returns, with status -1 for ['?'] and 0 for ['h']:
    the options before it have no effect on the outcome and those after it
    are not read. *)
Theorem options_stop_at_first_exit (pre post : list (ascii * string)) (rc : ascii)
    (arg : string) :
  no_exit pre = true ->
  rc = "?"%char \/ rc = "h"%char ->
  (forall s, slscale.read_options (pre ++ (rc, arg) :: post) s
             = Exit (if Ascii.eqb rc "?" then -1 else 0))
  /\ (forall c, msscale.read_options (pre ++ (rc, arg) :: post) c
                = Exit (if Ascii.eqb rc "?" then -1 else 0)).
Proof.
  intros Hne Hrc. split.
  - intros s. rewrite slscale_read_options_app.
    destruct (slscale_read_options_total pre s Hne) as (s' & ->).
    destruct Hrc as [-> | ->]; reflexivity.
  - intros c. rewrite msscale_read_options_app.
    destruct (msscale_read_options_total pre c Hne) as (c' & ->).
    destruct Hrc as [-> | ->]; reflexivity.
Qed.

(** X15.  msscale reads all its options when none is ['?'] or ['h'], and
    then: the verbosity has grown by the number of [-v]; the offset, the
    factor and the orientation are those of the last [-A], [-B] and [-O],
    and untouched without one. *)
Theorem msscale_options_accumulate (opts : list (ascii * string)) (c : Config) :
  no_exit opts = true ->
  exists c',
    msscale.read_options opts c = Go c'
    /\ verbose c' = verbose c + occurrences "v" opts
    /\ alpha c' = match last_argument "A" opts with Some a => atof a | None => alpha c end
    /\ beta c' = match last_argument "B" opts with Some b => atof b | None => beta c end
    /\ orient c' = match last_argument "O" opts with Some o => Some o | None => orient c end.
Proof.
  intros Hne. destruct (msscale_read_options_total opts c Hne) as (c' & Hrun).
  exists c'. split; [exact Hrun|].
  destruct (msscale_read_options_go opts c c' Hrun) as (_ & Hv & Ha & Hb & Ho & _). auto.
Qed.

(** X16.  slscale has a DataLink destination exactly when two arguments
    or more are left after the options: the second is the DataLink address,
    and the first replaces the SeedLink address ":18000".  With fewer than
    two it writes to standard output.  The arguments change nothing the
    transform reads. *)
Theorem destination_comes_from_arguments (opts : list (ascii * string)) (args : list string)
    (delay timeout heartbeat : Z) (s' : slscale.Settings) :
  slscale.read_options opts (slscale.defaults delay timeout heartbeat) = Go s' ->
  datalink (slscale.globals (slscale.positional args s')) = args !! 1%nat
  /\ slscale.seedlink (slscale.positional args s') = default ":18000"%string (args !! 0%nat)
  /\ alpha (slscale.globals (slscale.positional args s')) = alpha (slscale.globals s')
  /\ beta (slscale.globals (slscale.positional args s')) = beta (slscale.globals s')
  /\ orient (slscale.globals (slscale.positional args s')) = orient (slscale.globals s').
Proof.
  intros Hs.
  destruct (slscale_read_options_go opts _ s' Hs) as (_ & _ & _ & _ & _ & _ & _ & _ & Hd & Hsl).
  unfold slscale.positional. cbn [slscale.globals slscale.seedlink set_datalink datalink
                                  alpha beta orient].
  rewrite Hd, Hsl. cbn [slscale.defaults slscale.globals slscale.seedlink datalink].
  destruct args as [|a [|b args]]; repeat split; reflexivity.
Qed.

(** X23.  msscale run with [-v] reads no input: once the version is
    logged, the call of [ms_log] that reports alpha and beta has a [%s] in
    its format and no string among its arguments, and the run ends there. *)
Theorem msscale_verbose_run_faults `{CTarget} `{Libmseed} (opts : list (ascii * string))
    (c' : Config) (files : list msscale.File) (w : World) :
  msscale.read_options opts msscale.defaults = Go c' ->
  0 < occurrences "v" opts ->
  msscale.main c' files w = (Fault, emit (EvLog 0 "%s") w).
Proof.
  intros Hc Hv.
  destruct (msscale_read_options_go opts _ c' Hc) as (_ & Hverb & _).
  cbn [msscale.defaults verbose] in Hverb.
  unfold msscale.main.
  replace (verbose c' =? 0) with false by (symmetry; apply Z.eqb_neq; lia).
  reflexivity.
Qed.

End BatchOptions.

Section Defaults.
Context `{CTarget} `{Libmseed} `{Libc}.
Variable handler : block -> M unit.

(** X17.  slscale run without [-A] and without [-B] multiplies by ten:
    whatever the other options and the arguments, an eligible record whose
    buffer holds at least [numsamples] samples comes out with each of its
    first [numsamples] samples [v] replaced by [10 * v], as long as these
    samples and products are [int]s, and with the slots after them as they
    were; every sample is multiplied when the buffer holds [numsamples]
    samples and no more. *)
Theorem slscale_multiplies_by_ten_by_default (opts : list (ascii * string))
    (args : list string) (delay timeout heartbeat : Z) (s' : slscale.Settings)
    (r : MSRecord) (w : World) :
  slscale.read_options opts (slscale.defaults delay timeout heartbeat) = Go s' ->
  last_argument "A" opts = None ->
  last_argument "B" opts = None ->
  eligible r = true ->
  numsamples r <= Z.of_nat (length (datasamples r)) ->
  Forall (fun v => INT_MIN <= v <= INT_MAX /\ INT_MIN <= 10 * v <= INT_MAX)
         (take (Z.to_nat (numsamples r)) (datasamples r)) ->
  exists r',
    (scale_record (slscale.globals (slscale.positional args s')) handler (Some r) w).1.2
    = Some r'
    /\ datasamples r'
       = map (Z.mul 10) (take (Z.to_nat (numsamples r)) (datasamples r))
         ++ drop (Z.to_nat (numsamples r)) (datasamples r)
    /\ (numsamples r = Z.of_nat (length (datasamples r)) ->
        datasamples r' = map (Z.mul 10) (datasamples r)).
Proof.
  intros Hs HA HB He Hwf Hall.
  destruct (slscale_read_options_go opts _ s' Hs) as (_ & _ & _ & Ha & Hb & _).
  rewrite HA in Ha. rewrite HB in Hb. eexists. split.
  { rewrite scale_record_within by assumption. cbv zeta.
    destruct (repack handler _ w). reflexivity. }
  cbn [set_datasamples datasamples].
  assert (Hten : map (scale_sample (slscale.globals (slscale.positional args s')))
                     (take (Z.to_nat (numsamples r)) (datasamples r))
                 = map (Z.mul 10) (take (Z.to_nat (numsamples r)) (datasamples r))).
  { rewrite (scale_samples_affine _ 0 10); unfold INT_MIN, INT_MAX; try lia.
    - apply map_ext. intros v. lia.
    - unfold slscale.positional. cbn [slscale.globals set_datalink alpha]. rewrite Ha.
      reflexivity.
    - unfold slscale.positional. cbn [slscale.globals set_datalink beta]. rewrite Hb.
      reflexivity.
    - eapply Forall_impl; [exact Hall|]. unfold INT_MIN, INT_MAX. intros v Hv.
      cbn beta in *. lia. }
  rewrite Hten. split; [reflexivity|].
  intros Hfull. rewrite Hfull, Nat2Z.id, take_ge, drop_ge by lia. apply app_nil_r.
Qed.

(** X18.  msscale run without [-A] and without [-B] changes no sample of
    an eligible record of [int] samples: its default factor is one, where
    that of slscale is ten. *)
Theorem msscale_keeps_samples_by_default (opts : list (ascii * string)) (c' : Config)
    (r : MSRecord) (w : World) :
  msscale.read_options opts msscale.defaults = Go c' ->
  last_argument "A" opts = None ->
  last_argument "B" opts = None ->
  eligible r = true ->
  numsamples r = Z.of_nat (length (datasamples r)) ->
  int_samples r ->
  exists r',
    (scale_record c' handler (Some r) w).1.2 = Some r'
    /\ datasamples r' = datasamples r.
Proof.
  intros Hc HA HB He Hwf Hall.
  destruct (msscale_read_options_go opts _ c' Hc) as (_ & _ & Ha & Hb & _).
  rewrite HA in Ha. rewrite HB in Hb. eexists.
  split; [apply scale_record_transformed; assumption|].
  cbn [set_datasamples datasamples].
  rewrite (scale_samples_affine _ 0 1); unfold INT_MIN, INT_MAX; try lia.
  - rewrite <- (map_id (datasamples r)) at 2. apply map_ext. intros v. lia.
  - rewrite Ha. reflexivity.
  - rewrite Hb. reflexivity.
  - eapply Forall_impl; [exact Hall|]. unfold INT_MIN, INT_MAX. intros v Hv. cbn beta in *. lia.
Qed.

End Defaults.


(** ** The further properties at work *)

Lemma integer_rescale_scenario :
  exists r',
    (@scale_record demo.target demo.codec
       (demo.config (double_of_int 3) (double_of_int (-2)) None None 300)
       msscale.record_handler (Some (demo.int_record [1; -2; 1000]))
       (demo.world [true] [true] [])).1.2 = Some r'
    /\ datasamples r' = [1; 7; -1997].
Proof.
  destruct (@integer_rescale_is_exact demo.target demo.codec
              (demo.config (double_of_int 3) (double_of_int (-2)) None None 300)
              msscale.record_handler 3 (-2) (demo.int_record [1; -2; 1000])
              (demo.world [true] [true] []) eq_refl eq_refl
              ltac:(unfold INT_MIN, INT_MAX; lia) ltac:(unfold INT_MIN, INT_MAX; lia)
              eq_refl eq_refl
              ltac:(unfold INT_MIN, INT_MAX; cbn; repeat constructor; lia))
    as (r' & Hr & Hd).
  exists r'. split; [exact Hr | exact Hd].
Defined.

Lemma doubled_sample_overflows :
  datasamples (@transformed demo.target (demo.config (S754_zero false) demo.two None None 300)
                 (demo.int_record [1073741824; 5])) !! 0%nat
  = Some INT_MIN.
Proof.
  destruct (@rescale_overflow_is_unchecked demo.target demo.codec
              (demo.config (S754_zero false) demo.two None None 300)
              msscale.record_handler 0 2 1073741824 0%nat
              (demo.int_record [1073741824; 5]) (demo.world [true] [true] [])
              eq_refl eq_refl
              ltac:(unfold INT_MIN, INT_MAX; lia) ltac:(unfold INT_MIN, INT_MAX; lia)
              eq_refl eq_refl eq_refl
              ltac:(unfold INT_MIN, INT_MAX; lia) ltac:(cbn; lia)
              ltac:(right; unfold INT_MAX; lia))
    as [Hslot _].
  exact Hslot.
Defined.

Lemma short_record_keeps_its_tail :
  exists r',
    @scale_record demo.target demo.codec (demo.config demo.ten demo.two None None 300)
      msscale.record_handler (Some (mkMSRecord demo.header 0 one 3 "i" 2 [1; 2; 3]))
      (demo.world [true] [true] [])
    = (let '(res, w') := @repack demo.codec msscale.record_handler r'
                           (demo.world [true] [true] []) in
       (res, Some r', w'))
    /\ datasamples r' = [12; 14; 3].
Proof.
  eexists. split.
  - apply (@transform_runs_to_numsamples demo.target demo.codec
             (demo.config demo.ten demo.two None None 300) msscale.record_handler
             (mkMSRecord demo.header 0 one 3 "i" 2 [1; 2; 3])
             (demo.world [true] [true] []) eq_refl ltac:(cbn; lia)).
  - vm_compute. reflexivity.
Defined.

Lemma failed_write_still_counts :
  (@scale_record demo.target demo.codec (demo.config demo.ten demo.two None None 300)
     msscale.record_handler (Some (demo.int_record [1; 2; 3]))
     (demo.world [true] [false] [])).1.1 = Done 3.
Proof.
  rewrite (@msscale_write_failures_are_only_logged demo.target demo.codec
             (demo.config demo.ten demo.two None None 300)
             (demo.int_record [1; 2; 3]) [false] [] [] (demo.world [true] [false] [])
             eq_refl eq_refl ltac:(vm_compute; split; discriminate)
             eq_refl eq_refl eq_refl).
  vm_compute. reflexivity.
Defined.


Lemma file_abandoned_when_memory_runs_out :
  exists w',
    @msscale.read_file demo.target demo.codec (demo.config demo.ten demo.two None None 300)
      (msscale.mkFile [demo.int_record [1; 2; 3]; demo.int_record [4]] msscale.MS_ENDOFFILE)
      (demo.world [false; true] [true] []) = (Done tt, w')
    /\ trace w' = [EvInitGroup false; EvLog 2 "error reading stdin: %s"]
    /\ heap w' = [true].
Proof.
  destruct (@msscale_allocation_failure_abandons_file demo.target demo.codec
              (demo.config demo.ten demo.two None None 300)
              (demo.int_record [1; 2; 3]) [demo.int_record [4]] msscale.MS_ENDOFFILE
              [true] (demo.world [false; true] [true] [])
              eq_refl ltac:(cbn; lia) eq_refl)
    as (w' & Hrun & Ht & Hh & _).
  exists w'. split; [exact Hrun|]. split; [exact Ht | exact Hh].
Defined.

Lemma info_packet_is_not_packed :
  packs (@slscale.collect_loop demo.target demo.codec
           (demo.config demo.ten demo.two None None 300)
           [demo.data_packet [1; 2; 3]; demo.info_packet; demo.data_packet [4]] None 0
           (demo.world [true; true] [true; true] [])).2 = 2%nat.
Proof.
  assert (Hrun :
    @slscale.collect_loop demo.target demo.codec
      (demo.config demo.ten demo.two None None 300)
      [demo.data_packet [1; 2; 3]; demo.info_packet; demo.data_packet [4]] None 0
      (demo.world [true; true] [true; true] [])
    = (Done (slscale.Continue None 0),
       (@slscale.collect_loop demo.target demo.codec
          (demo.config demo.ten demo.two None None 300)
          [demo.data_packet [1; 2; 3]; demo.info_packet; demo.data_packet [4]] None 0
          (demo.world [true; true] [true; true] [])).2)).
  { vm_compute. reflexivity. }
  rewrite (@one_packing_per_scalable_packet demo.target demo.codec
             (demo.config demo.ten demo.two None None 300)
             [demo.data_packet [1; 2; 3]; demo.info_packet; demo.data_packet [4]]
             0 0 None _ _ Hrun).
  reflexivity.
Defined.

Lemma no_state_file_no_save :
  saves (@slscale.main demo.target demo.codec (demo.config demo.ten demo.two None None 1)
           (slscale.mkStream [demo.info_packet; demo.data_packet [1]] true true)
           (demo.world [true] [true] [])).2 = 0%nat.
Proof.
  destruct (@no_checkpoint_when_switched_off demo.target demo.codec
              (demo.config demo.ten demo.two None None 1)
              (slscale.mkStream [demo.info_packet; demo.data_packet [1]] true true)
              None 0 (demo.world [true] [true] []) (or_introl eq_refl))
    as (_ & _ & Hmain).
  exact (Hmain eq_refl).
Defined.

Lemma negative_interval_scenario :
  saves (@slscale.collect_loop demo.target demo.codec
           (demo.config demo.ten demo.two None (Some "state"%string) (-1))
           [demo.info_packet; demo.data_packet [1]; demo.info_packet] None 0
           (demo.world [true] [true] [])).2 = 3%nat.
Proof.
  assert (Hrun :
    @slscale.collect_loop demo.target demo.codec
      (demo.config demo.ten demo.two None (Some "state"%string) (-1))
      [demo.info_packet; demo.data_packet [1]; demo.info_packet] None 0
      (demo.world [true] [true] [])
    = (Done (slscale.Continue None 0),
       (@slscale.collect_loop demo.target demo.codec
          (demo.config demo.ten demo.two None (Some "state"%string) (-1))
          [demo.info_packet; demo.data_packet [1]; demo.info_packet] None 0
          (demo.world [true] [true] [])).2)).
  { vm_compute. reflexivity. }
  destruct (@negative_interval_saves_every_packet demo.target demo.codec
              (demo.config demo.ten demo.two None (Some "state"%string) (-1))
              "state"%string
              [demo.info_packet; demo.data_packet [1]; demo.info_packet]
              None 0 _ _ eq_refl ltac:(cbn; lia) ltac:(cbn; lia) Hrun)
    as [Hs _].
  exact Hs.
Defined.

Lemma collecting_stops_when_memory_runs_out :
  exists w',
    @slscale.main demo.target demo.codec
      (demo.config demo.ten demo.two None (Some "state"%string) 1)
      (slscale.mkStream [demo.data_packet [1; 2; 3]; demo.data_packet [4]] true true)
      (demo.world [false; true] [true] [])
    = @slscale.closing (demo.config demo.ten demo.two None (Some "state"%string) 1) true w'
    /\ trace w' = [EvInitGroup false]
    /\ terminate w' = false.
Proof.
  destruct (@slscale_allocation_failure_stops_collecting demo.target demo.codec
              (demo.config demo.ten demo.two None (Some "state"%string) 1)
              (demo.data_packet [1; 2; 3]) [demo.data_packet [4]]
              (mkMSRecord demo.header 0 one 3 "i" 3 [1; 2; 3]) [true] true true
              (demo.world [false; true] [true] [])
              eq_refl eq_refl eq_refl ltac:(cbn; lia) eq_refl)
    as (w' & _ & Ht & _ & Hterm & Hmain).
  exists w'. split; [exact Hmain|]. split; [exact Ht | exact Hterm].
Defined.

Lemma direct_handler_is_msscale_handler :
  @slscale.record_handler demo.codec (demo.config demo.ten demo.two None None 300)
    [Byte.x0c] (demo.world [] [true] [])
  = msscale.record_handler [Byte.x0c] (demo.world [] [true] []).
Proof.
  apply (@direct_mode_is_msscale demo.target demo.codec
           (demo.config demo.ten demo.two None None 300) None [Byte.x0c]
           (demo.world [] [true] []) eq_refl ltac:(cbn; lia)).
Defined.

Lemma refused_after_the_signal :
  exists w',
    for_each (@slscale.record_handler demo.codec
                (demo.config demo.ten demo.two (Some "localhost:16000"%string) None 300))
      [demo.encode (demo.int_record [1; 2; 3]); demo.encode (demo.int_record [4])]
      (set_terminate true (demo.world [] [] [Refused true true false; Accepted; Accepted]))
    = (Done tt, w')
    /\ count is_dl_write (trace w') = 2%nat
    /\ count is_delivery (trace w') = 1%nat
    /\ net w' = [Accepted].
Proof.
  destruct (@terminated_forwarding_tries_once demo.codec
              (demo.config demo.ten demo.two (Some "localhost:16000"%string) None 300)
              "localhost:16000"%string
              [demo.encode (demo.int_record [1; 2; 3]); demo.encode (demo.int_record [4])]
              [Refused true true false; Accepted] [Accepted]
              (set_terminate true (demo.world [] [] [Refused true true false; Accepted; Accepted]))
              eq_refl eq_refl
              ltac:(repeat (constructor; [reflexivity|]); constructor)
              eq_refl eq_refl)
    as (w' & Hrun & Hw & Hd & Hn & _).
  exists w'. split; [exact Hrun|]. split; [exact Hw|]. split; [exact Hd | exact Hn].
Defined.

Lemma first_print_is_null :
  exists w',
    for_each (@slscale.record_handler demo.codec
                (mkConfig 1 (Some "T"%string) demo.ten demo.two
                          (Some "localhost:16000"%string) 0 None 300))
      [[Byte.x01]; [Byte.x02; Byte.x03]]
      (demo.world [] [] [Accepted; Accepted])
    = (Done tt, w')
    /\ printed (trace w')
       = [None; Some (mkMSRecord demo.header 0 one 1 "i" 0 [])].
Proof.
  destruct (@handler_prints_previous_record demo.codec
              (mkConfig 1 (Some "T"%string) demo.ten demo.two
                        (Some "localhost:16000"%string) 0 None 300)
              "localhost:16000"%string [[Byte.x01]; [Byte.x02; Byte.x03]] []
              (demo.world [] [] [Accepted; Accepted])
              ltac:(cbn; lia) eq_refl
              ltac:(repeat (constructor; [reflexivity|]); constructor)
              eq_refl)
    as (w' & Hrun & Hp & _).
  exists w'. split; [exact Hrun | exact Hp].
Defined.

Lemma options_scenario :
  exists s',
    @slscale.read_options demo.libc
      [demo.flag "v"; demo.opt "B" "2"; demo.flag "v"; demo.opt "u" "-5"; demo.opt "B" "3"]
      (slscale.defaults 30 600 0) = Go s'
    /\ verbose (slscale.globals s') = 2
    /\ beta (slscale.globals s') = double_of_int 3
    /\ stateint (slscale.globals s') = -5.
Proof.
  destruct (@slscale_options_accumulate demo.libc
              [demo.flag "v"; demo.opt "B" "2"; demo.flag "v"; demo.opt "u" "-5"; demo.opt "B" "3"]
              (slscale.defaults 30 600 0) eq_refl)
    as (s' & Hrun & Hv & _ & _ & Hb & _ & _ & Hu & _).
  exists s'. split; [exact Hrun|]. split; [exact Hv|]. split; [exact Hb | exact Hu].
Defined.

Lemma help_after_verbose :
  @slscale.read_options demo.libc
    ([demo.flag "v"] ++ demo.flag "h" :: [demo.flag "?"]) (slscale.defaults 30 600 0)
  = Exit 0.
Proof.
  apply (@options_stop_at_first_exit demo.libc [demo.flag "v"]
           [demo.flag "?"] "h"%char EmptyString eq_refl (or_intror eq_refl)).
Defined.

Lemma msscale_options_scenario :
  exists c',
    @msscale.read_options demo.libc
      [demo.opt "A" "7"; demo.flag "v"; demo.opt "O" "Z"; demo.opt "A" "-4"] msscale.defaults
    = Go c'
    /\ verbose c' = 1
    /\ alpha c' = double_of_int (-4)
    /\ orient c' = Some "Z"%string.
Proof.
  destruct (@msscale_options_accumulate demo.libc
              [demo.opt "A" "7"; demo.flag "v"; demo.opt "O" "Z"; demo.opt "A" "-4"]
              msscale.defaults eq_refl)
    as (c' & Hrun & Hv & Ha & _ & Ho).
  exists c'. split; [exact Hrun|]. split; [exact Hv|]. split; [exact Ha | exact Ho].
Defined.

Lemma one_argument_is_direct_mode :
  exists s',
    @slscale.read_options demo.libc [demo.flag "v"] (slscale.defaults 30 600 0)
    = Go s'
    /\ datalink (slscale.globals (slscale.positional ["geonet:18000"%string] s')) = None
    /\ slscale.seedlink (slscale.positional ["geonet:18000"%string] s')
       = "geonet:18000"%string.
Proof.
  eexists. split; [reflexivity|].
  destruct (@destination_comes_from_arguments demo.libc [demo.flag "v"]
              ["geonet:18000"%string] 30 600 0 _ eq_refl)
    as (Hd & Hs & _).
  split; [exact Hd | exact Hs].
Defined.

Lemma slscale_default_scenario :
  exists s' r',
    @slscale.read_options demo.libc [demo.flag "v"] (slscale.defaults 30 600 0)
    = Go s'
    /\ (@scale_record demo.target demo.codec
          (slscale.globals (slscale.positional [] s')) msscale.record_handler
          (Some (mkMSRecord demo.header 0 one 3 "i" 2 [1; -2; 3]))
          (demo.world [true] [true] [])).1.2 = Some r'
    /\ datasamples r' = [10; -20; 3].
Proof.
  eexists.
  destruct (@slscale_multiplies_by_ten_by_default demo.target demo.codec demo.libc
              msscale.record_handler [demo.flag "v"] [] 30 600 0 _
              (mkMSRecord demo.header 0 one 3 "i" 2 [1; -2; 3])
              (demo.world [true] [true] [])
              eq_refl eq_refl eq_refl eq_refl ltac:(vm_compute; discriminate)
              ltac:(unfold INT_MIN, INT_MAX; cbn; repeat constructor; lia))
    as (r' & Hr & Hd & _).
  exists r'. split; [reflexivity|]. split; [exact Hr | exact Hd].
Defined.

Lemma msscale_default_scenario :
  exists c' r',
    @msscale.read_options demo.libc [demo.flag "v"] msscale.defaults = Go c'
    /\ (@scale_record demo.target demo.codec c' msscale.record_handler
          (Some (demo.int_record [1; -2; 3])) (demo.world [true] [true] [])).1.2 = Some r'
    /\ datasamples r' = [1; -2; 3].
Proof.
  eexists.
  destruct (@msscale_keeps_samples_by_default demo.target demo.codec demo.libc
              msscale.record_handler [demo.flag "v"] _
              (demo.int_record [1; -2; 3]) (demo.world [true] [true] [])
              eq_refl eq_refl eq_refl eq_refl eq_refl
              ltac:(unfold int_samples, INT_MIN, INT_MAX; cbn; repeat constructor; lia))
    as (r' & Hr & Hd).
  exists r'. split; [reflexivity|]. split; [exact Hr | exact Hd].
Defined.



Lemma verbose_msscale_reads_nothing :
  @msscale.main demo.target demo.codec
    (set_verbose 1 msscale.defaults)
    [msscale.mkFile [demo.int_record [1; 2]] msscale.MS_ENDOFFILE]
    (demo.world [true] [true] [])
  = (Fault, emit (EvLog 0 "%s") (demo.world [true] [true] [])).
Proof.
  apply (@msscale_verbose_run_faults demo.libc demo.target demo.codec [demo.flag "v"]
           (set_verbose 1 msscale.defaults)
           [msscale.mkFile [demo.int_record [1; 2]] msscale.MS_ENDOFFILE]
           (demo.world [true] [true] []) eq_refl ltac:(vm_compute; reflexivity)).
Defined.

Lemma failed_unpack_after_a_good_packet :
  (exists w2,
     @slscale.collect_loop demo.target demo.codec
       (demo.config demo.ten demo.two None None 300)
       ([demo.data_packet [1; 2; 3]] ++ [demo.bad_packet]) None 0
       (demo.world [true; true] [true; true] [])
     = (Fault, w2)
     /\ packs w2 = 1%nat)
  /\ (exists c2 w2,
        @slscale.collect_loop demo.target demo.fragile
          (demo.config demo.ten demo.two None None 300)
          ([demo.data_packet [1; 2; 3]] ++ [demo.garbled_packet [7; 8]]) None 0
          (demo.world [true; true] [true; true] [])
        = (Done (slscale.Continue None c2), w2)
        /\ stdout_of (trace w2) = [[Byte.x0c; Byte.x0e; Byte.x10]; [Byte.x18; Byte.x1a]]
        /\ packs w2 = 2%nat).
Proof.
  split.
  - assert (Hrun :
      @slscale.collect_loop demo.target demo.codec
        (demo.config demo.ten demo.two None None 300)
        [demo.data_packet [1; 2; 3]] None 0 (demo.world [true; true] [true; true] [])
      = (Done (slscale.Continue None 0),
         (@slscale.collect_loop demo.target demo.codec
            (demo.config demo.ten demo.two None None 300)
            [demo.data_packet [1; 2; 3]] None 0
            (demo.world [true; true] [true; true] [])).2)).
    { vm_compute. reflexivity. }
    destruct (@failed_unpack_reaches_scale_record demo.target demo.codec
                (demo.config demo.ten demo.two None None 300)
                [demo.data_packet [1; 2; 3]] demo.bad_packet 0 0 _ _ None
                eq_refl eq_refl Hrun)
      as (_ & _ & _ & Hrej & _).
    destruct (Hrej eq_refl) as (w2 & Hloop & _ & Hp).
    exists w2. split; [exact Hloop|]. rewrite Hp. reflexivity.
  - assert (Hrun :
      @slscale.collect_loop demo.target demo.fragile
        (demo.config demo.ten demo.two None None 300)
        [demo.data_packet [1; 2; 3]] None 0 (demo.world [true; true] [true; true] [])
      = (Done (slscale.Continue None 0),
         (@slscale.collect_loop demo.target demo.fragile
            (demo.config demo.ten demo.two None None 300)
            [demo.data_packet [1; 2; 3]] None 0
            (demo.world [true; true] [true; true] [])).2)).
    { vm_compute. reflexivity. }
    destruct (@failed_unpack_reaches_scale_record demo.target demo.fragile
                (demo.config demo.ten demo.two None None 300)
                [demo.data_packet [1; 2; 3]] (demo.garbled_packet [7; 8]) 0 0 _ _ None
                eq_refl eq_refl Hrun)
      as (_ & _ & _ & _ & Hgar).
    destruct (Hgar (mkMSRecord demo.header 0 one 2 "i" 2 [7; 8]) eq_refl)
      as (_ & Hdirect & _).
    destruct (Hdirect [] [] eq_refl) as (c2 & w2 & Hloop & Hout & Hp).
    + intros _. split; [reflexivity | vm_compute; split; discriminate].
    + vm_compute. reflexivity.
    + vm_compute. reflexivity.
    + exists c2, w2. split; [exact Hloop|]. split.
      * rewrite Hout. vm_compute. reflexivity.
      * rewrite Hp. vm_compute. reflexivity.
Defined.
